(** * Muay Thai coach: pose metrics, scoring engine and calibration cycle

    A shallow embedding of [lib/pose/metrics.ts], [lib/pose/scoring.ts] and of
    the per-tick callback of [components/CalibrationPhase.tsx], together with
    the tables and lookups of [lib/combos.ts], the keyframe interpolation of
    [lib/stickAvatarKeyframes.ts] and the session history of
    [lib/settings.ts].

    Conventions of the embedding.
    - A TypeScript [number] is a real number ([R]): rounding of IEEE doubles
      is not modelled.  The division of the sources whose divisor can be
      zero ([estimateViewAngle]) is modelled with the IEEE outcome written
      out (type [jsnum]); every other division is guarded by the source.
    - The calibration callback and the metrics it calls are embedded a second
      time with [number] as IEEE 754 binary64 (module [Binary64], over the
      primitive floats), for the captured baseline, which depends on
      rounding.
    - Array lengths, loop indices and counters are [nat]; [Math.floor] of a
      quotient of two of them is [Nat.div].
    - Reading a property of [undefined] (an array read past the end followed
      by a field access) throws a [TypeError]: fallible functions return an
      [Outcome]. *)

From Stdlib Require Import PrimFloat.
From Stdlib Require Uint63.
From Stdlib Require Import String Reals Lra Lia ZArith Bool Arith List Sorted.
Import ListNotations.
Open Scope R_scope.
Set Warnings "-inexact-float".

(** ** Results of fallible code *)

Inductive Outcome (A : Type) : Type :=
| Ok (a : A)      (* normal completion *)
| TypeError       (* a property of [undefined] was read *)
| NoFuel.         (* the loop model was given too little fuel *)

Arguments Ok {A} a.
Arguments TypeError {A}.
Arguments NoFuel {A}.

Definition bind {A B : Type} (m : Outcome A) (f : A -> Outcome B) : Outcome B :=
  match m with
  | Ok a => f a
  | TypeError => TypeError
  | NoFuel => NoFuel
  end.

Notation "x <- m ;; k" := (bind m (fun x => k))
  (at level 61, m at next level, right associativity).

(** ** JavaScript numbers and [Math] *)

Module Js.

Definition ltb (a b : R) : bool := if Rlt_dec a b then true else false.
Definition leb (a b : R) : bool := if Rle_dec a b then true else false.
Definition gtb (a b : R) : bool := ltb b a.
Definition geb (a b : R) : bool := leb b a.

(** [Math.pow(v, 2)] *)
Definition pow2 (v : R) : R := v ^ 2.

(** [Math.round]: the nearest integer, halves towards +infinity. *)
Definition round (v : R) : R := IZR (Zfloor (v + / 2)).

(** [Math.atan2(y, x)] on finite arguments, from the arc tangent. *)
Definition atan2 (y x : R) : R :=
  if Rlt_dec 0 x then atan (y / x)
  else if Rlt_dec x 0 then
    (if Rle_dec 0 y then atan (y / x) + PI else atan (y / x) - PI)
  else
    (if Rlt_dec 0 y then PI / 2 else if Rlt_dec y 0 then - (PI / 2) else 0).

(** [v || 0] on a number: 0 is falsy. *)
Definition orZero (v : R) : R := if Req_dec_T v 0 then 0 else v.

(** [v || 0] on an optional number: [undefined] is falsy too. *)
Definition optOrZero (v : option R) : R :=
  match v with
  | Some r => orZero r
  | None => 0
  end.

(** The value of [a / b] for finite [a] and a finite [b >= +0]. *)
Inductive jsnum : Type :=
| Fin (r : R)
| PosInf
| NegInf
| NaN.

Definition div (a b : R) : jsnum :=
  if Req_dec_T b 0 then
    (if Rlt_dec 0 a then PosInf else if Rlt_dec a 0 then NegInf else NaN)
  else Fin (a / b).

(** [v > c] and [v < c] for a finite [c]; comparisons with [NaN] are false. *)
Definition num_gtb (v : jsnum) (c : R) : bool :=
  match v with
  | Fin r => gtb r c
  | PosInf => true
  | NegInf => false
  | NaN => false
  end.

Definition num_ltb (v : jsnum) (c : R) : bool :=
  match v with
  | Fin r => ltb r c
  | PosInf => false
  | NegInf => true
  | NaN => false
  end.

(** [arr.reduce((a, b) => a + b, 0)] *)
Definition sum (l : list R) : R := fold_left Rplus l 0.

End Js.

(** ** Data model *)

(** The declarations of the types module [lib/types] that the sources import
    ([NormalizedLandmark], [PoseFrame], [ViewAngle], [Stance],
    [FramingQuality], [CalibrationData], [SessionScore], [AnalysisResult]);
    the optional [visibility] of a landmark is [None] when absent. *)
Record NormalizedLandmark : Type := mkLandmark {
  x : R;
  y : R;
  z : R;
  visibility : option R
}.

Definition Landmarks : Type := list NormalizedLandmark.

Record PoseFrame : Type := mkFrame {
  timestamp : R;
  landmarks : Landmarks
}.

Inductive ViewAngle : Type := front | threeQuarter | side.

Inductive Stance : Type := orthodox | southpaw.

Record FramingQuality : Type := mkFraming {
  headVisible : bool;
  hipsVisible : bool;
  anklesVisible : bool;
  overallScore : R
}.

Record CalibrationData : Type := mkCalibration {
  version : nat;
  calTimestamp : R;
  viewAngle : ViewAngle;
  stance : Stance;
  wearingGloves : bool;
  baselineScale : R;
  baselineGuardHeight : R;
  framingQuality : FramingQuality
}.

Record SessionScore : Type := mkScore {
  overall : R;
  guard : R;
  stability : R;
  execution : R;
  timing : R;
  strengths : list string;
  improvements : list string;
  warnings : list string
}.

Record AnalysisResult : Type := mkResult {
  frameCount : nat;
  duration : R;
  score : SessionScore;
  frames : list PoseFrame
}.

Inductive Side : Type := left | right.

(** [LANDMARK_INDICES] of [lib/pose/pose.ts] (the entries the metrics use). *)
Module LANDMARK_INDICES.
Definition NOSE : nat := 0.
Definition LEFT_SHOULDER : nat := 11.
Definition RIGHT_SHOULDER : nat := 12.
Definition LEFT_ELBOW : nat := 13.
Definition RIGHT_ELBOW : nat := 14.
Definition LEFT_WRIST : nat := 15.
Definition RIGHT_WRIST : nat := 16.
Definition LEFT_HIP : nat := 23.
Definition RIGHT_HIP : nat := 24.
Definition LEFT_KNEE : nat := 25.
Definition RIGHT_KNEE : nat := 26.
Definition LEFT_ANKLE : nat := 27.
Definition RIGHT_ANKLE : nat := 28.
End LANDMARK_INDICES.

(** [arr[i]] followed by a property read: a [TypeError] past the end. *)
Definition at_ {A : Type} (arr : list A) (i : nat) : Outcome A :=
  match nth_error arr i with
  | Some a => Ok a
  | None => TypeError
  end.

(** A frame as the landmark detector produces it: 33 points. *)
Definition wfPose (ls : Landmarks) : Prop := length ls = 33%nat.

Definition wfFrame (f : PoseFrame) : Prop := wfPose (landmarks f).

(** ** lib/pose/metrics.ts *)

Module Metrics.
Import LANDMARK_INDICES.

Definition calculateAngle (a b c : NormalizedLandmark) : R :=
  let radians :=
    Js.atan2 (y c - y b) (x c - x b) - Js.atan2 (y a - y b) (x a - x b) in
  let angle := Rabs (radians * 180 / PI) in
  if Js.gtb angle 180 then 360 - angle else angle.

Definition calculateDistance (a b : NormalizedLandmark) : R :=
  sqrt (Js.pow2 (x b - x a) + Js.pow2 (y b - y a)).

Definition getElbowAngle (ls : Landmarks) (s : Side) : Outcome R :=
  let shoulderIdx := match s with left => LEFT_SHOULDER | right => RIGHT_SHOULDER end in
  let elbowIdx := match s with left => LEFT_ELBOW | right => RIGHT_ELBOW end in
  let wristIdx := match s with left => LEFT_WRIST | right => RIGHT_WRIST end in
  sh <- at_ ls shoulderIdx ;;
  el <- at_ ls elbowIdx ;;
  wr <- at_ ls wristIdx ;;
  Ok (calculateAngle sh el wr).


Definition getShoulderWidth (ls : Landmarks) : Outcome R :=
  l <- at_ ls LEFT_SHOULDER ;;
  r <- at_ ls RIGHT_SHOULDER ;;
  Ok (calculateDistance l r).

Definition getHipWidth (ls : Landmarks) : Outcome R :=
  l <- at_ ls LEFT_HIP ;;
  r <- at_ ls RIGHT_HIP ;;
  Ok (calculateDistance l r).

Definition getTorsoLength (ls : Landmarks) : Outcome R :=
  ls_ <- at_ ls LEFT_SHOULDER ;;
  rs <- at_ ls RIGHT_SHOULDER ;;
  lh <- at_ ls LEFT_HIP ;;
  rh <- at_ ls RIGHT_HIP ;;
  let shoulderCenter := mkLandmark ((x ls_ + x rs) / 2) ((y ls_ + y rs) / 2) 0 None in
  let hipCenter := mkLandmark ((x lh + x rh) / 2) ((y lh + y rh) / 2) 0 None in
  Ok (calculateDistance shoulderCenter hipCenter).

Definition estimateViewAngle (ls : Landmarks) : Outcome ViewAngle :=
  shoulderWidth <- getShoulderWidth ls ;;
  torsoLength <- getTorsoLength ls ;;
  l <- at_ ls LEFT_SHOULDER ;;
  r <- at_ ls RIGHT_SHOULDER ;;
  let leftShoulderZ := Js.orZero (z l) in
  let rightShoulderZ := Js.orZero (z r) in
  let zDiff := Rabs (leftShoulderZ - rightShoulderZ) in
  let ratio := Js.div shoulderWidth torsoLength in
  if Js.num_gtb ratio (6 / 10) && Js.ltb zDiff (1 / 10) then Ok front
  else if Js.num_ltb ratio (3 / 10) || Js.gtb zDiff (2 / 10) then Ok side
  else Ok threeQuarter.

Record GuardResult : Type := mkGuard {
  score : R;
  leftUp : bool;
  rightUp : bool
}.

Definition isGuardUp (ls : Landmarks) (calibration : option CalibrationData)
  : Outcome GuardResult :=
  nose <- at_ ls NOSE ;;
  leftWrist <- at_ ls LEFT_WRIST ;;
  rightWrist <- at_ ls RIGHT_WRIST ;;
  leftShoulder <- at_ ls LEFT_SHOULDER ;;
  rightShoulder <- at_ ls RIGHT_SHOULDER ;;
  let midChestY := (y leftShoulder + y rightShoulder) / 2 in
  let faceRegionBottom := y nose + 1 / 10 in
  let threshold :=
    match calibration with
    | Some c => if wearingGloves c then 15 / 100 else 1 / 10
    | None => 1 / 10
    end in
  let leftUp :=
    Js.ltb (y leftWrist) midChestY && Js.ltb (y leftWrist) faceRegionBottom
    && Js.ltb (Rabs (x leftWrist - x nose)) (3 / 10) in
  let rightUp :=
    Js.ltb (y rightWrist) midChestY && Js.ltb (y rightWrist) faceRegionBottom
    && Js.ltb (Rabs (x rightWrist - x nose)) (3 / 10) in
  let score0 := 0 in
  let score1 := if leftUp then score0 + 50 else score0 in
  let score2 := if rightUp then score1 + 50 else score1 in
  let optimalHeight := y nose - 5 / 100 in
  let score3 :=
    if leftUp && Js.ltb (Rabs (y leftWrist - optimalHeight)) threshold
    then score2 + 10 else score2 in
  let score4 :=
    if rightUp && Js.ltb (Rabs (y rightWrist - optimalHeight)) threshold
    then score3 + 10 else score3 in
  Ok (mkGuard (Rmin 100 score4) leftUp rightUp).

(** The hip centre of one frame, as the [map] callback of
    [calculateStability] builds it. *)
Definition hipCenter (ls : Landmarks) : Outcome (R * R) :=
  lh <- at_ ls LEFT_HIP ;;
  rh <- at_ ls RIGHT_HIP ;;
  Ok ((x lh + x rh) / 2, (y lh + y rh) / 2).

(** [arr.map(f)] for a callback that can throw. *)
Fixpoint mapM {A B : Type} (f : A -> Outcome B) (l : list A) : Outcome (list B) :=
  match l with
  | [] => Ok []
  | a :: l' => b <- f a ;; bs <- mapM f l' ;; Ok (b :: bs)
  end.

(** The variance of the hip positions around their mean (sum of the two
    coordinate variances), as [calculateStability] computes it. *)
Definition hipVariance (hipPositions : list (R * R)) : R :=
  let n := INR (length hipPositions) in
  let meanX := fold_left (fun sum p => sum + fst p) hipPositions 0 / n in
  let meanY := fold_left (fun sum p => sum + snd p) hipPositions 0 / n in
  fold_left
    (fun sum p => sum + Js.pow2 (fst p - meanX) + Js.pow2 (snd p - meanY))
    hipPositions 0 / n.

Definition calculateStability (fs : list Landmarks) : Outcome R :=
  if (length fs <? 2)%nat then Ok 100
  else
    hipPositions <- mapM hipCenter fs ;;
    let variance := hipVariance hipPositions in
    let stability := Rmax 0 (100 - variance * 5000) in
    Ok (Rmin 100 stability).

Definition detectPunchExtension (ls : Landmarks) (s : Side) : Outcome (bool * R) :=
  angle <- getElbowAngle ls s ;;
  let isExtended := Js.geb angle 155 in
  Ok (isExtended, angle).

Definition detectKneeLift (ls : Landmarks) (s : Side) : Outcome (bool * R) :=
  let hipIdx := match s with left => LEFT_HIP | right => RIGHT_HIP end in
  let kneeIdx := match s with left => LEFT_KNEE | right => RIGHT_KNEE end in
  hip <- at_ ls hipIdx ;;
  knee <- at_ ls kneeIdx ;;
  let height := y hip - y knee in
  let isLifted := Js.gtb height 0 in
  Ok (isLifted, height).

(** The five array reads come first and cannot fail; a point is needed only
    where its [visibility] is read, and [&&] reads the right hip (the right
    ankle) only when the left one is visible. *)
Definition checkFramingQuality (ls : Landmarks) : Outcome FramingQuality :=
  let threshold := 3 / 10 in
  head <- at_ ls NOSE ;;
  let headVisible := Js.gtb (Js.optOrZero (visibility head)) threshold in
  leftHip <- at_ ls LEFT_HIP ;;
  hipsVisible <-
    (if Js.gtb (Js.optOrZero (visibility leftHip)) threshold
     then rightHip <- at_ ls RIGHT_HIP ;;
          Ok (Js.gtb (Js.optOrZero (visibility rightHip)) threshold)
     else Ok false) ;;
  leftAnkle <- at_ ls LEFT_ANKLE ;;
  anklesVisible <-
    (if Js.gtb (Js.optOrZero (visibility leftAnkle)) threshold
     then rightAnkle <- at_ ls RIGHT_ANKLE ;;
          Ok (Js.gtb (Js.optOrZero (visibility rightAnkle)) threshold)
     else Ok false) ;;
  let s1 := if headVisible then 0 + 40 else 0 in
  let s2 := if hipsVisible then s1 + 40 else s1 in
  let s3 := if anklesVisible then s2 + 20 else s2 in
  Ok (mkFraming headVisible hipsVisible anklesVisible s3).

End Metrics.

(** ** lib/pose/scoring.ts *)

Module Scoring.

Record ScoringContext : Type := mkContext {
  calibration : option CalibrationData;
  comboMoveTypes : list string
}.

(** [arr.includes(s)] on an array of strings. *)
Definition includes (arr : list string) (s : string) : bool :=
  existsb (String.eqb s) arr.

(** The [for (let i = 0; i < n; i += step)] loop of [calculateGuardScore];
    the state is [(totalScore, samples)]. *)
Fixpoint guardLoop (fuel : nat) (landmarksArray : list Landmarks)
    (cal : option CalibrationData) (step i : nat) (totalScore : R) (samples : nat)
  : Outcome (R * nat) :=
  if (i <? length landmarksArray)%nat then
    match fuel with
    | O => NoFuel
    | S fuel' =>
        ls <- at_ landmarksArray i ;;
        result <- Metrics.isGuardUp ls cal ;;
        guardLoop fuel' landmarksArray cal step (i + step)
          (totalScore + Metrics.score result) (S samples)
    end
  else Ok (totalScore, samples).

Definition guardStep (n : nat) : nat :=
  let sampleCount := Nat.min 20 n in
  (n / sampleCount)%nat.

Definition calculateGuardScore (landmarksArray : list Landmarks)
    (cal : option CalibrationData) : Outcome R :=
  if (length landmarksArray =? 0)%nat then Ok 0
  else
    let step := guardStep (length landmarksArray) in
    r <- guardLoop (length landmarksArray) landmarksArray cal step 0 0 0 ;;
    let totalScore := fst r in
    let samples := snd r in
    Ok (totalScore / INR samples / 100 * 25).

Definition calculateStabilityScore (landmarksArray : list Landmarks) : Outcome R :=
  if (length landmarksArray <? 5)%nat then Ok 10
  else
    stability <- Metrics.calculateStability landmarksArray ;;
    Ok (stability / 100 * 20).

(** The two [for ... of] loops of [calculateExecutionScore]: the number of
    frames on which the detector fires for the left or the right side. *)
Fixpoint countDetections (detect : Landmarks -> Side -> Outcome (bool * R))
    (landmarksArray : list Landmarks) (count : nat) : Outcome nat :=
  match landmarksArray with
  | [] => Ok count
  | ls :: rest =>
      l <- detect ls left ;;
      r <- detect ls right ;;
      countDetections detect rest (if fst l || fst r then S count else count)
  end.

Definition calculateExecutionScore (landmarksArray : list Landmarks)
    (moveTypes : list string) : Outcome R :=
  if (length landmarksArray <? 5)%nat then Ok 20
  else
    let score := 0 in
    let checks := 0%nat in
    st1 <-
      (if includes moveTypes "punch" then
         punchExtensions <- countDetections Metrics.detectPunchExtension landmarksArray 0 ;;
         let extensionRatio := INR punchExtensions / INR (length landmarksArray) in
         let score' :=
           if Js.gtb extensionRatio (1 / 10) && Js.ltb extensionRatio (5 / 10)
           then score + 20
           else if Js.gtb extensionRatio (5 / 100) then score + 10 else score in
         Ok (score', S checks)
       else Ok (score, checks)) ;;
    st2 <-
      (if includes moveTypes "kick" || includes moveTypes "knee" then
         kneeLiftCount <- countDetections Metrics.detectKneeLift landmarksArray 0 ;;
         let liftRatio := INR kneeLiftCount / INR (length landmarksArray) in
         let score' :=
           if Js.gtb liftRatio (5 / 100) && Js.ltb liftRatio (4 / 10)
           then fst st1 + 20
           else if Js.gtb liftRatio (2 / 100) then fst st1 + 10 else fst st1 in
         Ok (score', S (snd st1))
       else Ok st1) ;;
    let score := fst st2 in
    let checks := snd st2 in
    if (checks =? 0)%nat then Ok 25
    else Ok (Rmin 40 (score / (INR checks * 20) * 40)).

(** The inner loop of [calculateTimingScore]: the summed displacement of
    the points of frame [i] (here [cur]) from those of frame [i - 1]. *)
Fixpoint movementLoop (cur prev : Landmarks) (j : nat) (totalMovement : R)
  : Outcome R :=
  match cur with
  | [] => Ok totalMovement
  | c :: cur' =>
      p <- at_ prev j ;;
      let dx := x c - x p in
      let dy := y c - y p in
      movementLoop cur' prev (S j) (totalMovement + sqrt (dx * dx + dy * dy))
  end.

(** The outer loop, from [i = 1]: [prev] is [landmarksArray[i - 1]]. *)
Fixpoint movementsLoop (prev : Landmarks) (rest : list Landmarks)
    (movements : list R) : Outcome (list R) :=
  match rest with
  | [] => Ok movements
  | cur :: rest' =>
      totalMovement <- movementLoop cur prev 0 0 ;;
      movementsLoop cur rest' (movements ++ [totalMovement])
  end.

Definition calculateTimingScore (landmarksArray : list Landmarks)
    (frames : list PoseFrame) : Outcome R :=
  if (length frames <? 5)%nat then Ok 8
  else
    movements <-
      match landmarksArray with
      | [] => Ok []
      | first :: rest => movementsLoop first rest []
      end ;;
    let avgMovement := Js.sum movements / INR (length movements) in
    let variance :=
      fold_left (fun sum m => sum + Js.pow2 (m - avgMovement)) movements 0
      / INR (length movements) in
    if Js.gtb avgMovement (1 / 100) && Js.ltb avgMovement (2 / 10)
       && Js.ltb variance (1 / 100)
    then Ok 15
    else if Js.gtb avgMovement (5 / 1000) && Js.ltb variance (2 / 100)
    then Ok 10
    else Ok 5.

Record Scores : Type := mkScores {
  guard : R;
  stability : R;
  execution : R;
  timing : R
}.

Record Feedback : Type := mkFeedback {
  strengths : list string;
  improvements : list string;
  warnings : list string
}.

(** [arr.slice(0, 3)] *)
Definition slice3 (arr : list string) : list string := firstn 3 arr.

Definition generateFeedback (scores : Scores) (frames : list PoseFrame)
    (context : ScoringContext) : Outcome Feedback :=
  let strengths : list string := [] in
  let improvements : list string := [] in
  let warnings : list string := [] in
  let total := guard scores + stability scores + execution scores + timing scores in
  (* Guard feedback *)
  let strengths :=
    if Js.geb (guard scores) 20
    then strengths ++ ["feedback.strengths.goodGuard"%string] else strengths in
  let improvements :=
    if Js.geb (guard scores) 20 then improvements
    else if Js.ltb (guard scores) 15
    then improvements ++ ["feedback.improvements.raiseGuard"%string] else improvements in
  (* Stability feedback *)
  let strengths :=
    if Js.geb (stability scores) 16
    then strengths ++ ["feedback.strengths.stableBase"%string] else strengths in
  let improvements :=
    if Js.geb (stability scores) 16 then improvements
    else if Js.ltb (stability scores) 10
    then improvements ++ ["feedback.improvements.stayBalanced"%string] else improvements in
  (* Execution feedback *)
  let strengths :=
    if Js.geb (execution scores) 32
    then strengths ++ ["feedback.strengths.goodExtension"%string] else strengths in
  let improvements :=
    if Js.geb (execution scores) 32 then improvements
    else if Js.ltb (execution scores) 20
    then improvements ++ ["feedback.improvements.extendMore"%string] else improvements in
  (* Timing feedback *)
  let strengths :=
    if Js.geb (timing scores) 12
    then strengths ++ ["feedback.strengths.goodTiming"%string] else strengths in
  let improvements :=
    if Js.geb (timing scores) 12 then improvements
    else if Js.ltb (timing scores) 8
    then improvements ++ ["feedback.improvements.improveFlow"%string] else improvements in
  (* General good form *)
  let strengths :=
    if Js.gtb total 70
    then strengths ++ ["feedback.strengths.goodForm"%string] else strengths in
  (* Warnings *)
  let warnings :=
    if (length frames <? 50)%nat
    then warnings ++ ["feedback.warnings.lowFrameCount"%string] else warnings in
  warnings <-
    (if (0 <? length frames)%nat then
       lastFrame <- at_ frames (length frames - 1) ;;
       framing <- Metrics.checkFramingQuality (landmarks lastFrame) ;;
       if Js.ltb (overallScore framing) 60
       then Ok (warnings ++ ["feedback.warnings.poorFraming"%string])
       else Ok warnings
     else Ok warnings) ;;
  let warnings :=
    match calibration context with
    | Some c =>
        match viewAngle c with
        | side => warnings ++ ["feedback.warnings.sidewaysView"%string]
        | _ => warnings
        end
    | None => warnings
    end in
  (* At least some feedback *)
  let strengths :=
    if (length strengths =? 0)%nat
    then strengths ++ ["feedback.strengths.goodForm"%string] else strengths in
  let improvements :=
    if (length improvements =? 0)%nat && Js.ltb total 80
    then improvements ++ ["feedback.improvements.returnFaster"%string]
    else improvements in
  Ok (mkFeedback (slice3 strengths) (slice3 improvements) (slice3 warnings)).

Definition generateScore (frames : list PoseFrame) (context : ScoringContext)
  : Outcome AnalysisResult :=
  duration <-
    (if (0 <? length frames)%nat
     then f <- at_ frames (length frames - 1) ;; Ok (timestamp f)
     else Ok 0) ;;
  let landmarksArray := map landmarks frames in
  guardScore <- calculateGuardScore landmarksArray (calibration context) ;;
  stabilityScore <- calculateStabilityScore landmarksArray ;;
  executionScore <- calculateExecutionScore landmarksArray (comboMoveTypes context) ;;
  timingScore <- calculateTimingScore landmarksArray frames ;;
  let overall := Js.round (guardScore + stabilityScore + executionScore + timingScore) in
  fb <- generateFeedback
          (mkScores guardScore stabilityScore executionScore timingScore)
          frames context ;;
  Ok (mkResult (length frames) duration
        (mkScore (Rmin 100 overall) (Js.round guardScore) (Js.round stabilityScore)
           (Js.round executionScore) (Js.round timingScore)
           (strengths fb) (improvements fb) (warnings fb))
        frames).

(** What [moves[id]] evaluates to on an object whose own entries carry a
    [type]: [undefined] when [id] is no key of the object, the entry when it
    is an own key, and a member of [Object.prototype] when the key is
    inherited ([toString], [constructor], ...): a truthy value without a
    [type] property. *)
Inductive MoveLookup : Type :=
| noEntry
| ownEntry (type : string)
| inheritedMember.

Definition truthy (found : MoveLookup) : bool :=
  match found with
  | noEntry => false
  | ownEntry _ => true
  | inheritedMember => true
  end.

(** [found.type]; [None] is [undefined]. *)
Definition typeOf (found : MoveLookup) : option string :=
  match found with
  | ownEntry t => Some t
  | noEntry => None
  | inheritedMember => None
  end.

(** Equality of the members of a [Set] of strings and [undefined]. *)
Definition sameValueZero (a b : option string) : bool :=
  match a, b with
  | Some s, Some t => String.eqb s t
  | None, None => true
  | _, _ => false
  end.

(** [types.add(t)] on a [Set], kept as the list of its members in insertion
    order (the order [Array.from] returns). *)
Definition setAdd (types : list (option string)) (t : option string)
  : list (option string) :=
  if existsb (sameValueZero t) types then types else types ++ [t].

(** An id without an entry is skipped; the result holds [undefined] ([None])
    when an id is an inherited key. *)
Definition getMoveTypesFromCombo (moveIds : list string)
    (moves : string -> MoveLookup) : list (option string) :=
  fold_left
    (fun types id =>
       if truthy (moves id) then setAdd types (typeOf (moves id)) else types)
    moveIds [].

End Scoring.

(** ** components/CalibrationPhase.tsx: the detect / hold / confirm cycle *)

Module Calibration.

Inductive CalibrationStep : Type := detecting | holding | confirm.

(** The initial values of the user selections:
    [existingCalibration?.stance || 'orthodox'] and its two siblings. *)
Definition existingStance (c : option CalibrationData) : Stance :=
  match c with Some c => stance c | None => orthodox end.

Definition existingViewAngle (c : option CalibrationData) : ViewAngle :=
  match c with Some c => viewAngle c | None => front end.

Definition existingWearingGloves (c : option CalibrationData) : bool :=
  match c with Some c => wearingGloves c | None => false end.

(** The component's state: the [useState] cells and the two [useRef] cells
    the per-tick callback reads and writes.  One tick sees the state the
    previous tick left. *)
Record State : Type := mkState {
  step : CalibrationStep;
  holdProgress : R;
  detectedViewAngle : ViewAngle;
  detectedFraming : option FramingQuality;
  baselineScale : R;
  baselineGuardHeight : R;
  stance : Stance;
  viewAngle : ViewAngle;
  wearingGloves : bool;
  stabilityBuffer : list R;
  holdStartTime : option R
}.

Definition HOLD_DURATION : R := 3000.
Definition STABILITY_THRESHOLD : R := 2 / 100.

Definition initialState (existingCalibration : option CalibrationData) : State :=
  mkState detecting 0 front None 0 0
    (existingStance existingCalibration)
    (existingViewAngle existingCalibration)
    (existingWearingGloves existingCalibration)
    [] None.

(** [buf.push(v); if (buf.length > 30) buf.shift()] *)
Definition pushSample (buf : list R) (v : R) : list R :=
  let buf' := buf ++ [v] in
  if (30 <? length buf')%nat then tl buf' else buf'.

(** The rolling mean and population variance of the buffer. *)
Definition bufferAvg (buf : list R) : R := Js.sum buf / INR (length buf).

Definition bufferVariance (buf : list R) : R :=
  let avg := bufferAvg buf in
  fold_left (fun sum v => sum + Js.pow2 (v - avg)) buf 0 / INR (length buf).

(** One tick of [processFrame]. [detected] is the result of [detectPose]
    ([None] when no pose was found or the video was not ready) and [now] is
    the reading of [performance.now()] on this tick. *)
Definition processFrame (s : State) (detected : option Landmarks) (now : R)
  : Outcome State :=
  match detected with
  | None => Ok s
  | Some lms =>
      framing <- Metrics.checkFramingQuality lms ;;
      angle <- Metrics.estimateViewAngle lms ;;
      shoulderWidth <- Metrics.getShoulderWidth lms ;;
      let buf := pushSample (stabilityBuffer s) shoulderWidth in
      let s1 :=
        mkState (step s) (holdProgress s) angle (Some framing)
          (baselineScale s) (baselineGuardHeight s)
          (stance s) (viewAngle s) (wearingGloves s)
          buf (holdStartTime s) in
      if (10 <=? length buf)%nat then
        let avg := bufferAvg buf in
        let variance := bufferVariance buf in
        let isStable := Js.ltb variance STABILITY_THRESHOLD in
        match isStable, step s with
        | true, detecting =>
            Ok (mkState holding (holdProgress s1) angle (Some framing)
                  (baselineScale s1) (baselineGuardHeight s1)
                  (stance s1) (viewAngle s1) (wearingGloves s1)
                  buf (Some now))
        | true, holding =>
            let elapsed :=
              now - match holdStartTime s with Some t => Js.orZero t | None => 0 end in
            let progress := Rmin 100 (elapsed / HOLD_DURATION * 100) in
            if Js.geb elapsed HOLD_DURATION then
              nose <- at_ lms 0 ;;
              leftWrist <- at_ lms 15 ;;
              rightWrist <- at_ lms 16 ;;
              let noseY := y nose in
              let avgWristY := (y leftWrist + y rightWrist) / 2 in
              Ok (mkState confirm progress angle (Some framing)
                    avg (noseY - avgWristY)
                    (stance s1) angle (wearingGloves s1)
                    buf (holdStartTime s))
            else
              Ok (mkState holding progress angle (Some framing)
                    (baselineScale s1) (baselineGuardHeight s1)
                    (stance s1) (viewAngle s1) (wearingGloves s1)
                    buf (holdStartTime s))
        | false, holding =>
            Ok (mkState detecting 0 angle (Some framing)
                  (baselineScale s1) (baselineGuardHeight s1)
                  (stance s1) (viewAngle s1) (wearingGloves s1)
                  buf None)
        | _, _ => Ok s1
        end
      else Ok s1
  end.

Definition handleRecalibrate (s : State) : State :=
  mkState detecting 0 (detectedViewAngle s) (detectedFraming s)
    (baselineScale s) (baselineGuardHeight s)
    (stance s) (viewAngle s) (wearingGloves s) [] None.

(** [handleConfirm], with [dateNow] the reading of [Date.now()]. *)
Definition handleConfirm (s : State) (dateNow : R) : CalibrationData :=
  mkCalibration 1 dateNow (viewAngle s) (stance s) (wearingGloves s)
    (baselineScale s) (baselineGuardHeight s)
    (match detectedFraming s with
     | Some f => f
     | None => mkFraming true true false 80
     end).

(** A run of ticks, oldest first. *)
Fixpoint run (s : State) (ticks : list (option Landmarks * R)) : Outcome State :=
  match ticks with
  | [] => Ok s
  | (detected, now) :: rest => s' <- processFrame s detected now ;; run s' rest
  end.

End Calibration.

(** ** The calibration cycle over binary64 *)

(** The same callback with every [number] an IEEE 754 binary64 value and the
    arithmetic of the processor, for what depends on rounding: the landmark
    type, the four metrics the callback calls and the callback itself.
    [+], [-], [*], [/], [Math.sqrt] and [Math.abs] are the correctly rounded
    operations; comparisons with [NaN] are false. *)
Module Binary64.
Import LANDMARK_INDICES.
Local Open Scope float_scope.

Module Js.

(** [v || 0] on a number: 0, -0 and [NaN] are falsy. *)
Definition orZero (v : float) : float :=
  if (v =? 0) || negb (v =? v) then 0 else v.

(** [v || 0] on an optional number: [undefined] is falsy too. *)
Definition optOrZero (v : option float) : float :=
  match v with
  | Some r => orZero r
  | None => 0
  end.

(** [Math.pow(v, 2)]: the square, correctly rounded. *)
Definition pow2 (v : float) : float := v * v.

(** [Math.min(a, b)]: [NaN] if either is, and [-0] below [+0]. *)
Definition min (a b : float) : float :=
  if negb (a =? a) || negb (b =? b) then PrimFloat.nan
  else if a <? b then a
  else if b <? a then b
  else if PrimFloat.get_sign a then a else b.

(** [arr.length] as a number. *)
Definition ofNat (n : nat) : float :=
  PrimFloat.of_uint63 (Uint63.of_Z (Z.of_nat n)).

(** [arr.reduce((a, b) => a + b, 0)] *)
Definition sum (l : list float) : float := fold_left PrimFloat.add l 0.

End Js.

Record NormalizedLandmark : Type := mkLandmark {
  x : float;
  y : float;
  z : float;
  visibility : option float
}.

Definition Landmarks : Type := list NormalizedLandmark.

Record FramingQuality : Type := mkFraming {
  headVisible : bool;
  hipsVisible : bool;
  anklesVisible : bool;
  overallScore : float
}.

Record CalibrationData : Type := mkCalibration {
  version : nat;
  calTimestamp : float;
  viewAngle : ViewAngle;
  stance : Stance;
  wearingGloves : bool;
  baselineScale : float;
  baselineGuardHeight : float;
  framingQuality : FramingQuality
}.

Module Metrics.

Definition calculateDistance (a b : NormalizedLandmark) : float :=
  PrimFloat.sqrt (Js.pow2 (x b - x a) + Js.pow2 (y b - y a)).

Definition getShoulderWidth (ls : Landmarks) : Outcome float :=
  l <- at_ ls LEFT_SHOULDER ;;
  r <- at_ ls RIGHT_SHOULDER ;;
  Ok (calculateDistance l r).

Definition getTorsoLength (ls : Landmarks) : Outcome float :=
  ls_ <- at_ ls LEFT_SHOULDER ;;
  rs <- at_ ls RIGHT_SHOULDER ;;
  lh <- at_ ls LEFT_HIP ;;
  rh <- at_ ls RIGHT_HIP ;;
  let shoulderCenter := mkLandmark ((x ls_ + x rs) / 2) ((y ls_ + y rs) / 2) 0 None in
  let hipCenter := mkLandmark ((x lh + x rh) / 2) ((y lh + y rh) / 2) 0 None in
  Ok (calculateDistance shoulderCenter hipCenter).

Definition estimateViewAngle (ls : Landmarks) : Outcome ViewAngle :=
  shoulderWidth <- getShoulderWidth ls ;;
  torsoLength <- getTorsoLength ls ;;
  l <- at_ ls LEFT_SHOULDER ;;
  r <- at_ ls RIGHT_SHOULDER ;;
  let leftShoulderZ := Js.orZero (z l) in
  let rightShoulderZ := Js.orZero (z r) in
  let zDiff := PrimFloat.abs (leftShoulderZ - rightShoulderZ) in
  let ratio := shoulderWidth / torsoLength in
  if (0.6 <? ratio) && (zDiff <? 0.1) then Ok front
  else if (ratio <? 0.3) || (0.2 <? zDiff) then Ok side
  else Ok threeQuarter.

Definition checkFramingQuality (ls : Landmarks) : Outcome FramingQuality :=
  let threshold := 0.3 in
  head <- at_ ls NOSE ;;
  let headVisible := threshold <? Js.optOrZero (visibility head) in
  leftHip <- at_ ls LEFT_HIP ;;
  hipsVisible <-
    (if threshold <? Js.optOrZero (visibility leftHip)
     then rightHip <- at_ ls RIGHT_HIP ;;
          Ok (threshold <? Js.optOrZero (visibility rightHip))
     else Ok false) ;;
  leftAnkle <- at_ ls LEFT_ANKLE ;;
  anklesVisible <-
    (if threshold <? Js.optOrZero (visibility leftAnkle)
     then rightAnkle <- at_ ls RIGHT_ANKLE ;;
          Ok (threshold <? Js.optOrZero (visibility rightAnkle))
     else Ok false) ;;
  let s1 := if headVisible then 0 + 40 else 0 in
  let s2 := if hipsVisible then s1 + 40 else s1 in
  let s3 := if anklesVisible then s2 + 20 else s2 in
  Ok (mkFraming headVisible hipsVisible anklesVisible s3).

End Metrics.

Module Calibration.

Definition existingStance (c : option CalibrationData) : Stance :=
  match c with Some c => stance c | None => orthodox end.

Definition existingViewAngle (c : option CalibrationData) : ViewAngle :=
  match c with Some c => viewAngle c | None => front end.

Definition existingWearingGloves (c : option CalibrationData) : bool :=
  match c with Some c => wearingGloves c | None => false end.

Record State : Type := mkState {
  step : Calibration.CalibrationStep;
  holdProgress : float;
  detectedViewAngle : ViewAngle;
  detectedFraming : option FramingQuality;
  baselineScale : float;
  baselineGuardHeight : float;
  stance : Stance;
  viewAngle : ViewAngle;
  wearingGloves : bool;
  stabilityBuffer : list float;
  holdStartTime : option float
}.

Definition HOLD_DURATION : float := 3000.
Definition STABILITY_THRESHOLD : float := 0.02.

Definition initialState (existingCalibration : option CalibrationData) : State :=
  mkState Calibration.detecting 0 front None 0 0
    (existingStance existingCalibration)
    (existingViewAngle existingCalibration)
    (existingWearingGloves existingCalibration)
    [] None.

(** [buf.push(v); if (buf.length > 30) buf.shift()] *)
Definition pushSample (buf : list float) (v : float) : list float :=
  let buf' := buf ++ [v] in
  if (30 <? length buf')%nat then tl buf' else buf'.

Definition bufferAvg (buf : list float) : float :=
  Js.sum buf / Js.ofNat (length buf).

Definition bufferVariance (buf : list float) : float :=
  let avg := bufferAvg buf in
  fold_left (fun sum v => sum + Js.pow2 (v - avg)) buf 0 / Js.ofNat (length buf).

(** One tick of [processFrame], as in [Calibration.processFrame]. *)
Definition processFrame (s : State) (detected : option Landmarks) (now : float)
  : Outcome State :=
  match detected with
  | None => Ok s
  | Some lms =>
      framing <- Metrics.checkFramingQuality lms ;;
      angle <- Metrics.estimateViewAngle lms ;;
      shoulderWidth <- Metrics.getShoulderWidth lms ;;
      let buf := pushSample (stabilityBuffer s) shoulderWidth in
      let s1 :=
        mkState (step s) (holdProgress s) angle (Some framing)
          (baselineScale s) (baselineGuardHeight s)
          (stance s) (viewAngle s) (wearingGloves s)
          buf (holdStartTime s) in
      if (10 <=? length buf)%nat then
        let avg := bufferAvg buf in
        let variance := bufferVariance buf in
        let isStable := variance <? STABILITY_THRESHOLD in
        match isStable, step s with
        | true, Calibration.detecting =>
            Ok (mkState Calibration.holding (holdProgress s1) angle (Some framing)
                  (baselineScale s1) (baselineGuardHeight s1)
                  (stance s1) (viewAngle s1) (wearingGloves s1)
                  buf (Some now))
        | true, Calibration.holding =>
            let elapsed := now - Js.optOrZero (holdStartTime s) in
            let progress := Js.min 100 (elapsed / HOLD_DURATION * 100) in
            if HOLD_DURATION <=? elapsed then
              nose <- at_ lms 0 ;;
              leftWrist <- at_ lms 15 ;;
              rightWrist <- at_ lms 16 ;;
              let noseY := y nose in
              let avgWristY := (y leftWrist + y rightWrist) / 2 in
              Ok (mkState Calibration.confirm progress angle (Some framing)
                    avg (noseY - avgWristY)
                    (stance s1) angle (wearingGloves s1)
                    buf (holdStartTime s))
            else
              Ok (mkState Calibration.holding progress angle (Some framing)
                    (baselineScale s1) (baselineGuardHeight s1)
                    (stance s1) (viewAngle s1) (wearingGloves s1)
                    buf (holdStartTime s))
        | false, Calibration.holding =>
            Ok (mkState Calibration.detecting 0 angle (Some framing)
                  (baselineScale s1) (baselineGuardHeight s1)
                  (stance s1) (viewAngle s1) (wearingGloves s1)
                  buf None)
        | _, _ => Ok s1
        end
      else Ok s1
  end.

Definition handleRecalibrate (s : State) : State :=
  mkState Calibration.detecting 0 (detectedViewAngle s) (detectedFraming s)
    (baselineScale s) (baselineGuardHeight s)
    (stance s) (viewAngle s) (wearingGloves s) [] None.

(** [handleConfirm], with [dateNow] the reading of [Date.now()]. *)
Definition handleConfirm (s : State) (dateNow : float) : CalibrationData :=
  mkCalibration 1 dateNow (viewAngle s) (stance s) (wearingGloves s)
    (baselineScale s) (baselineGuardHeight s)
    (match detectedFraming s with
     | Some f => f
     | None => mkFraming true true false 80
     end).

(** A run of ticks, oldest first. *)
Fixpoint run (s : State) (ticks : list (option Landmarks * float)) : Outcome State :=
  match ticks with
  | [] => Ok s
  | (detected, now) :: rest => s' <- processFrame s detected now ;; run s' rest
  end.

End Calibration.

End Binary64.

(** ** Avatar poses ([AvatarPose], [AvatarKeyframe] and [Point2D] of [lib/types]) *)

Record Point2D : Type := mkPoint {
  px : R;
  py : R
}.

Record AvatarPose : Type := mkPose {
  head : Point2D;
  leftShoulder : Point2D;
  rightShoulder : Point2D;
  leftElbow : Point2D;
  rightElbow : Point2D;
  leftWrist : Point2D;
  rightWrist : Point2D;
  leftHip : Point2D;
  rightHip : Point2D;
  leftKnee : Point2D;
  rightKnee : Point2D;
  leftAnkle : Point2D;
  rightAnkle : Point2D
}.

Record AvatarKeyframe : Type := mkKeyframe {
  time : R;
  pose : AvatarPose
}.

(** ** lib/combos.ts: the move and combo tables and their lookups *)

Module Combos.

Definition GUARD_POSE : AvatarPose :=
  mkPose
    (mkPoint (3 / 100) (- (4 / 10)))
    (mkPoint (- (1 / 10)) (- (22 / 100)))
    (mkPoint (18 / 100) (- (18 / 100)))
    (mkPoint (- (15 / 100)) (- (8 / 100)))
    (mkPoint (25 / 100) (- (2 / 100)))
    (mkPoint (- (8 / 100)) (- (28 / 100)))
    (mkPoint (12 / 100) (- (3 / 10)))
    (mkPoint (- (6 / 100)) (1 / 10))
    (mkPoint (14 / 100) (18 / 100))
    (mkPoint (0) (32 / 100))
    (mkPoint (18 / 100) (46 / 100))
    (mkPoint (2 / 100) (52 / 100))
    (mkPoint (22 / 100) (72 / 100)).

(** [mirrorKeyframes]: every left joint takes the position of its right
    counterpart and back. *)
Definition mirrorKeyframes (keyframes : list AvatarKeyframe) : list AvatarKeyframe :=
  map (fun kf =>
         mkKeyframe (time kf)
           (mkPose
         (head (pose kf))
         (rightShoulder (pose kf))
         (leftShoulder (pose kf))
         (rightElbow (pose kf))
         (leftElbow (pose kf))
         (rightWrist (pose kf))
         (leftWrist (pose kf))
         (rightHip (pose kf))
         (leftHip (pose kf))
         (rightKnee (pose kf))
         (leftKnee (pose kf))
         (rightAnkle (pose kf))
         (leftAnkle (pose kf))))
    keyframes.

(** A [Move] without its [keyframes] (the animation data of the avatar,
    which none of the functions below reads). *)
Record Move : Type := mkMove {
  id : string;
  nameKey : string;
  type : string;
  side : string;
  cueKeys : list string;
  duration : R
}.

(** A [Combo]; its [id] and [nameKey] are the fields [comboId] and
    [comboNameKey]. *)
Record Combo : Type := mkCombo {
  comboId : string;
  level : nat;
  comboNameKey : string;
  moveIds : list string;
  tipKeys : list string
}.

Local Open Scope string_scope.

(** The object literal [MOVES], as the list of its keys and values. *)
Definition MOVES_entries : list (string * Move) :=
  [
   ("jab", mkMove "jab" "moves.jab" "punch" "lead"
      ["cues.jab.extend"; "cues.jab.snap"; "cues.jab.return"] 400);
   ("cross", mkMove "cross" "moves.cross" "punch" "rear"
      ["cues.cross.rotate"; "cues.cross.extend"; "cues.cross.power"] 500);
   ("hook", mkMove "hook" "moves.hook" "punch" "lead"
      ["cues.hook.elbow"; "cues.hook.rotate"; "cues.hook.compact"] 450);
   ("uppercut", mkMove "uppercut" "moves.uppercut" "punch" "rear"
      ["cues.uppercut.drop"; "cues.uppercut.drive"; "cues.uppercut.chin"] 450);
   ("teep", mkMove "teep" "moves.teep" "kick" "lead"
      ["cues.teep.chamber"; "cues.teep.push"; "cues.teep.retract"] 600);
   ("lowKick", mkMove "lowKick" "moves.lowKick" "kick" "rear"
      ["cues.lowKick.step"; "cues.lowKick.shin"; "cues.lowKick.through"] 650);
   ("roundhouse", mkMove "roundhouse" "moves.roundhouse" "kick" "rear"
      ["cues.roundhouse.pivot"; "cues.roundhouse.hips"; "cues.roundhouse.shin"] 700);
   ("knee", mkMove "knee" "moves.knee" "knee" "rear"
      ["cues.knee.drive"; "cues.knee.hips"; "cues.knee.pull"] 500);
   ("elbow", mkMove "elbow" "moves.elbow" "elbow" "rear"
      ["cues.elbow.raise"; "cues.elbow.slash"; "cues.elbow.point"] 400);
   ("leadLowKick", mkMove "leadLowKick" "moves.leadLowKick" "kick" "lead"
      ["cues.lowKick.step"; "cues.lowKick.shin"; "cues.lowKick.through"] 650);
   ("leadRoundhouse", mkMove "leadRoundhouse" "moves.leadRoundhouse" "kick" "lead"
      ["cues.roundhouse.pivot"; "cues.roundhouse.hips"; "cues.roundhouse.shin"] 700);
   ("leadKnee", mkMove "leadKnee" "moves.leadKnee" "knee" "lead"
      ["cues.knee.drive"; "cues.knee.hips"; "cues.knee.pull"] 500);
   ("leadElbow", mkMove "leadElbow" "moves.leadElbow" "elbow" "lead"
      ["cues.elbow.raise"; "cues.elbow.slash"; "cues.elbow.point"] 400);
   ("rearTeep", mkMove "rearTeep" "moves.rearTeep" "kick" "rear"
      ["cues.teep.chamber"; "cues.teep.push"; "cues.teep.retract"] 600);
   ("rearHook", mkMove "rearHook" "moves.rearHook" "punch" "rear"
      ["cues.hook.elbow"; "cues.hook.rotate"; "cues.hook.compact"] 450);
   ("leadUppercut", mkMove "leadUppercut" "moves.leadUppercut" "punch" "lead"
      ["cues.uppercut.drop"; "cues.uppercut.drive"; "cues.uppercut.chin"] 450)
  ].

Definition COMBOS : list Combo :=
  [
   mkCombo "l1-jab-cross" 1 "combos.jabCross"
     ["jab"; "cross"]
     ["tips.keepGuard"; "tips.breathe"];
   mkCombo "l1-double-jab" 1 "combos.doubleJab"
     ["jab"; "jab"]
     ["tips.rhythm"; "tips.relaxed"];
   mkCombo "l1-jab-teep" 1 "combos.jabTeep"
     ["jab"; "teep"]
     ["tips.distance"; "tips.balance"];
   mkCombo "l1-cross-hook" 1 "combos.crossHook"
     ["cross"; "hook"]
     ["tips.rotation"; "tips.power"];
   mkCombo "l1-teep-teep" 1 "combos.doubleTeep"
     ["teep"; "teep"]
     ["tips.distance"; "tips.rhythm"];
   mkCombo "l1-jab-hook" 1 "combos.jabHook"
     ["jab"; "hook"]
     ["tips.angle"; "tips.relaxed"];
   mkCombo "l2-jab-cross-hook" 2 "combos.jabCrossHook"
     ["jab"; "cross"; "hook"]
     ["tips.flow"; "tips.rotation"];
   mkCombo "l2-jab-low-kick" 2 "combos.jabLowKick"
     ["jab"; "jab"; "lowKick"]
     ["tips.setup"; "tips.commitment"];
   mkCombo "l2-teep-cross" 2 "combos.teepCross"
     ["teep"; "cross"; "hook"]
     ["tips.range"; "tips.follow"];
   mkCombo "l2-jab-cross-lowkick" 2 "combos.jabCrossLowKick"
     ["jab"; "cross"; "lowKick"]
     ["tips.setup"; "tips.power"];
   mkCombo "l2-hook-cross-hook" 2 "combos.hookCrossHook"
     ["hook"; "cross"; "hook"]
     ["tips.rotation"; "tips.flow"];
   mkCombo "l2-teep-lowkick" 2 "combos.teepLowKick"
     ["teep"; "lowKick"]
     ["tips.distance"; "tips.commitment"];
   mkCombo "l3-full-combo" 3 "combos.fullCombo"
     ["jab"; "cross"; "hook"; "lowKick"]
     ["tips.chain"; "tips.power"];
   mkCombo "l3-clinch-combo" 3 "combos.clinchCombo"
     ["jab"; "cross"; "knee"; "elbow"]
     ["tips.close"; "tips.devastating"];
   mkCombo "l3-destroyer" 3 "combos.destroyer"
     ["jab"; "cross"; "hook"; "lowKick"; "knee"; "elbow"]
     ["tips.ultimate"; "tips.warrior"];
   mkCombo "l3-thai-classic" 3 "combos.thaiClassic"
     ["teep"; "jab"; "cross"; "lowKick"; "knee"]
     ["tips.authentic"; "tips.flow"];
   mkCombo "l3-boxing-kicks" 3 "combos.boxingKicks"
     ["jab"; "jab"; "cross"; "hook"; "lowKick"]
     ["tips.setup"; "tips.devastating"];
   mkCombo "l3-elbow-fury" 3 "combos.elbowFury"
     ["jab"; "cross"; "elbow"; "knee"; "elbow"]
     ["tips.close"; "tips.warrior"]
  ].

(** [MOVES[id]] for the own keys of the table; [None] is [undefined]. *)
Definition MOVES (key : string) : option Move :=
  option_map snd (find (fun entry => String.eqb (fst entry) key) MOVES_entries).

(** The keys every object literal inherits from [Object.prototype]. *)
Definition objectPrototypeKeys : list string :=
  ["constructor"; "hasOwnProperty"; "isPrototypeOf"; "propertyIsEnumerable";
   "toLocaleString"; "toString"; "valueOf"; "__proto__";
   "__defineGetter__"; "__defineSetter__"; "__lookupGetter__"; "__lookupSetter__"].

(** [MOVES[key]] as [getMoveTypesFromCombo] reads it, inherited keys
    included. *)
Definition MOVES_lookup (key : string) : Scoring.MoveLookup :=
  match MOVES key with
  | Some m => Scoring.ownEntry (type m)
  | None =>
      if existsb (String.eqb key) objectPrototypeKeys then Scoring.inheritedMember
      else Scoring.noEntry
  end.

Definition getComboById (key : string) : option Combo :=
  find (fun c => String.eqb (comboId c) key) COMBOS.

Definition getCombosByLevel (lvl : nat) : list Combo :=
  filter (fun c => (level c =? lvl)%nat) COMBOS.

Definition getMoveById (key : string) : option Move := MOVES key.

(** [arr.filter(Boolean)] on an array of moves and [undefined]s. *)
Definition filterBoolean {A : Type} (l : list (option A)) : list A :=
  flat_map (fun o => match o with Some a => [a] | None => [] end) l.

Definition getComboMoves (combo : Combo) : list Move :=
  filterBoolean (map MOVES (moveIds combo)).

Definition getComboTotalDuration (combo : Combo) : R :=
  fold_left (fun sum move => sum + duration move) (getComboMoves combo) 0.

End Combos.

(** ** lib/stickAvatarKeyframes.ts: interpolation between keyframes *)

Module Avatar.

Definition lerpPoint (a b : Point2D) (t : R) : Point2D :=
  mkPoint (px a + (px b - px a) * t) (py a + (py b - py a) * t).

Definition lerpPose (a b : AvatarPose) (t : R) : AvatarPose :=
  mkPose
    (lerpPoint (head a) (head b) t)
    (lerpPoint (leftShoulder a) (leftShoulder b) t)
    (lerpPoint (rightShoulder a) (rightShoulder b) t)
    (lerpPoint (leftElbow a) (leftElbow b) t)
    (lerpPoint (rightElbow a) (rightElbow b) t)
    (lerpPoint (leftWrist a) (leftWrist b) t)
    (lerpPoint (rightWrist a) (rightWrist b) t)
    (lerpPoint (leftHip a) (leftHip b) t)
    (lerpPoint (rightHip a) (rightHip b) t)
    (lerpPoint (leftKnee a) (leftKnee b) t)
    (lerpPoint (rightKnee a) (rightKnee b) t)
    (lerpPoint (leftAnkle a) (leftAnkle b) t)
    (lerpPoint (rightAnkle a) (rightAnkle b) t).

Definition easeInOutCubic (t : R) : R :=
  if Js.ltb t (5 / 10) then 4 * t * t * t
  else 1 - (- 2 * t + 2) ^ 3 / 2.

(** The [for] loop of [getPoseAtProgress] with its [break]: the first pair
    of neighbours whose times enclose [t]. *)
Fixpoint findSegment (keyframes : list AvatarKeyframe) (t : R)
  : option (AvatarKeyframe * AvatarKeyframe) :=
  match keyframes with
  | k0 :: rest =>
      match rest with
      | k1 :: _ =>
          if Js.leb (time k0) t && Js.geb (time k1) t then Some (k0, k1)
          else findSegment rest t
      | [] => None
      end
  | [] => None
  end.

Definition getPoseAtProgress (keyframes : list AvatarKeyframe) (progress : R)
  : AvatarPose :=
  match keyframes with
  | [] => Combos.GUARD_POSE
  | [k] => pose k
  | k0 :: _ =>
      let t := Rmax 0 (Rmin 1 progress) in
      let frames :=
        match findSegment keyframes t with
        | Some found => found
        | None => (k0, last keyframes k0)
        end in
      let prevFrame := fst frames in
      let nextFrame := snd frames in
      let keyframeDuration := time nextFrame - time prevFrame in
      if Req_dec_T keyframeDuration 0 then pose prevFrame
      else
        let localProgress := (t - time prevFrame) / keyframeDuration in
        let easedProgress := easeInOutCubic localProgress in
        lerpPose (pose prevFrame) (pose nextFrame) easedProgress
  end.

(** [mirrorPose]: the pose reflected about the vertical axis. *)
Definition mirrorPose (pose : AvatarPose) : AvatarPose :=
  mkPose
    (mkPoint (- px (head pose)) (py (head pose)))
    (mkPoint (- px (rightShoulder pose)) (py (rightShoulder pose)))
    (mkPoint (- px (leftShoulder pose)) (py (leftShoulder pose)))
    (mkPoint (- px (rightElbow pose)) (py (rightElbow pose)))
    (mkPoint (- px (leftElbow pose)) (py (leftElbow pose)))
    (mkPoint (- px (rightWrist pose)) (py (rightWrist pose)))
    (mkPoint (- px (leftWrist pose)) (py (leftWrist pose)))
    (mkPoint (- px (rightHip pose)) (py (rightHip pose)))
    (mkPoint (- px (leftHip pose)) (py (leftHip pose)))
    (mkPoint (- px (rightKnee pose)) (py (rightKnee pose)))
    (mkPoint (- px (leftKnee pose)) (py (leftKnee pose)))
    (mkPoint (- px (rightAnkle pose)) (py (rightAnkle pose)))
    (mkPoint (- px (leftAnkle pose)) (py (leftAnkle pose))).

End Avatar.

(** ** lib/settings.ts: the session history *)

Module History.

(** [SessionData] of [lib/types]; an optional field that is absent is [None]. *)
Record SessionData : Type := mkSession {
  id : string;
  comboId : string;
  timestamp : R;
  score : option SessionScore;
  driveFileId : option string;
  driveWebViewLink : option string;
  hasLocalVideo : option bool;
  isAnalyzing : option bool;
  analysisProgress : option R
}.

(** [Partial<SessionData>]: [None] for a key the object does not have. *)
Record SessionUpdates : Type := mkUpdates {
  newId : option string;
  newComboId : option string;
  newTimestamp : option R;
  newScore : option (option SessionScore);
  newDriveFileId : option (option string);
  newDriveWebViewLink : option (option string);
  newHasLocalVideo : option bool;
  newIsAnalyzing : option bool;
  newAnalysisProgress : option R
}.

(** The value of a key after a spread: that of the second operand when it
    has the key. *)
Definition orElse {A : Type} (o : option A) (a : A) : A :=
  match o with
  | Some v => v
  | None => a
  end.

(** [{ ...session, ...updates }] *)
Definition spread (session : SessionData) (updates : SessionUpdates) : SessionData :=
  mkSession
    (orElse (newId updates) (id session))
    (orElse (newComboId updates) (comboId session))
    (orElse (newTimestamp updates) (timestamp session))
    (orElse (newScore updates) (score session))
    (orElse (newDriveFileId updates) (driveFileId session))
    (orElse (newDriveWebViewLink updates) (driveWebViewLink session))
    (match newHasLocalVideo updates with Some v => Some v | None => hasLocalVideo session end)
    (match newIsAnalyzing updates with Some v => Some v | None => isAnalyzing session end)
    (match newAnalysisProgress updates with
     | Some v => Some v
     | None => analysisProgress session
     end).

(** The item stored under [HISTORY_KEY], parsed: [None] when there is no
    item.  The functions are modelled in a browser whose storage accepts
    the writes, and [JSON.parse(JSON.stringify(h))] is taken to be [h]. *)
Definition Store : Type := option (list SessionData).

Definition getHistory (store : Store) : list SessionData :=
  match store with
  | Some history => history
  | None => []
  end.

Definition addToHistory (session : SessionData) (store : Store) : Store :=
  let history := session :: getHistory store in
  let trimmed := firstn 50 history in
  Some trimmed.

Definition clearHistory (store : Store) : Store := None.

Definition deleteSession (sessionId : string) (store : Store) : Store :=
  let history := getHistory store in
  let filtered := filter (fun s => negb (String.eqb (id s) sessionId)) history in
  Some filtered.

(** [arr.findIndex(p)]; [None] is [-1]. *)
Fixpoint findIndex {A : Type} (p : A -> bool) (arr : list A) : option nat :=
  match arr with
  | [] => None
  | a :: rest => if p a then Some 0%nat else option_map S (findIndex p rest)
  end.

(** [arr[index] = v] for an index within the array. *)
Fixpoint setAt {A : Type} (index : nat) (v : A) (arr : list A) : list A :=
  match arr, index with
  | [], _ => []
  | _ :: rest, O => v :: rest
  | a :: rest, S i => a :: setAt i v rest
  end.

Definition updateSession (sessionId : string) (updates : SessionUpdates)
    (store : Store) : Store :=
  let history := getHistory store in
  match findIndex (fun s => String.eqb (id s) sessionId) history with
  | Some index =>
      match nth_error history index with
      | Some session => Some (setAt index (spread session updates) history)
      | None => store
      end
  | None => store
  end.

End History.

(** ** Reference notions and example inputs *)

(** The sum of a list of reals. *)
Definition sumR (l : list R) : R := fold_right Rplus 0 l.

(** The arithmetic mean; 0 for the empty list. *)
Definition mean (l : list R) : R :=
  match l with [] => 0 | _ => sumR l / INR (length l) end.

(** The population variance: the mean squared deviation from the mean. *)
Definition popVariance (l : list R) : R :=
  mean (map (fun v => (v - mean l) ^ 2) l).

(** The population variance of a list of positions: the mean squared
    distance from the centroid. *)
Definition positionalVariance (ps : list (R * R)) : R :=
  popVariance (map fst ps) + popVariance (map snd ps).

(** [clamp lo hi v]: [v] limited to the interval from [lo] to [hi]. *)
Definition clamp (lo hi v : R) : R := Rmin hi (Rmax lo v).


(** The indices below [n] that are multiples of [step], ascending. *)
Definition sampleIndices (n step : nat) : list nat :=
  filter (fun i => (i mod step =? 0)%nat) (seq 0 n).

(** The guard detector's per-frame score of frame [i] (0 when the read fails). *)
Definition guardScoreAt (arr : list Landmarks) (cal : option CalibrationData) (i : nat) : R :=
  match (ls <- at_ arr i ;; Metrics.isGuardUp ls cal) with
  | Ok r => Metrics.score r
  | _ => 0
  end.

(** A landmark at the origin, and a pose with all 33 points there. *)
Definition originLm : NormalizedLandmark := mkLandmark 0 0 0 None.

Definition restPose : Landmarks := repeat originLm 33.

(** [ls] with entry [i] replaced (for building example poses). *)
Fixpoint setLandmark (i : nat) (lm : NormalizedLandmark) (ls : Landmarks) : Landmarks :=
  match ls, i with
  | [], _ => []
  | _ :: rest, O => lm :: rest
  | l :: rest, S i' => l :: setLandmark i' lm rest
  end.

(** No calibration and no move types. *)
Definition noContext : Scoring.ScoringContext := Scoring.mkContext None [].

(** Five frames: in the first the hips are shifted by 0.05 and the left
    wrist is raised; the other four are at rest. *)
Definition hipShift : NormalizedLandmark := mkLandmark (5 / 100) 0 0 None.

Definition raisedWrist : NormalizedLandmark := mkLandmark 0 (- (2 / 10)) 0 None.

Definition shiftedPose : Landmarks :=
  setLandmark 15 raisedWrist (setLandmark 23 hipShift (setLandmark 24 hipShift restPose)).

Definition frames5 : list PoseFrame :=
  [mkFrame 1 shiftedPose; mkFrame 34 restPose; mkFrame 67 restPose;
   mkFrame 101 restPose; mkFrame 134 restPose].

(** Thirty-nine frames at rest. *)
Definition frames39 : list Landmarks := repeat restPose 39.



(** A state that has been holding since clock reading 1000, with ten
    samples of width 1/4. *)
Definition holdingState : Calibration.State :=
  Calibration.mkState Calibration.holding 0 front None 0 0 orthodox front false
    (repeat (1 / 4) 10) (Some 1000).

(** A pose of shoulder width 1/4, nose at height 0.3, wrists at 0.4 and 0.6. *)
Definition steadyPose : Landmarks :=
  setLandmark 0 (mkLandmark 0 (3 / 10) 0 None)
    (setLandmark 11 (mkLandmark (1 / 4) (1 / 2) 0 None)
       (setLandmark 12 (mkLandmark (1 / 2) (1 / 2) 0 None)
          (setLandmark 15 (mkLandmark 0 (4 / 10) 0 None)
             (setLandmark 16 (mkLandmark 0 (6 / 10) 0 None) restPose)))).

(** A holding state has a recorded start time. *)
Definition holdStarted (s : Calibration.State) : Prop :=
  Calibration.step s = Calibration.holding ->
  exists t0, Calibration.holdStartTime s = Some t0.

(** A tick whose detected pose, if any, has 33 points. *)
Definition wfTick (tick : option Landmarks * R) : Prop :=
  match fst tick with
  | Some lms => wfPose lms
  | None => True
  end.

(** *** Reference notions for the further properties *)

(** A landmark moved by a uniform scaling of the image plane by [k]
    followed by a shift by [(tx, ty)]; depth and visibility are kept. *)
Definition moveLandmark (k tx ty : R) (lm : NormalizedLandmark) : NormalizedLandmark :=
  mkLandmark (k * x lm + tx) (k * y lm + ty) (z lm) (visibility lm).

(** Whether the calibration handed to the guard detector says gloves. *)
Definition glovesOn (cal : option CalibrationData) : bool :=
  match cal with
  | Some c => wearingGloves c
  | None => false
  end.

(** A landmark counts as visible when its visibility is present and above 0.3. *)
Definition visibleLm (lm : NormalizedLandmark) : Prop :=
  exists v, visibility lm = Some v /\ 3 / 10 < v.

(** The landmark indices of the shoulder, elbow and wrist of one side. *)
Definition shoulderIdx (s : Side) : nat :=
  match s with left => LANDMARK_INDICES.LEFT_SHOULDER | right => LANDMARK_INDICES.RIGHT_SHOULDER end.

Definition elbowIdx (s : Side) : nat :=
  match s with left => LANDMARK_INDICES.LEFT_ELBOW | right => LANDMARK_INDICES.RIGHT_ELBOW end.

Definition wristIdx (s : Side) : nat :=
  match s with left => LANDMARK_INDICES.LEFT_WRIST | right => LANDMARK_INDICES.RIGHT_WRIST end.

(** A pose whose left arm is stretched out along a line. *)
Definition straightArmPose : Landmarks :=
  setLandmark 11 (mkLandmark 0 0 0 None)
    (setLandmark 13 (mkLandmark (1 / 10) (1 / 10) 0 None)
       (setLandmark 15 (mkLandmark (3 / 10) (3 / 10) 0 None) restPose)).

(** A calibration that says gloves are worn. *)
Definition glovesCalibration : CalibrationData :=
  mkCalibration 1 0 front orthodox true 0 0 (mkFraming true true false 80).

(** A pose whose left wrist is up, 0.12 above the optimal height. *)
Definition nearChinPose : Landmarks :=
  setLandmark 15 (mkLandmark 0 (- (17 / 100)) 0 None) restPose.

(** A pose whose head and hips are clearly visible and whose ankles are
    out of the picture. *)
Definition upperBodyPose : Landmarks :=
  setLandmark 0 (mkLandmark 0 0 0 (Some (9 / 10)))
    (setLandmark 23 (mkLandmark 0 0 0 (Some (9 / 10)))
       (setLandmark 24 (mkLandmark 0 0 0 (Some (8 / 10))) restPose)).

(** Whether a per-side detector fires for the left or the right side of a
    frame ([false] when a read fails). *)
Definition firesOn (detect : Landmarks -> Side -> Outcome (bool * R)) (ls : Landmarks) : bool :=
  match detect ls left, detect ls right with
  | Ok l, Ok r => fst l || fst r
  | _, _ => false
  end.

(** The fraction of frames on which the detector fires. *)
Definition firingRatio (detect : Landmarks -> Side -> Outcome (bool * R))
    (arr : list Landmarks) : R :=
  INR (length (filter (firesOn detect) arr)) / INR (length arr).

(** The credit of the punch check and of the kick-or-knee check. *)
Definition punchCredit (ratio : R) : R :=
  if Js.gtb ratio (1 / 10) && Js.ltb ratio (5 / 10) then 20
  else if Js.gtb ratio (5 / 100) then 10 else 0.

Definition kneeCredit (ratio : R) : R :=
  if Js.gtb ratio (5 / 100) && Js.ltb ratio (4 / 10) then 20
  else if Js.gtb ratio (2 / 100) then 10 else 0.

(** The members of an array of strings and [undefined]s that are strings. *)
Definition definedTypes (types : list (option string)) : list string :=
  flat_map (fun t => match t with Some u => [u] | None => [] end) types.

(** The move types handed to the scoring engine for a combo: the strings of
    the call [getMoveTypesFromCombo(combo.moveIds, MOVES)] of the practice
    and review phases (the engine only asks whether given strings are
    included). *)
Definition comboMoveTypes (c : Combos.Combo) : list string :=
  definedTypes (Scoring.getMoveTypesFromCombo (Combos.moveIds c) Combos.MOVES_lookup).

(** A call of one of the functions that write the session history. *)
Inductive HistoryCall : Type :=
| CallAdd (session : History.SessionData)
| CallDelete (sessionId : string)
| CallUpdate (sessionId : string) (updates : History.SessionUpdates)
| CallClear.

Definition perform (store : History.Store) (call : HistoryCall) : History.Store :=
  match call with
  | CallAdd session => History.addToHistory session store
  | CallDelete sessionId => History.deleteSession sessionId store
  | CallUpdate sessionId updates => History.updateSession sessionId updates store
  | CallClear => History.clearHistory store
  end.

(** The values a confirmation hands over. *)
Definition selection (s : Calibration.State) : R * R * ViewAngle * Stance * bool :=
  (Calibration.baselineScale s, Calibration.baselineGuardHeight s,
   Calibration.viewAngle s, Calibration.stance s, Calibration.wearingGloves s).

(** The number of ticks on which a pose was detected. *)
Definition detectedTicks (ticks : list (option Landmarks * R)) : nat :=
  length (filter (fun tick => match fst tick with Some _ => true | None => false end) ticks).

(** Keyframes in strictly increasing order of time. *)
Definition increasingTimes (keyframes : list AvatarKeyframe) : Prop :=
  StronglySorted (fun a b => time a < time b) keyframes.

(** [a] and [b] are neighbours in [keyframes], [a] first. *)
Definition neighbours (keyframes : list AvatarKeyframe) (a b : AvatarKeyframe) : Prop :=
  exists before after, keyframes = before ++ a :: b :: after.

(** *** Reference notions for the calibration cycle over binary64 *)

(** The last [n] entries of a list (all of it when it has at most [n]). *)
Definition lastN {A : Type} (n : nat) (l : list A) : list A :=
  skipn (length l - n) l.

Definition originLm64 : Binary64.NormalizedLandmark :=
  Binary64.mkLandmark 0 0 0 None.

(** The distance between landmarks 11 and 12 of a frame, in binary64: the
    rounded square root of the rounded sum of the rounded squares of the
    rounded coordinate differences. *)
Definition shoulderWidthOf (lms : Binary64.Landmarks) : PrimFloat.float :=
  let l := nth 11 lms originLm64 in
  let r := nth 12 lms originLm64 in
  PrimFloat.sqrt
    ((Binary64.x r - Binary64.x l) * (Binary64.x r - Binary64.x l)
     + (Binary64.y r - Binary64.y l) * (Binary64.y r - Binary64.y l)).

(** The shoulder widths of the ticks on which a pose was detected, oldest
    first. *)
Definition measuredWidths (ticks : list (option Binary64.Landmarks * PrimFloat.float))
  : list PrimFloat.float :=
  flat_map (fun tick => match fst tick with
                        | Some lms => [shoulderWidthOf lms]
                        | None => []
                        end) ticks.

(** The mean as binary64 computes it: the samples added one by one to 0,
    oldest first, each sum rounded, and the total divided by their number. *)
Definition roundedMean (samples : list PrimFloat.float) : PrimFloat.float :=
  (fold_left PrimFloat.add samples 0
   / PrimFloat.of_uint63 (Uint63.of_Z (Z.of_nat (length samples))))%float.

(** A frame with the left shoulder at the origin and the right shoulder at
    [(w, 0)], the nose at height [n] and the wrists at heights [l] and [r]. *)
Definition widthPose (w n l r : PrimFloat.float) : Binary64.Landmarks :=
  map (fun i =>
         if (i =? 0)%nat then Binary64.mkLandmark 0 n 0 None
         else if (i =? 12)%nat then Binary64.mkLandmark w 0 0 None
         else if (i =? 15)%nat then Binary64.mkLandmark 0 l 0 None
         else if (i =? 16)%nat then Binary64.mkLandmark 0 r 0 None
         else originLm64)
    (seq 0 33).

(** Ten ticks, 100 ms apart from clock reading 0, on the frame [lms]. *)
Definition tenTicks (lms : Binary64.Landmarks)
  : list (option Binary64.Landmarks * PrimFloat.float) :=
  map (fun t => (Some lms, t))
    [0; 100; 200; 300; 400; 500; 600; 700; 800; 900]%float.

(** Frames of shoulder width 1/4 and 1/10, nose at height 0.25, wrists at
    0.5 and 0.75. *)
Definition quarterPose : Binary64.Landmarks := widthPose 0.25 0.25 0.5 0.75.

Definition tenthPose : Binary64.Landmarks := widthPose 0.1 0.25 0.5 0.75.

(** ** Facts *)

(** *** Reads, sums, means and the stability primitive *)

Lemma at_wf (ls : Landmarks) (i : nat) :
  wfPose ls -> (i < 33)%nat -> exists a, at_ ls i = Ok a.
Proof.
  unfold wfPose, at_. intros Hlen Hi.
  destruct (nth_error ls i) eqn:E; [eauto|].
  apply nth_error_None in E. lia.
Qed.

Lemma fold_left_plus {A : Type} (g : A -> R) (l : list A) (a : R) :
  fold_left (fun s v => s + g v) l a = a + sumR (map g l).
Proof.
  revert a. induction l as [|v l IH]; intros a; simpl.
  - lra.
  - rewrite IH. lra.
Qed.

Lemma fold_left_plus2 {A : Type} (g h : A -> R) (l : list A) (a : R) :
  fold_left (fun s v => s + g v + h v) l a = a + sumR (map g l) + sumR (map h l).
Proof.
  revert a. induction l as [|v l IH]; intros a; simpl.
  - lra.
  - rewrite IH. lra.
Qed.

Lemma Js_sum_sumR (l : list R) : Js.sum l = sumR l.
Proof.
  unfold Js.sum.
  change (fold_left Rplus l 0) with (fold_left (fun s v => s + (fun u => u) v) l 0).
  rewrite fold_left_plus, map_id. lra.
Qed.

Lemma mapM_length {A B : Type} (f : A -> Outcome B) (l : list A) (bs : list B) :
  Metrics.mapM f l = Ok bs -> length bs = length l.
Proof.
  revert bs. induction l as [|a l IH]; intros bs H; simpl in H.
  - injection H as <-. reflexivity.
  - destruct (f a) as [b| |]; simpl in H; try discriminate.
    destruct (Metrics.mapM f l) as [bs'| |]; simpl in H; try discriminate.
    injection H as <-. simpl. f_equal. now apply IH.
Qed.

Lemma mapM_total {A B : Type} (f : A -> Outcome B) (P : A -> Prop) (l : list A) :
  (forall a, P a -> exists b, f a = Ok b) ->
  Forall P l -> exists bs, Metrics.mapM f l = Ok bs.
Proof.
  intros Hf H. induction H as [|a l Ha _ [bs IH]]; simpl.
  - eauto.
  - destruct (Hf a Ha) as [b ->]. rewrite IH. simpl. eauto.
Qed.

Lemma hipCenter_total (ls : Landmarks) :
  wfPose ls -> exists p, Metrics.hipCenter ls = Ok p.
Proof.
  intros Hwf. unfold Metrics.hipCenter.
  destruct (at_wf ls LANDMARK_INDICES.LEFT_HIP Hwf) as [lh ->]; [unfold LANDMARK_INDICES.LEFT_HIP; lia|].
  destruct (at_wf ls LANDMARK_INDICES.RIGHT_HIP Hwf) as [rh ->]; [unfold LANDMARK_INDICES.RIGHT_HIP; lia|].
  simpl. eauto.
Qed.

Lemma mean_map_fst_snd (ps : list (R * R)) :
  ps <> [] ->
  fold_left (fun sum p => sum + fst p) ps 0 / INR (length ps) = mean (map fst ps)
  /\ fold_left (fun sum p => sum + snd p) ps 0 / INR (length ps) = mean (map snd ps).
Proof.
  intros Hne. rewrite !fold_left_plus. unfold mean.
  split.
  - rewrite <- (length_map fst ps).
    destruct ps as [|p ps]; [congruence|]. cbn [map]. f_equal. lra.
  - rewrite <- (length_map snd ps).
    destruct ps as [|p ps]; [congruence|]. cbn [map]. f_equal. lra.
Qed.

Lemma hipVariance_spec (ps : list (R * R)) :
  ps <> [] -> Metrics.hipVariance ps = positionalVariance ps.
Proof.
  intros Hne. unfold Metrics.hipVariance. cbv zeta.
  destruct (mean_map_fst_snd ps Hne) as [-> ->].
  rewrite fold_left_plus2.
  unfold positionalVariance, popVariance, mean, Js.pow2.
  destruct ps as [|p ps]; [congruence|].
  cbn [map length]. rewrite !length_map, !map_map.
  set (n := INR (S (length ps))).
  assert (Hn : n <> 0).
  { unfold n. apply not_0_INR. lia. }
  cbn [sumR fold_right]. field. exact Hn.
Qed.

Lemma positionalVariance_small (ps : list (R * R)) :
  (length ps < 2)%nat -> positionalVariance ps = 0.
Proof.
  destruct ps as [|p [|q ps]]; simpl; try lia; intros _;
    unfold positionalVariance, popVariance, mean; simpl.
  - lra.
  - field.
Qed.

Lemma clamp_full : clamp 0 100 (100 - 0 * 5000) = 100.
Proof.
  unfold clamp. rewrite Rmax_right by lra. rewrite Rmin_left; lra.
Qed.

Lemma calculateStability_formula (fs : list Landmarks) (hips : list (R * R)) :
  Metrics.mapM Metrics.hipCenter fs = Ok hips ->
  Metrics.calculateStability fs
  = Ok (clamp 0 100 (100 - positionalVariance hips * 5000)).
Proof.
  intros Hm. pose proof (mapM_length _ _ _ Hm) as Hlen.
  unfold Metrics.calculateStability.
  destruct (length fs <? 2)%nat eqn:E.
  - apply Nat.ltb_lt in E.
    rewrite positionalVariance_small by lia. now rewrite clamp_full.
  - apply Nat.ltb_ge in E. rewrite Hm. simpl.
    rewrite hipVariance_spec; [reflexivity|].
    intros ->. simpl in Hlen. lia.
Qed.



Lemma clamp_range (v : R) : 0 <= clamp 0 100 v <= 100.
Proof.
  unfold clamp. split.
  - apply Rmin_glb; [lra | apply Rmax_l].
  - apply Rmin_l.
Qed.

(** *** Angles *)

Lemma atan_nonpos u : u <= 0 -> atan u <= 0.
Proof.
  intros [Hlt | Heq].
  - apply Rlt_le. rewrite <- atan_0. now apply atan_increasing.
  - subst u. rewrite atan_0. lra.
Qed.

Lemma atan_pos u : 0 < u -> 0 < atan u.
Proof. intros H. rewrite <- atan_0. now apply atan_increasing. Qed.

Lemma atan2_bound yy xx : - PI <= Js.atan2 yy xx <= PI.
Proof.
  pose proof PI_RGT_0 as HPI.
  unfold Js.atan2.
  destruct (Rlt_dec 0 xx) as [Hx | Hx].
  - pose proof (atan_bound (yy / xx)). lra.
  - destruct (Rlt_dec xx 0) as [Hx' | Hx'].
    + pose proof (atan_bound (yy / xx)) as Hb.
      assert (Hinv : / xx < 0) by now apply Rinv_lt_0_compat.
      destruct (Rle_dec 0 yy) as [Hy | Hy].
      * assert (yy / xx <= 0) by (unfold Rdiv; nra).
        pose proof (atan_nonpos _ H). lra.
      * assert (0 < yy / xx) by (unfold Rdiv; nra).
        pose proof (atan_pos _ H). lra.
    + destruct (Rlt_dec 0 yy); [lra|]. destruct (Rlt_dec yy 0); lra.
Qed.

Lemma degrees_bound r : - (2 * PI) <= r <= 2 * PI -> Rabs (r * 180 / PI) <= 360.
Proof.
  intros Hr. pose proof PI_RGT_0 as HPI.
  assert (Hv : r * 180 / PI * PI = r * 180) by (field; lra).
  apply Rabs_le. split.
  - apply Rmult_le_reg_r with PI; [lra|]. rewrite Hv. nra.
  - apply Rmult_le_reg_r with PI; [lra|]. rewrite Hv. nra.
Qed.

(** [C7] [calculateAngle a b c] lies in [0, 180] and does not change when
    [a] and [c] are swapped. *)
Theorem calculateAngle_range_sym (a b c : NormalizedLandmark) :
  0 <= Metrics.calculateAngle a b c <= 180
  /\ Metrics.calculateAngle a b c = Metrics.calculateAngle c b a.
Proof.
  split.
  - unfold Metrics.calculateAngle.
    set (tc := Js.atan2 (y c - y b) (x c - x b)).
    set (ta := Js.atan2 (y a - y b) (x a - x b)).
    pose proof (atan2_bound (y c - y b) (x c - x b)) as Hc.
    pose proof (atan2_bound (y a - y b) (x a - x b)) as Ha.
    fold tc in Hc. fold ta in Ha.
    assert (Hd : Rabs ((tc - ta) * 180 / PI) <= 360) by (apply degrees_bound; lra).
    pose proof (Rabs_pos ((tc - ta) * 180 / PI)) as Hp.
    cbv zeta. unfold Js.gtb, Js.ltb.
    destruct (Rlt_dec 180 (Rabs ((tc - ta) * 180 / PI))); lra.
  - unfold Metrics.calculateAngle.
    set (tc := Js.atan2 (y c - y b) (x c - x b)).
    set (ta := Js.atan2 (y a - y b) (x a - x b)).
    replace ((ta - tc) * 180 / PI) with (- ((tc - ta) * 180 / PI)) by (unfold Rdiv; ring).
    rewrite Rabs_Ropp. reflexivity.
Qed.

(** *** The guard detector and the sampling loop *)

Ltac case_ifs :=
  repeat match goal with
         | |- context [if ?b then _ else _] => destruct b
         end.

Lemma isGuardUp_total (ls : Landmarks) (cal : option CalibrationData) :
  wfPose ls ->
  exists r, Metrics.isGuardUp ls cal = Ok r /\ 0 <= Metrics.score r <= 100.
Proof.
  intros Hwf. unfold Metrics.isGuardUp.
  destruct (at_wf ls LANDMARK_INDICES.NOSE Hwf) as [nose ->]; [unfold LANDMARK_INDICES.NOSE; lia|].
  destruct (at_wf ls LANDMARK_INDICES.LEFT_WRIST Hwf) as [lw ->]; [unfold LANDMARK_INDICES.LEFT_WRIST; lia|].
  destruct (at_wf ls LANDMARK_INDICES.RIGHT_WRIST Hwf) as [rw ->]; [unfold LANDMARK_INDICES.RIGHT_WRIST; lia|].
  destruct (at_wf ls LANDMARK_INDICES.LEFT_SHOULDER Hwf) as [lsh ->]; [unfold LANDMARK_INDICES.LEFT_SHOULDER; lia|].
  destruct (at_wf ls LANDMARK_INDICES.RIGHT_SHOULDER Hwf) as [rsh ->]; [unfold LANDMARK_INDICES.RIGHT_SHOULDER; lia|].
  cbn [bind]. eexists. split; [reflexivity|]. cbn [Metrics.score].
  case_ifs; cbn [andb]; unfold Rmin; case_ifs; lra.
Qed.

Lemma filter_none {A : Type} (P : A -> bool) (l : list A) :
  (forall a, In a l -> P a = false) -> filter P l = [].
Proof.
  induction l as [|a l IH]; intros H; simpl; [reflexivity|].
  rewrite (H a) by (now left). apply IH. intros b Hb. apply H. now right.
Qed.

Lemma filter_seq_skip (P : nat -> bool) (a b c : nat) :
  (a <= c)%nat ->
  (forall e, (a <= e < c)%nat -> P e = false) ->
  filter P (seq a (b - a)) = filter P (seq c (b - c)).
Proof.
  intros Hac Hno.
  destruct (Nat.le_gt_cases b c) as [Hbc | Hbc].
  - replace (b - c)%nat with 0%nat by lia. simpl.
    apply filter_none. intros e He. apply in_seq in He. apply Hno. lia.
  - replace (b - a)%nat with ((c - a) + (b - c))%nat by lia.
    rewrite seq_app, filter_app.
    replace (a + (c - a))%nat with c by lia.
    rewrite filter_none; [reflexivity|].
    intros e He. apply in_seq in He. apply Hno. lia.
Qed.

Lemma multiple_gap (step i e : nat) :
  (0 < step)%nat -> (i mod step = 0)%nat -> (i < e < i + step)%nat ->
  (e mod step =? 0)%nat = false.
Proof.
  intros Hs Hi He. apply Nat.eqb_neq. intros Hz.
  pose proof (Nat.div_mod_eq i step) as E1.
  pose proof (Nat.div_mod_eq e step) as E2.
  rewrite Hi in E1. rewrite Hz in E2.
  set (q1 := (i / step)%nat) in *. set (q2 := (e / step)%nat) in *.
  assert (q1 < q2)%nat by nia.
  assert (q2 < q1 + 1)%nat by nia.
  lia.
Qed.

Lemma sample_unfold (step n i : nat) :
  (0 < step)%nat -> (i mod step = 0)%nat -> (i < n)%nat ->
  filter (fun e => (e mod step =? 0)%nat) (seq i (n - i))
  = i :: filter (fun e => (e mod step =? 0)%nat) (seq (i + step) (n - (i + step))).
Proof.
  intros Hs Hi Hin.
  replace (n - i)%nat with (S (n - S i)) by lia.
  cbn [seq filter]. rewrite Hi. cbn [Nat.eqb]. f_equal.
  apply filter_seq_skip; [lia|].
  intros e He. apply multiple_gap with i; [assumption | assumption | lia].
Qed.

Lemma at_fuel {A : Type} (arr : list A) (i : nat) : at_ arr i <> NoFuel.
Proof. unfold at_. destruct (nth_error arr i); discriminate. Qed.

Lemma bind_fuel {A B : Type} (m : Outcome A) (f : A -> Outcome B) :
  m <> NoFuel -> (forall a, f a <> NoFuel) -> bind m f <> NoFuel.
Proof. intros Hm Hf. destruct m; simpl; [apply Hf | discriminate | congruence]. Qed.

Lemma isGuardUp_fuel (ls : Landmarks) (cal : option CalibrationData) :
  Metrics.isGuardUp ls cal <> NoFuel.
Proof.
  unfold Metrics.isGuardUp.
  repeat (apply bind_fuel; [apply at_fuel | intros ?]).
  discriminate.
Qed.

Section GuardLoop.

Variables (arr : list Landmarks) (cal : option CalibrationData) (step : nat).
Hypothesis step_pos : (0 < step)%nat.

(** The fuel given to the sampling loop is enough on every input: with a
    positive step the loop ends within [length arr - i] rounds. *)
Lemma guardLoop_fuel (fuel i : nat) (total : R) (samples : nat) :
  (length arr - i <= fuel)%nat ->
  Scoring.guardLoop fuel arr cal step i total samples <> NoFuel.
Proof.
  revert i total samples.
  induction fuel as [|fuel' IH]; intros i total samples Hf;
    cbn [Scoring.guardLoop]; destruct (i <? length arr)%nat eqn:E;
    try discriminate.
  - apply Nat.ltb_lt in E. lia.
  - apply Nat.ltb_lt in E.
    apply bind_fuel; [apply at_fuel | intros ls].
    apply bind_fuel; [apply isGuardUp_fuel | intros r].
    apply IH. lia.
Qed.

Hypothesis arr_wf : Forall wfPose arr.

(** On 33-point frames the loop visits the multiples of [step] from [i] on,
    adding their scores and counting them. *)
Lemma guardLoop_spec (fuel i : nat) (total : R) (samples : nat) :
  (length arr - i <= fuel)%nat -> (i mod step = 0)%nat ->
  let idx := filter (fun e => (e mod step =? 0)%nat) (seq i (length arr - i)) in
  Scoring.guardLoop fuel arr cal step i total samples
  = Ok (total + sumR (map (guardScoreAt arr cal) idx), (samples + length idx)%nat).
Proof.
  revert i total samples.
  induction fuel as [|fuel' IH]; intros i total samples Hf Hi idx.
  - assert (E : (i <? length arr)%nat = false) by (apply Nat.ltb_ge; lia).
    simpl. rewrite E. subst idx. replace (length arr - i)%nat with 0%nat by lia.
    simpl. f_equal. f_equal; [lra | lia].
  - cbn [Scoring.guardLoop].
    destruct (i <? length arr)%nat eqn:E.
    + apply Nat.ltb_lt in E.
      subst idx. rewrite sample_unfold by assumption.
      cbn [map sumR fold_right length].
      unfold guardScoreAt at 1.
      unfold at_ at 1 2. destruct (nth_error arr i) as [ls|] eqn:En.
      2:{ apply nth_error_None in En. lia. }
      assert (Hls : wfPose ls).
      { rewrite Forall_forall in arr_wf. apply arr_wf. eapply nth_error_In; eauto. }
      destruct (isGuardUp_total ls cal Hls) as [r [Hr _]].
      cbn [bind]. rewrite Hr. cbn [bind].
      rewrite IH.
      * f_equal. f_equal; [unfold sumR; lra | lia].
      * lia.
      * replace (i + step)%nat with (i + 1 * step)%nat by lia.
        rewrite Nat.Div0.mod_add. exact Hi.
    + apply Nat.ltb_ge in E. subst idx.
      replace (length arr - i)%nat with 0%nat by lia.
      simpl. f_equal. f_equal; [lra | lia].
Qed.

End GuardLoop.

Lemma guardStep_pos (n : nat) : (0 < n)%nat -> (0 < Scoring.guardStep n)%nat.
Proof.
  intros Hn. unfold Scoring.guardStep. cbv zeta.
  apply Nat.div_str_pos. lia.
Qed.

Lemma calculateGuardScore_fuel (arr : list Landmarks) (cal : option CalibrationData) :
  Scoring.calculateGuardScore arr cal <> NoFuel.
Proof.
  unfold Scoring.calculateGuardScore.
  destruct (length arr =? 0)%nat eqn:E; [discriminate|].
  apply Nat.eqb_neq in E. cbv zeta.
  apply bind_fuel; [|discriminate].
  apply guardLoop_fuel; [apply guardStep_pos|]; lia.
Qed.

Lemma guardStep_cases (n : nat) :
  (0 < n)%nat ->
  Scoring.guardStep n = if (n <? 20)%nat then 1%nat else (n / 20)%nat.
Proof.
  intros Hn. unfold Scoring.guardStep. cbv zeta.
  destruct (n <? 20)%nat eqn:E.
  - apply Nat.ltb_lt in E. rewrite Nat.min_r by lia. apply Nat.div_same. lia.
  - apply Nat.ltb_ge in E. rewrite Nat.min_l by lia. reflexivity.
Qed.

Lemma guardScoreAt_range (arr : list Landmarks) (cal : option CalibrationData) (i : nat) :
  Forall wfPose arr -> 0 <= guardScoreAt arr cal i <= 100.
Proof.
  intros Hwf. unfold guardScoreAt, at_.
  destruct (nth_error arr i) as [ls|] eqn:En; cbn [bind]; [|lra].
  assert (Hls : wfPose ls).
  { rewrite Forall_forall in Hwf. apply Hwf. eapply nth_error_In; eauto. }
  destruct (isGuardUp_total ls cal Hls) as [r [-> Hr]]. exact Hr.
Qed.

Lemma sumR_bounds (l : list R) (lo hi : R) :
  Forall (fun v => lo <= v <= hi) l ->
  lo * INR (length l) <= sumR l <= hi * INR (length l).
Proof.
  induction 1 as [|v l Hv _ IH].
  - simpl. lra.
  - cbn [sumR fold_right]. fold (sumR l). rewrite length_cons, S_INR. lra.
Qed.

Lemma mean_bounds (l : list R) (lo hi : R) :
  l <> [] -> Forall (fun v => lo <= v <= hi) l -> lo <= mean l <= hi.
Proof.
  intros Hne Hl. pose proof (sumR_bounds l lo hi Hl) as Hs.
  unfold mean. destruct l as [|v l]; [congruence|].
  set (s := sumR (v :: l)) in *. set (n := INR (length (v :: l))) in *.
  assert (Hn : 0 < n) by (unfold n; apply lt_0_INR; simpl; lia).
  split.
  - apply Rmult_le_reg_r with n; [assumption|].
    replace (s / n * n) with s by (field; lra). lra.
  - apply Rmult_le_reg_r with n; [assumption|].
    replace (s / n * n) with s by (field; lra). lra.
Qed.

(** *** The four subscores return, within their ranges *)

Ltac read_landmarks Hwf :=
  repeat match goal with
         | |- context [at_ ?ls ?i] =>
             let lm := fresh "lm" in
             destruct (at_wf ls i Hwf) as [lm ->]; [cbv; lia|]; cbn [bind]
         end.

Lemma bind_ok {A B : Type} (m : Outcome A) (f : A -> Outcome B) (b : B) :
  bind m f = Ok b -> exists a, m = Ok a /\ f a = Ok b.
Proof. destruct m; simpl; intros H; try discriminate; eauto. Qed.

Lemma Forall_nth_error {A : Type} (P : A -> Prop) (l : list A) (i : nat) (a : A) :
  Forall P l -> nth_error l i = Some a -> P a.
Proof.
  intros H E. rewrite Forall_forall in H. apply H. eapply nth_error_In; eauto.
Qed.

Lemma calculateGuardScore_spec (arr : list Landmarks) (cal : option CalibrationData) :
  arr <> [] -> Forall wfPose arr ->
  exists g,
    Scoring.calculateGuardScore arr cal = Ok g
    /\ g = mean (map (guardScoreAt arr cal)
                  (sampleIndices (length arr) (Scoring.guardStep (length arr))))
           / 100 * 25
    /\ 0 <= g <= 25.
Proof.
  intros Hne Hwf.
  assert (Hn : (0 < length arr)%nat) by (destruct arr; [congruence | simpl; lia]).
  pose proof (guardStep_pos _ Hn) as Hs.
  unfold Scoring.calculateGuardScore.
  replace (length arr =? 0)%nat with false by (symmetry; apply Nat.eqb_neq; lia).
  cbv zeta.
  rewrite (guardLoop_spec arr cal _ Hs Hwf (length arr) 0 0 0)
    by (try lia; apply Nat.Div0.mod_0_l).
  cbn [bind fst snd]. rewrite Nat.sub_0_r. fold (sampleIndices (length arr) (Scoring.guardStep (length arr))).
  set (idx := sampleIndices (length arr) (Scoring.guardStep (length arr))).
  set (m := map (guardScoreAt arr cal) idx).
  assert (Hidx : m <> []).
  { unfold m, idx, sampleIndices.
    rewrite <- (Nat.sub_0_r (length arr)) at 1.
    rewrite sample_unfold; [discriminate | assumption | apply Nat.Div0.mod_0_l | assumption]. }
  assert (Hm : Forall (fun v => 0 <= v <= 100) m).
  { unfold m. apply Forall_forall. intros v Hv. apply in_map_iff in Hv.
    destruct Hv as [i [<- _]]. now apply guardScoreAt_range. }
  pose proof (mean_bounds m 0 100 Hidx Hm) as Hb.
  assert (Hmean : (0 + sumR m) / INR (0 + length idx) = mean m).
  { unfold mean. destruct m as [|v m'] eqn:Em; [congruence|].
    rewrite <- Em. unfold m. rewrite length_map. rewrite Nat.add_0_l, Rplus_0_l. reflexivity. }
  eexists. split; [reflexivity|]. rewrite Hmean. split; [reflexivity | lra].
Qed.

Lemma calculateGuardScore_range (arr : list Landmarks) (cal : option CalibrationData) :
  Forall wfPose arr ->
  exists g, Scoring.calculateGuardScore arr cal = Ok g /\ 0 <= g <= 25.
Proof.
  intros Hwf. destruct arr as [|ls arr].
  - exists 0. split; [reflexivity | lra].
  - destruct (calculateGuardScore_spec (ls :: arr) cal) as [g [Hg [_ Hr]]];
      [discriminate | assumption | eauto].
Qed.

Lemma calculateStability_total (fs : list Landmarks) :
  Forall wfPose fs ->
  exists hips, Metrics.mapM Metrics.hipCenter fs = Ok hips.
Proof.
  intros Hwf. eapply mapM_total; [|exact Hwf]. apply hipCenter_total.
Qed.

Lemma calculateStabilityScore_spec (fs : list Landmarks) :
  Forall wfPose fs ->
  exists st sc,
    Metrics.calculateStability fs = Ok st
    /\ Scoring.calculateStabilityScore fs = Ok sc
    /\ 0 <= sc <= 20
    /\ ((5 <= length fs)%nat -> sc = st / 100 * 20).
Proof.
  intros Hwf. destruct (calculateStability_total fs Hwf) as [hips Hh].
  pose proof (calculateStability_formula fs hips Hh) as Hst.
  pose proof (clamp_range (100 - positionalVariance hips * 5000)) as Hr.
  unfold Scoring.calculateStabilityScore. rewrite Hst.
  destruct (length fs <? 5)%nat eqn:E.
  - apply Nat.ltb_lt in E. do 2 eexists. split; [reflexivity|].
    split; [reflexivity|]. split; [lra | lia].
  - do 2 eexists. split; [reflexivity|]. cbn [bind].
    split; [reflexivity|]. split; [lra | reflexivity].
Qed.

Lemma detectPunchExtension_total (ls : Landmarks) (s : Side) :
  wfPose ls -> exists r, Metrics.detectPunchExtension ls s = Ok r.
Proof.
  intros Hwf. unfold Metrics.detectPunchExtension, Metrics.getElbowAngle.
  destruct s; cbv zeta; read_landmarks Hwf; eauto.
Qed.

Lemma detectKneeLift_total (ls : Landmarks) (s : Side) :
  wfPose ls -> exists r, Metrics.detectKneeLift ls s = Ok r.
Proof.
  intros Hwf. unfold Metrics.detectKneeLift.
  destruct s; cbv zeta; read_landmarks Hwf; eauto.
Qed.

Lemma countDetections_total (detect : Landmarks -> Side -> Outcome (bool * R))
    (arr : list Landmarks) :
  (forall ls s, wfPose ls -> exists r, detect ls s = Ok r) ->
  Forall wfPose arr ->
  forall count, exists n, Scoring.countDetections detect arr count = Ok n.
Proof.
  intros Hd Hwf. induction Hwf as [|ls arr Hls _ IH]; intros count; simpl.
  - eauto.
  - destruct (Hd ls left Hls) as [l ->]. destruct (Hd ls right Hls) as [r ->].
    cbn [bind]. apply IH.
Qed.




Lemma calculateExecutionScore_total (arr : list Landmarks) (mt : list string) :
  Forall wfPose arr -> exists e, Scoring.calculateExecutionScore arr mt = Ok e.
Proof.
  intros Hwf. unfold Scoring.calculateExecutionScore.
  destruct (length arr <? 5)%nat; [eauto|]. cbv zeta.
  destruct (Scoring.includes mt "punch").
  - destruct (countDetections_total _ arr detectPunchExtension_total Hwf 0%nat) as [n ->].
    cbn [bind fst snd].
    destruct (Scoring.includes mt "kick" || Scoring.includes mt "knee").
    + destruct (countDetections_total _ arr detectKneeLift_total Hwf 0%nat) as [k ->].
      cbn [bind fst snd]. case_ifs; eauto.
    + cbn [bind fst snd]. case_ifs; eauto.
  - cbn [bind fst snd].
    destruct (Scoring.includes mt "kick" || Scoring.includes mt "knee").
    + destruct (countDetections_total _ arr detectKneeLift_total Hwf 0%nat) as [k ->].
      cbn [bind fst snd]. case_ifs; eauto.
    + cbn [bind fst snd Nat.eqb]. eauto.
Qed.

Lemma movementLoop_total (prev : Landmarks) :
  forall cur j acc,
    (j + length cur <= length prev)%nat ->
    exists m, Scoring.movementLoop cur prev j acc = Ok m.
Proof.
  induction cur as [|c cur IH]; intros j acc Hlen; simpl.
  - eauto.
  - unfold at_. destruct (nth_error prev j) eqn:E.
    + cbn [bind]. apply IH. simpl in Hlen. lia.
    + apply nth_error_None in E. simpl in Hlen. lia.
Qed.

Lemma movementsLoop_total (rest : list Landmarks) :
  Forall wfPose rest ->
  forall prev acc, wfPose prev ->
    exists ms, Scoring.movementsLoop prev rest acc = Ok ms.
Proof.
  induction 1 as [|cur rest Hcur _ IH]; intros prev acc Hprev; simpl.
  - eauto.
  - destruct (movementLoop_total prev cur 0 0) as [m ->].
    { unfold wfPose in *. lia. }
    cbn [bind]. now apply IH.
Qed.

Lemma calculateTimingScore_values (arr : list Landmarks) (fs : list PoseFrame) (t : R) :
  Scoring.calculateTimingScore arr fs = Ok t -> t = 5 \/ t = 8 \/ t = 10 \/ t = 15.
Proof.
  unfold Scoring.calculateTimingScore.
  destruct (length fs <? 5)%nat.
  { intros H. injection H as <-. auto. }
  intros H. apply bind_ok in H. destruct H as [ms [_ H]]. cbv zeta in H.
  revert H. case_ifs; intros H; injection H as <-; auto.
Qed.

Lemma calculateTimingScore_total (arr : list Landmarks) (fs : list PoseFrame) :
  Forall wfPose arr -> exists t, Scoring.calculateTimingScore arr fs = Ok t.
Proof.
  intros Hwf. unfold Scoring.calculateTimingScore.
  destruct (length fs <? 5)%nat; [eauto|].
  destruct Hwf as [|first rest Hfirst Hrest].
  - cbn [bind]. cbv zeta. case_ifs; eauto.
  - destruct (movementsLoop_total rest Hrest first [] Hfirst) as [ms ->].
    cbn [bind]. cbv zeta. case_ifs; eauto.
Qed.

Lemma checkFramingQuality_total (ls : Landmarks) :
  wfPose ls -> exists f, Metrics.checkFramingQuality ls = Ok f.
Proof.
  intros Hwf. unfold Metrics.checkFramingQuality. cbv zeta.
  read_landmarks Hwf.
  repeat match goal with
         | |- context [if ?c then _ else _] => destruct c; cbn [bind]
         end; eauto.
Qed.

Lemma at_snoc {A : Type} (l : list A) (a : A) :
  at_ (l ++ [a]) (length (l ++ [a]) - 1) = Ok a.
Proof.
  unfold at_. rewrite length_app. simpl.
  replace (length l + 1 - 1)%nat with (length l) by lia.
  rewrite nth_error_app2 by lia. rewrite Nat.sub_diag. reflexivity.
Qed.

Lemma at_last_total {A : Type} (P : A -> Prop) (l : list A) :
  Forall P l -> (0 < length l)%nat ->
  exists a, at_ l (length l - 1) = Ok a /\ P a.
Proof.
  intros HP Hlen. unfold at_.
  destruct (nth_error l (length l - 1)) as [a|] eqn:E.
  - exists a. split; [reflexivity|]. eapply Forall_nth_error; eauto.
  - apply nth_error_None in E. lia.
Qed.

Lemma generateFeedback_total (scores : Scoring.Scores) (fs : list PoseFrame)
    (ctx : Scoring.ScoringContext) :
  Forall wfFrame fs -> exists fb, Scoring.generateFeedback scores fs ctx = Ok fb.
Proof.
  intros Hwf. unfold Scoring.generateFeedback. cbv zeta.
  destruct (0 <? length fs)%nat eqn:E.
  - apply Nat.ltb_lt in E.
    destruct (at_last_total _ fs Hwf E) as [f [-> Hf]]. cbn [bind].
    destruct (checkFramingQuality_total _ Hf) as [fr ->]. cbn [bind].
    destruct (Js.ltb (overallScore fr) 60); cbn [bind]; eauto.
  - cbn [bind]. eauto.
Qed.

Lemma Forall_wf_map (fs : list PoseFrame) :
  Forall wfFrame fs -> Forall wfPose (map landmarks fs).
Proof. intros H. apply Forall_map. exact H. Qed.

Lemma generateScore_total (fs : list PoseFrame) (ctx : Scoring.ScoringContext) :
  Forall wfFrame fs ->
  exists g s e t fb,
    Scoring.calculateGuardScore (map landmarks fs) (Scoring.calibration ctx) = Ok g
    /\ Scoring.calculateStabilityScore (map landmarks fs) = Ok s
    /\ Scoring.calculateExecutionScore (map landmarks fs) (Scoring.comboMoveTypes ctx) = Ok e
    /\ Scoring.calculateTimingScore (map landmarks fs) fs = Ok t
    /\ Scoring.generateFeedback (Scoring.mkScores g s e t) fs ctx = Ok fb
    /\ Scoring.generateScore fs ctx
       = Ok (mkResult (length fs)
               (match rev fs with f :: _ => timestamp f | [] => 0 end)
               (mkScore (Rmin 100 (Js.round (g + s + e + t)))
                  (Js.round g) (Js.round s) (Js.round e) (Js.round t)
                  (Scoring.strengths fb) (Scoring.improvements fb)
                  (Scoring.warnings fb))
               fs).
Proof.
  intros Hwf. pose proof (Forall_wf_map fs Hwf) as Hwf'.
  destruct (calculateGuardScore_range _ (Scoring.calibration ctx) Hwf') as [g [Hg _]].
  destruct (calculateStabilityScore_spec _ Hwf') as [st [s [_ [Hs _]]]].
  destruct (calculateExecutionScore_total _ (Scoring.comboMoveTypes ctx) Hwf') as [e He].
  destruct (calculateTimingScore_total _ fs Hwf') as [t Ht].
  destruct (generateFeedback_total (Scoring.mkScores g s e t) fs ctx Hwf) as [fb Hfb].
  exists g, s, e, t, fb. repeat (split; [assumption|]).
  unfold Scoring.generateScore.
  assert (Hd : (if (0 <? length fs)%nat
                then f <- at_ fs (length fs - 1) ;; Ok (timestamp f)
                else Ok 0)
               = Ok (match rev fs with f :: _ => timestamp f | [] => 0 end)).
  { destruct fs as [|f0 fs0] using rev_ind.
    - reflexivity.
    - rewrite rev_app_distr. cbn [rev app].
      replace (0 <? length (fs0 ++ [f0]))%nat with true
        by (symmetry; apply Nat.ltb_lt; rewrite length_app; simpl; lia).
      rewrite at_snoc. reflexivity. }
  rewrite Hd. cbn [bind]. rewrite Hg. cbn [bind]. rewrite Hs. cbn [bind].
  rewrite He. cbn [bind]. rewrite Ht. cbn [bind]. rewrite Hfb. cbn [bind].
  reflexivity.
Qed.

(** *** Rounding, and the engine on concrete inputs *)

Lemma round_eq (v : R) (k : Z) : IZR k <= v + / 2 < IZR k + 1 -> Js.round v = IZR k.
Proof. intros H. unfold Js.round. f_equal. now apply Zfloor_eq. Qed.

Lemma round_int (k : Z) : Js.round (IZR k) = IZR k.
Proof. apply round_eq. lra. Qed.


Lemma wf_restPose : wfPose restPose.
Proof. reflexivity. Qed.

Lemma generateScore_empty (ctx : Scoring.ScoringContext) :
  exists r,
    Scoring.generateScore [] ctx = Ok r
    /\ frameCount r = 0%nat /\ duration r = 0
    /\ guard (score r) = 0 /\ stability (score r) = 10
    /\ execution (score r) = 20 /\ timing (score r) = 8
    /\ overall (score r) = 38.
Proof.
  destruct (generateScore_total [] ctx (Forall_nil _))
    as [g [s [e [t [fb [Hg [Hs [He [Ht [_ Hr]]]]]]]]]].
  cbn in Hg, Hs, He, Ht.
  injection Hg as <-. injection Hs as <-. injection He as <-. injection Ht as <-.
  eexists. split; [exact Hr|]. cbn [frameCount duration score guard stability execution timing overall rev].
  repeat split; try apply (round_int 0); try apply (round_int 10);
    try apply (round_int 20); try apply (round_int 8).
  replace (0 + 10 + 20 + 8) with (IZR 38) by lra.
  rewrite round_int. unfold Rmin. destruct (Rle_dec 100 38); lra.
Qed.

Ltac js_cmp :=
  unfold Js.gtb, Js.geb; unfold Js.ltb, Js.leb, Rabs;
  repeat match goal with
         | |- context [Rcase_abs ?v] => destruct (Rcase_abs v); try lra
         | |- context [Rlt_dec ?a ?b] => destruct (Rlt_dec a b); try lra
         | |- context [Rle_dec ?a ?b] => destruct (Rle_dec a b); try lra
         end.

Lemma wf_shiftedPose : wfPose shiftedPose.
Proof. reflexivity. Qed.

Lemma wf_frames5 : Forall wfFrame frames5.
Proof. repeat constructor. Qed.


Lemma isGuardUp_shiftedPose :
  Metrics.isGuardUp shiftedPose None = Ok (Metrics.mkGuard 50 true false).
Proof.
  unfold Metrics.isGuardUp.
  change (at_ shiftedPose LANDMARK_INDICES.NOSE) with (Ok originLm).
  change (at_ shiftedPose LANDMARK_INDICES.LEFT_WRIST) with (Ok raisedWrist).
  change (at_ shiftedPose LANDMARK_INDICES.RIGHT_WRIST) with (Ok originLm).
  change (at_ shiftedPose LANDMARK_INDICES.LEFT_SHOULDER) with (Ok originLm).
  change (at_ shiftedPose LANDMARK_INDICES.RIGHT_SHOULDER) with (Ok originLm).
  cbn [bind x y originLm raisedWrist].
  assert (E1 : Js.ltb (- (2 / 10)) ((0 + 0) / 2) = true) by (js_cmp; reflexivity).
  assert (E2 : Js.ltb (- (2 / 10)) (0 + 1 / 10) = true) by (js_cmp; reflexivity).
  assert (E3 : Js.ltb (Rabs (0 - 0)) (3 / 10) = true) by (js_cmp; reflexivity).
  assert (E4 : Js.ltb 0 ((0 + 0) / 2) = false) by (js_cmp; reflexivity).
  assert (E5 : Js.ltb (Rabs (- (2 / 10) - (0 - 5 / 100))) (1 / 10) = false)
    by (js_cmp; reflexivity).
  rewrite E1, E2, E3, E4, E5. cbn [andb]. f_equal. f_equal.
  rewrite Rmin_right by lra. lra.
Qed.








(** *** Duration and feedback *)

(** [C9] For a non-empty frame list the duration is the timestamp of the
    last frame, so it differs from the time elapsed between the first and
    the last frame whenever the first timestamp is not 0; for the empty
    list the duration is 0. *)
Theorem duration_is_last_timestamp (fs : list PoseFrame) (f : PoseFrame)
    (ctx : Scoring.ScoringContext) (Hwf : Forall wfFrame (fs ++ [f])) :
  (exists r,
      Scoring.generateScore (fs ++ [f]) ctx = Ok r
      /\ duration r = timestamp f
      /\ (timestamp (hd f fs) <> 0 ->
          duration r <> timestamp f - timestamp (hd f fs)))
  /\ (exists r0, Scoring.generateScore [] ctx = Ok r0 /\ duration r0 = 0).
Proof.
  split.
  - destruct (generateScore_total (fs ++ [f]) ctx Hwf)
      as [g [s [e [t [fb [_ [_ [_ [_ [_ Hr]]]]]]]]]].
    eexists. split; [exact Hr|]. cbn [duration].
    rewrite rev_app_distr. cbn [rev app]. split; [reflexivity | lra].
  - destruct (generateScore_total [] ctx (Forall_nil _))
      as [g [s [e [t [fb [_ [_ [_ [_ [_ Hr]]]]]]]]]].
    eexists. split; [exact Hr | reflexivity].
Qed.

Lemma duration_is_last_timestamp_witness :
  Forall wfFrame ([mkFrame 500 restPose] ++ [mkFrame 900 restPose])
  /\ (exists r,
         Scoring.generateScore ([mkFrame 500 restPose] ++ [mkFrame 900 restPose]) noContext = Ok r
         /\ duration r = 900
         /\ (500 <> 0 -> duration r <> 900 - 500)).
Proof.
  split.
  - repeat constructor.
  - apply (proj1 (duration_is_last_timestamp [mkFrame 500 restPose]
                    (mkFrame 900 restPose) noContext
                    ltac:(repeat constructor))).
Defined.







(** *** The stability and guard subscores *)




(** [C3], amended: for a non-empty list of [n] frames the guard subscore
    samples the frames at the multiples of [step = floor(n / min(20, n))]
    below [n] (so [step] is [floor(n / 20)] from 20 frames on and 1 below),
    averages the guard detector's per-frame score over them and scales the
    average by [/ 100 * 25]; the result lies in [0, 25]. *)
Theorem guard_subscore_sampling (arr : list Landmarks) (cal : option CalibrationData)
    (Hne : arr <> []) (Hwf : Forall wfPose arr) :
  let n := length arr in
  let step := Scoring.guardStep n in
  step = (n / Nat.min 20 n)%nat
  /\ step = (if (n <? 20)%nat then 1%nat else (n / 20)%nat)
  /\ exists g,
      Scoring.calculateGuardScore arr cal = Ok g
      /\ g = mean (map (guardScoreAt arr cal) (sampleIndices n step)) / 100 * 25
      /\ 0 <= g <= 25.
Proof.
  intros n step. split; [reflexivity|]. split.
  - apply guardStep_cases. unfold n. destruct arr; [congruence | simpl; lia].
  - now apply calculateGuardScore_spec.
Qed.

Lemma guard_subscore_sampling_witness :
  map landmarks frames5 <> []
  /\ Forall wfPose (map landmarks frames5)
  /\ exists g,
      Scoring.calculateGuardScore (map landmarks frames5) None = Ok g
      /\ g = mean (map (guardScoreAt (map landmarks frames5) None)
                    (sampleIndices 5 (Scoring.guardStep 5))) / 100 * 25
      /\ 0 <= g <= 25.
Proof.
  split; [discriminate|]. split; [repeat constructor|].
  apply (guard_subscore_sampling (map landmarks frames5) None
           ltac:(discriminate) ltac:(repeat constructor)).
Defined.

Lemma wf_frames39 : Forall wfPose frames39.
Proof. apply Forall_forall. intros ls Hls. apply repeat_spec in Hls. now subst ls. Qed.

(** [C3] as stated fails: for 5 frames the step is 1, not
    [floor(5 / 20) = 0], and for 39 frames the loop takes 39 samples, more
    than 20. *)
Lemma guard_samples_exceed_twenty :
  Scoring.guardStep 5 <> (5 / 20)%nat
  /\ exists total,
      Scoring.guardLoop (length frames39) frames39 None
        (Scoring.guardStep (length frames39)) 0 0 0 = Ok (total, 39%nat)
      /\ (20 < 39)%nat.
Proof.
  split; [discriminate|].
  assert (Hs : (0 < Scoring.guardStep (length frames39))%nat) by (cbv; lia).
  pose proof (guardLoop_spec frames39 None _ Hs wf_frames39 (length frames39) 0 0 0
                ltac:(lia) ltac:(reflexivity)) as H.
  cbv zeta in H. eexists. split; [exact H | lia].
Qed.

(** *** The empty attempt *)

(** [C1], amended: for the empty frame list [generateScore] returns
    without error, with frame count 0, duration 0, guard 0, stability 10,
    execution 20, timing 8 and overall 38. *)
Theorem generateScore_empty_defaults (ctx : Scoring.ScoringContext) :
  exists r,
    Scoring.generateScore [] ctx = Ok r
    /\ frameCount r = 0%nat /\ duration r = 0
    /\ guard (score r) = 0 /\ stability (score r) = 10
    /\ execution (score r) = 20 /\ timing (score r) = 8
    /\ overall (score r) = 38.
Proof. apply generateScore_empty. Qed.

(** [C1] as stated fails: for the empty frame list the guard subscore is 0
    and overall is 38, more than 26 points away from 65. *)
Lemma generateScore_empty_not_65 :
  exists r,
    Scoring.generateScore [] noContext = Ok r
    /\ guard (score r) = 0
    /\ overall (score r) = 38
    /\ 26 < Rabs (overall (score r) - 65).
Proof.
  destruct (generateScore_empty noContext) as [r [Hr [_ [_ [Hg [_ [_ [_ Ho]]]]]]]].
  exists r. split; [exact Hr|]. split; [exact Hg|]. split; [exact Ho|].
  rewrite Ho. rewrite Rabs_left; lra.
Qed.

(** *** The view-angle estimator on a torso of length zero *)

Lemma orZero_id (v : R) : Js.orZero v = v.
Proof. unfold Js.orZero. destruct (Req_dec_T v 0); congruence. Qed.

Lemma getShoulderWidth_total (ls : Landmarks) :
  wfPose ls ->
  exists l r,
    at_ ls LANDMARK_INDICES.LEFT_SHOULDER = Ok l
    /\ at_ ls LANDMARK_INDICES.RIGHT_SHOULDER = Ok r
    /\ Metrics.getShoulderWidth ls = Ok (Metrics.calculateDistance l r).
Proof.
  intros Hwf. unfold Metrics.getShoulderWidth.
  destruct (at_wf ls LANDMARK_INDICES.LEFT_SHOULDER Hwf) as [l Hl]; [cbv; lia|].
  destruct (at_wf ls LANDMARK_INDICES.RIGHT_SHOULDER Hwf) as [r Hr]; [cbv; lia|].
  exists l, r. rewrite Hl, Hr. auto.
Qed.













(** *** One tick of the calibration cycle *)

Lemma ltb_true_iff (a b : R) : Js.ltb a b = true <-> a < b.
Proof. unfold Js.ltb. destruct (Rlt_dec a b); split; intros; try discriminate; tauto. Qed.

Lemma ltb_false_iff (a b : R) : Js.ltb a b = false <-> b <= a.
Proof.
  unfold Js.ltb. destruct (Rlt_dec a b); split; intros;
    try discriminate; try reflexivity; lra.
Qed.

Lemma geb_true_iff (a b : R) : Js.geb a b = true <-> b <= a.
Proof.
  unfold Js.geb, Js.leb. destruct (Rle_dec b a); split; intros; try discriminate; tauto.
Qed.

Lemma geb_false_iff (a b : R) : Js.geb a b = false <-> a < b.
Proof.
  unfold Js.geb, Js.leb. destruct (Rle_dec b a); split; intros;
    try discriminate; try reflexivity; lra.
Qed.

Lemma estimateViewAngle_total (ls : Landmarks) :
  wfPose ls -> exists a, Metrics.estimateViewAngle ls = Ok a.
Proof.
  intros Hwf. unfold Metrics.estimateViewAngle, Metrics.getShoulderWidth,
    Metrics.getTorsoLength.
  read_landmarks Hwf. case_ifs; eauto.
Qed.

(** One tick on a detected, well-formed frame: the tick completes, and the
    new state is described by the rolling buffer after the push. *)
Lemma processFrame_step (s : Calibration.State) (lms : Landmarks) (now : R) :
  wfPose lms ->
  exists s' sw nose lw rw,
    Metrics.getShoulderWidth lms = Ok sw
    /\ at_ lms 0 = Ok nose /\ at_ lms 15 = Ok lw /\ at_ lms 16 = Ok rw
    /\ Calibration.processFrame s (Some lms) now = Ok s'
    /\ Calibration.stabilityBuffer s'
       = Calibration.pushSample (Calibration.stabilityBuffer s) sw
    /\ let buf := Calibration.stabilityBuffer s' in
       let stable :=
         (10 <= length buf)%nat
         /\ Calibration.bufferVariance buf < Calibration.STABILITY_THRESHOLD in
       let unstable :=
         (10 <= length buf)%nat
         /\ Calibration.STABILITY_THRESHOLD <= Calibration.bufferVariance buf in
       let elapsed :=
         now - match Calibration.holdStartTime s with Some t => t | None => 0 end in
       match Calibration.step s with
       | Calibration.detecting =>
           (stable ->
            Calibration.step s' = Calibration.holding
            /\ Calibration.holdStartTime s' = Some now)
           /\ (~ stable -> Calibration.step s' = Calibration.detecting)
       | Calibration.holding =>
           (stable -> Calibration.HOLD_DURATION <= elapsed ->
            Calibration.step s' = Calibration.confirm
            /\ Calibration.baselineScale s' = Calibration.bufferAvg buf
            /\ Calibration.baselineGuardHeight s' = y nose - (y lw + y rw) / 2)
           /\ (stable -> elapsed < Calibration.HOLD_DURATION ->
               Calibration.step s' = Calibration.holding
               /\ Calibration.holdStartTime s' = Calibration.holdStartTime s
               /\ Calibration.baselineScale s' = Calibration.baselineScale s)
           /\ (unstable ->
               Calibration.step s' = Calibration.detecting
               /\ Calibration.holdProgress s' = 0
               /\ Calibration.holdStartTime s' = None)
           /\ (~ stable -> ~ unstable ->
               Calibration.step s' = Calibration.holding
               /\ Calibration.holdStartTime s' = Calibration.holdStartTime s)
       | Calibration.confirm => Calibration.step s' = Calibration.confirm
       end.
Proof.
  intros Hwf.
  destruct (checkFramingQuality_total lms Hwf) as [framing Hf].
  destruct (estimateViewAngle_total lms Hwf) as [angle Ha].
  destruct (getShoulderWidth_total lms Hwf) as [l [r [_ [_ Hsw]]]].
  destruct (at_wf lms 0 Hwf) as [nose Hn]; [lia|].
  destruct (at_wf lms 15 Hwf) as [lw Hlw]; [lia|].
  destruct (at_wf lms 16 Hwf) as [rw Hrw]; [lia|].
  set (sw := Metrics.calculateDistance l r) in *.
  set (buf := Calibration.pushSample (Calibration.stabilityBuffer s) sw).
  assert (Hrun :
    Calibration.processFrame s (Some lms) now
    = let s1 :=
        Calibration.mkState (Calibration.step s) (Calibration.holdProgress s)
          angle (Some framing) (Calibration.baselineScale s)
          (Calibration.baselineGuardHeight s) (Calibration.stance s)
          (Calibration.viewAngle s) (Calibration.wearingGloves s) buf
          (Calibration.holdStartTime s) in
      if (10 <=? length buf)%nat then
        match Js.ltb (Calibration.bufferVariance buf) Calibration.STABILITY_THRESHOLD,
              Calibration.step s with
        | true, Calibration.detecting =>
            Ok (Calibration.mkState Calibration.holding (Calibration.holdProgress s)
                  angle (Some framing) (Calibration.baselineScale s)
                  (Calibration.baselineGuardHeight s) (Calibration.stance s)
                  (Calibration.viewAngle s) (Calibration.wearingGloves s) buf
                  (Some now))
        | true, Calibration.holding =>
            let elapsed :=
              now - match Calibration.holdStartTime s with
                    | Some t => Js.orZero t
                    | None => 0
                    end in
            let progress := Rmin 100 (elapsed / Calibration.HOLD_DURATION * 100) in
            if Js.geb elapsed Calibration.HOLD_DURATION then
              Ok (Calibration.mkState Calibration.confirm progress angle (Some framing)
                    (Calibration.bufferAvg buf) (y nose - (y lw + y rw) / 2)
                    (Calibration.stance s) angle (Calibration.wearingGloves s)
                    buf (Calibration.holdStartTime s))
            else
              Ok (Calibration.mkState Calibration.holding progress angle (Some framing)
                    (Calibration.baselineScale s) (Calibration.baselineGuardHeight s)
                    (Calibration.stance s) (Calibration.viewAngle s)
                    (Calibration.wearingGloves s) buf (Calibration.holdStartTime s))
        | false, Calibration.holding =>
            Ok (Calibration.mkState Calibration.detecting 0 angle (Some framing)
                  (Calibration.baselineScale s) (Calibration.baselineGuardHeight s)
                  (Calibration.stance s) (Calibration.viewAngle s)
                  (Calibration.wearingGloves s) buf None)
        | _, _ => Ok s1
        end
      else Ok s1).
  { unfold Calibration.processFrame. rewrite Hf, Ha, Hsw. cbn [bind].
    fold buf. cbv zeta. cbn [Calibration.step Calibration.holdProgress
      Calibration.baselineScale Calibration.baselineGuardHeight Calibration.stance
      Calibration.viewAngle Calibration.wearingGloves].
    rewrite Hn, Hlw, Hrw. cbn [bind]. reflexivity. }
  cbv zeta in Hrun.
  assert (Hor : match Calibration.holdStartTime s with
                | Some t => Js.orZero t | None => 0 end
                = match Calibration.holdStartTime s with Some t => t | None => 0 end).
  { destruct (Calibration.holdStartTime s); [apply orZero_id | reflexivity]. }
  rewrite Hor in Hrun. clear Hor.
  destruct (10 <=? length buf)%nat eqn:Elen;
    [apply Nat.leb_le in Elen | apply Nat.leb_gt in Elen];
  destruct (Js.ltb (Calibration.bufferVariance buf) Calibration.STABILITY_THRESHOLD) eqn:Evar;
    [apply ltb_true_iff in Evar | apply ltb_false_iff in Evar
    | apply ltb_true_iff in Evar | apply ltb_false_iff in Evar];
  destruct (Calibration.step s) eqn:Estep;
  try (destruct (Js.geb (now - match Calibration.holdStartTime s with
                               | Some t => t | None => 0 end)
                   Calibration.HOLD_DURATION) eqn:Eel;
       [apply geb_true_iff in Eel | apply geb_false_iff in Eel]);
  (eexists; exists sw, nose, lw, rw;
   split; [exact Hsw|]; split; [exact Hn|]; split; [exact Hlw|]; split; [exact Hrw|];
   split; [exact Hrun|];
   cbn [Calibration.stabilityBuffer Calibration.step Calibration.holdStartTime
        Calibration.holdProgress Calibration.baselineScale
        Calibration.baselineGuardHeight];
   split; [reflexivity|]; fold buf;
   repeat split; intros; try reflexivity; try tauto; try lra; try lia).
Qed.

Lemma sumR_const (w : R) (l : list R) :
  Forall (eq w) l -> sumR l = INR (length l) * w.
Proof.
  induction 1 as [|v l Hv _ IH].
  - simpl. lra.
  - subst v. cbn [sumR fold_right]. fold (sumR l). rewrite IH, length_cons, S_INR. lra.
Qed.

Lemma bufferAvg_mean (buf : list R) :
  buf <> [] -> Calibration.bufferAvg buf = mean buf.
Proof.
  intros Hne. unfold Calibration.bufferAvg, mean. rewrite Js_sum_sumR.
  destruct buf; [congruence | reflexivity].
Qed.

Lemma mean_const (w : R) (l : list R) :
  l <> [] -> Forall (eq w) l -> mean l = w.
Proof.
  intros Hne Hc. unfold mean. destruct l as [|v l]; [congruence|].
  rewrite (sumR_const w _ Hc). field.
  apply not_0_INR. discriminate.
Qed.

Lemma bufferVariance_popVariance (buf : list R) :
  buf <> [] -> Calibration.bufferVariance buf = popVariance buf.
Proof.
  intros Hne. unfold Calibration.bufferVariance. cbv zeta.
  rewrite bufferAvg_mean by assumption.
  rewrite (fold_left_plus (fun v => Js.pow2 (v - mean buf)) buf 0).
  unfold popVariance, Js.pow2.
  set (m := mean buf). unfold mean.
  destruct buf as [|v l]; [congruence|].
  cbn [map]. rewrite <- (length_map (fun v0 => (v0 - m) ^ 2) (v :: l)).
  cbn [map]. f_equal. lra.
Qed.

Lemma popVariance_const (w : R) (l : list R) :
  Forall (eq w) l -> popVariance l = 0.
Proof.
  intros Hc. destruct l as [|v l]; [reflexivity|].
  unfold popVariance.
  rewrite (mean_const w (v :: l)) by (assumption || discriminate).
  apply mean_const; [discriminate|].
  apply Forall_map. eapply Forall_impl; [|exact Hc].
  intros a <-. ring.
Qed.

Lemma pushSample_nonempty (buf : list R) (v : R) : Calibration.pushSample buf v <> [].
Proof.
  unfold Calibration.pushSample. cbv zeta.
  destruct (30 <? length (buf ++ [v]))%nat eqn:E.
  - apply Nat.ltb_lt in E. destruct (buf ++ [v]) as [|a [|b l]]; simpl in *; try lia.
    discriminate.
  - destruct buf; discriminate.
Qed.

Lemma pushSample_length (buf : list R) (v : R) :
  (length buf <= 30)%nat ->
  length (Calibration.pushSample buf v) = Nat.min 30 (length buf + 1).
Proof.
  intros Hlen. unfold Calibration.pushSample. cbv zeta.
  assert (Hl : length (buf ++ [v]) = (length buf + 1)%nat)
    by (rewrite length_app; reflexivity).
  destruct (30 <? length (buf ++ [v]))%nat eqn:E;
    [apply Nat.ltb_lt in E | apply Nat.ltb_ge in E].
  - destruct (buf ++ [v]); cbn [length tl] in *; lia.
  - lia.
Qed.

Lemma pushSample_const (w : R) (buf : list R) :
  Forall (eq w) buf -> Forall (eq w) (Calibration.pushSample buf w).
Proof.
  intros Hc. unfold Calibration.pushSample. cbv zeta.
  assert (Hall : Forall (eq w) (buf ++ [w])).
  { apply Forall_app. split; [assumption | repeat constructor]. }
  destruct (30 <? length (buf ++ [w]))%nat; [|assumption].
  destruct (buf ++ [w]); [constructor|]. now inversion Hall.
Qed.



Lemma steadyPose_width : Metrics.getShoulderWidth steadyPose = Ok (1 / 4).
Proof.
  unfold Metrics.getShoulderWidth.
  change (at_ steadyPose LANDMARK_INDICES.LEFT_SHOULDER)
    with (Ok (mkLandmark (1 / 4) (1 / 2) 0 None)).
  change (at_ steadyPose LANDMARK_INDICES.RIGHT_SHOULDER)
    with (Ok (mkLandmark (1 / 2) (1 / 2) 0 None)).
  cbn [bind]. f_equal. unfold Metrics.calculateDistance, Js.pow2. cbn [x y].
  replace ((1 / 2 - 1 / 4) ^ 2 + (1 / 2 - 1 / 2) ^ 2) with ((1 / 4) * (1 / 4)) by field.
  apply sqrt_square. lra.
Qed.

Lemma holding_confirms_example :
  exists s',
    Calibration.processFrame holdingState (Some steadyPose) 4000 = Ok s'
    /\ Calibration.step s' = Calibration.confirm
    /\ Forall (eq (1 / 4)) (Calibration.stabilityBuffer s').
Proof.
  destruct (processFrame_step holdingState steadyPose 4000 eq_refl)
    as [s' [sw [nose [lw [rw [Hsw [_ [_ [_ [Hrun [Hbuf H]]]]]]]]]]].
  rewrite steadyPose_width in Hsw. injection Hsw as <-.
  assert (Hc : Forall (eq (1 / 4)) (Calibration.stabilityBuffer s')).
  { rewrite Hbuf. apply pushSample_const. cbn [Calibration.stabilityBuffer holdingState].
    apply Forall_forall. intros v Hv. apply repeat_spec in Hv. now subst. }
  exists s'. split; [exact Hrun|]. split; [|exact Hc].
  cbv zeta in H. cbn [Calibration.step Calibration.holdStartTime holdingState] in H.
  destruct H as [Hconf _].
  apply Hconf.
  - split.
    + rewrite Hbuf. rewrite pushSample_length; cbn [Calibration.stabilityBuffer holdingState];
        rewrite repeat_length; cbv; lia.
    + rewrite bufferVariance_popVariance by (rewrite Hbuf; apply pushSample_nonempty).
      rewrite (popVariance_const _ _ Hc). unfold Calibration.STABILITY_THRESHOLD. lra.
  - unfold Calibration.HOLD_DURATION. lra.
Qed.

(** *** The calibration cycle over binary64 *)

Lemma lastN_short {A : Type} (n : nat) (l : list A) :
  (length l <= n)%nat -> lastN n l = l.
Proof.
  intros H. unfold lastN. replace (length l - n)%nat with 0%nat by lia. reflexivity.
Qed.

Lemma lastN_length {A : Type} (n : nat) (l : list A) :
  length (lastN n l) = Nat.min n (length l).
Proof. unfold lastN. rewrite length_skipn. lia. Qed.

Lemma lastN_app {A : Type} (n : nat) (l m : list A) :
  lastN n (lastN n l ++ m) = lastN n (l ++ m).
Proof.
  unfold lastN at 2.
  assert (E : skipn (length l - n) l ++ m = skipn (length l - n) (l ++ m)).
  { rewrite skipn_app. replace (length l - n - length l)%nat with 0%nat by lia.
    reflexivity. }
  rewrite E. unfold lastN. rewrite skipn_skipn, length_skipn, length_app.
  f_equal. lia.
Qed.

Lemma pushSample64_lastN (buf : list PrimFloat.float) (v : PrimFloat.float) :
  (length buf <= 30)%nat ->
  Binary64.Calibration.pushSample buf v = lastN 30 (buf ++ [v]).
Proof.
  intros H. unfold Binary64.Calibration.pushSample, lastN. cbv zeta.
  rewrite length_app. cbn [length].
  destruct (30 <? length buf + 1)%nat eqn:E.
  - apply Nat.ltb_lt in E. replace (length buf + 1 - 30)%nat with 1%nat by lia.
    reflexivity.
  - apply Nat.ltb_ge in E. replace (length buf + 1 - 30)%nat with 0%nat by lia.
    reflexivity.
Qed.

Lemma getShoulderWidth64_spec (lms : Binary64.Landmarks) (sw : PrimFloat.float) :
  Binary64.Metrics.getShoulderWidth lms = Ok sw -> sw = shoulderWidthOf lms.
Proof.
  unfold Binary64.Metrics.getShoulderWidth, at_.
  destruct (nth_error lms LANDMARK_INDICES.LEFT_SHOULDER) as [l|] eqn:El; [|discriminate].
  destruct (nth_error lms LANDMARK_INDICES.RIGHT_SHOULDER) as [r|] eqn:Er; [|discriminate].
  cbn [bind]. intros H. injection H as <-.
  unfold shoulderWidthOf. cbv zeta.
  rewrite (nth_error_nth lms 11 originLm64 El), (nth_error_nth lms 12 originLm64 Er).
  reflexivity.
Qed.

Lemma at_nth64 (lms : Binary64.Landmarks) (i : nat) (lm : Binary64.NormalizedLandmark) :
  at_ lms i = Ok lm -> nth i lms originLm64 = lm.
Proof.
  unfold at_. destruct (nth_error lms i) eqn:E; [|discriminate].
  intros H. injection H as <-. now apply nth_error_nth.
Qed.

Lemma processFrame64_tick (s s' : Binary64.Calibration.State)
    (lms : Binary64.Landmarks) (now : PrimFloat.float) :
  Binary64.Calibration.processFrame s (Some lms) now = Ok s' ->
  Binary64.Calibration.stabilityBuffer s'
  = Binary64.Calibration.pushSample (Binary64.Calibration.stabilityBuffer s)
      (shoulderWidthOf lms)
  /\ (Binary64.Calibration.step s <> Calibration.confirm ->
      Binary64.Calibration.step s' = Calibration.confirm ->
      Binary64.Calibration.step s = Calibration.holding
      /\ (10 <= length (Binary64.Calibration.stabilityBuffer s'))%nat
      /\ Binary64.Calibration.baselineScale s'
         = Binary64.Calibration.bufferAvg (Binary64.Calibration.stabilityBuffer s')
      /\ Binary64.Calibration.baselineGuardHeight s'
         = (Binary64.y (nth 0 lms originLm64)
            - (Binary64.y (nth 15 lms originLm64)
               + Binary64.y (nth 16 lms originLm64)) / 2)%float).
Proof.
  unfold Binary64.Calibration.processFrame.
  destruct (Binary64.Metrics.checkFramingQuality lms) as [framing| |]; try discriminate.
  destruct (Binary64.Metrics.estimateViewAngle lms) as [angle| |]; try discriminate.
  destruct (Binary64.Metrics.getShoulderWidth lms) as [sw| |] eqn:Hsw; try discriminate.
  apply getShoulderWidth64_spec in Hsw. subst sw. cbn [bind]. cbv zeta.
  set (buf := Binary64.Calibration.pushSample (Binary64.Calibration.stabilityBuffer s)
                (shoulderWidthOf lms)).
  destruct (10 <=? length buf)%nat eqn:Elen.
  - apply Nat.leb_le in Elen.
    destruct (PrimFloat.ltb (Binary64.Calibration.bufferVariance buf)
                Binary64.Calibration.STABILITY_THRESHOLD);
      destruct (Binary64.Calibration.step s) eqn:Es;
      try (intros H; injection H as <-; cbn; split;
           [reflexivity | intros; congruence]).
    destruct (PrimFloat.leb Binary64.Calibration.HOLD_DURATION _).
    + destruct (at_ lms 0) as [nose| |] eqn:En; try discriminate.
      destruct (at_ lms 15) as [lw| |] eqn:El; try discriminate.
      destruct (at_ lms 16) as [rw| |] eqn:Er; try discriminate.
      cbn [bind]. intros H. injection H as <-. cbn.
      split; [reflexivity|]. intros _ _.
      rewrite (at_nth64 _ _ _ En), (at_nth64 _ _ _ El), (at_nth64 _ _ _ Er).
      repeat split. exact Elen.
    + intros H; injection H as <-; cbn; split; [reflexivity | intros; congruence].
  - intros H; injection H as <-; cbn; split; [reflexivity | intros; congruence].
Qed.

Lemma measuredWidths_app (t1 t2 : list (option Binary64.Landmarks * PrimFloat.float)) :
  measuredWidths (t1 ++ t2) = measuredWidths t1 ++ measuredWidths t2.
Proof. unfold measuredWidths. apply flat_map_app. Qed.

Lemma run64_buffer (ticks : list (option Binary64.Landmarks * PrimFloat.float)) :
  forall s0 s,
    Binary64.Calibration.run s0 ticks = Ok s ->
    (length (Binary64.Calibration.stabilityBuffer s0) <= 30)%nat ->
    Binary64.Calibration.stabilityBuffer s
    = lastN 30 (Binary64.Calibration.stabilityBuffer s0 ++ measuredWidths ticks)
    /\ (length (Binary64.Calibration.stabilityBuffer s) <= 30)%nat.
Proof.
  induction ticks as [|[detected now] rest IH]; intros s0 s Hrun Hlen.
  - cbn in Hrun. injection Hrun as <-. rewrite app_nil_r.
    split; [symmetry; now apply lastN_short | exact Hlen].
  - cbn [Binary64.Calibration.run] in Hrun.
    apply bind_ok in Hrun. destruct Hrun as [s1 [H1 Hrest]].
    destruct detected as [lms|].
    + destruct (processFrame64_tick s0 s1 lms now H1) as [Hb _].
      rewrite (pushSample64_lastN _ _ Hlen) in Hb.
      assert (Hlen1 : (length (Binary64.Calibration.stabilityBuffer s1) <= 30)%nat).
      { rewrite Hb, lastN_length. lia. }
      destruct (IH s1 s Hrest Hlen1) as [E L]. split; [|exact L].
      rewrite E, Hb, lastN_app, <- app_assoc. reflexivity.
    + cbn in H1. injection H1 as <-. exact (IH s0 s Hrest Hlen).
Qed.

(** [C5], amended: in binary64, when the cycle reaches confirm on a tick,
    the shoulder-width buffer holds the last (at most 30, at least 10)
    widths measured so far, this tick's included, each the distance between
    landmarks 11 and 12 of its frame; the captured baseline scale is the
    mean of that buffer as the processor computes it (the samples added one
    by one to 0, oldest first, and the total divided by their number); the
    captured baseline guard height is the nose's [y] minus the mean of the
    two wrists' [y] on this tick's frame; and [handleConfirm] copies both
    into the calibration record. *)
Theorem confirm_captures_baseline
    (s0 s s' : Binary64.Calibration.State)
    (ticks : list (option Binary64.Landmarks * PrimFloat.float))
    (lms : Binary64.Landmarks) (now : PrimFloat.float)
    (Hbuf : (length (Binary64.Calibration.stabilityBuffer s0) <= 30)%nat)
    (Hticks : Binary64.Calibration.run s0 ticks = Ok s)
    (Hrun : Binary64.Calibration.processFrame s (Some lms) now = Ok s')
    (Hpre : Binary64.Calibration.step s <> Calibration.confirm)
    (Hpost : Binary64.Calibration.step s' = Calibration.confirm) :
  let buffer :=
    lastN 30 (Binary64.Calibration.stabilityBuffer s0
              ++ measuredWidths ticks ++ [shoulderWidthOf lms]) in
  (10 <= length buffer <= 30)%nat
  /\ Binary64.Calibration.stabilityBuffer s' = buffer
  /\ Binary64.Calibration.baselineScale s' = roundedMean buffer
  /\ Binary64.Calibration.baselineGuardHeight s'
     = (Binary64.y (nth 0 lms originLm64)
        - (Binary64.y (nth 15 lms originLm64)
           + Binary64.y (nth 16 lms originLm64)) / 2)%float
  /\ (forall dateNow,
        Binary64.baselineScale (Binary64.Calibration.handleConfirm s' dateNow)
        = Binary64.Calibration.baselineScale s'
        /\ Binary64.baselineGuardHeight (Binary64.Calibration.handleConfirm s' dateNow)
           = Binary64.Calibration.baselineGuardHeight s').
Proof.
  intros buffer.
  destruct (run64_buffer ticks s0 s Hticks Hbuf) as [Es Ls].
  destruct (processFrame64_tick s s' lms now Hrun) as [Eb Hc].
  destruct (Hc Hpre Hpost) as [_ [L10 [Ha Hg]]].
  assert (E : Binary64.Calibration.stabilityBuffer s' = buffer).
  { rewrite Eb, (pushSample64_lastN _ _ Ls), Es, lastN_app, <- app_assoc. reflexivity. }
  split.
  { rewrite <- E. split; [exact L10|].
    rewrite Eb, (pushSample64_lastN _ _ Ls), lastN_length. lia. }
  split; [exact E|]. split; [rewrite Ha, E; reflexivity|].
  split; [exact Hg|]. intros dateNow. split; reflexivity.
Qed.

Lemma confirm_captures_baseline_witness :
  exists s s',
    Binary64.Calibration.run (Binary64.Calibration.initialState None)
      (tenTicks quarterPose) = Ok s
    /\ Binary64.Calibration.processFrame s (Some quarterPose) 3900 = Ok s'
    /\ Binary64.Calibration.step s' = Calibration.confirm
    /\ Binary64.Calibration.stabilityBuffer s' = repeat 0.25%float 11
    /\ Binary64.Calibration.baselineScale s' = 0.25%float
    /\ Binary64.Calibration.baselineGuardHeight s' = (-0.375)%float.
Proof.
  eexists. eexists.
  match goal with
  | |- ?A /\ ?B /\ ?C /\ _ =>
      assert (Hticks : A) by (vm_compute; reflexivity);
      assert (Hrun : B) by (vm_compute; reflexivity);
      assert (Hpost : C) by reflexivity
  end.
  split; [exact Hticks|]. split; [exact Hrun|]. split; [exact Hpost|].
  match type of Hticks with
  | _ = Ok ?s =>
      assert (Hpre : Binary64.Calibration.step s <> Calibration.confirm)
        by (cbn; discriminate)
  end.
  destruct (confirm_captures_baseline (Binary64.Calibration.initialState None) _ _
              (tenTicks quarterPose) quarterPose 3900%float
              (le_0_n 30) Hticks Hrun Hpre Hpost)
    as [_ [Eb [Ea [Eg _]]]].
  split; [rewrite Eb; vm_compute; reflexivity|].
  split; [rewrite Ea; vm_compute; reflexivity | rewrite Eg; vm_compute; reflexivity].
Defined.

(** Eleven frames of shoulder width 0.1, the last one 3000 ms after the hold
    began: the cycle goes from detecting to holding to confirm, the buffer
    holds eleven times 0.1, and the captured baseline scale is
    0.09999999999999999. *)
Lemma baseline_differs_from_constant_width :
  measuredWidths (tenTicks tenthPose ++ [(Some tenthPose, 3900%float)])
  = repeat 0.1%float 11
  /\ exists s s',
      Binary64.Calibration.run (Binary64.Calibration.initialState None)
        (tenTicks tenthPose) = Ok s
      /\ Binary64.Calibration.step s = Calibration.holding
      /\ Binary64.Calibration.holdStartTime s = Some 900%float
      /\ Binary64.Calibration.processFrame s (Some tenthPose) 3900 = Ok s'
      /\ Binary64.Calibration.step s' = Calibration.confirm
      /\ Binary64.Calibration.stabilityBuffer s' = repeat 0.1%float 11
      /\ Binary64.Calibration.baselineScale s' = 0.09999999999999999%float
      /\ Binary64.Calibration.baselineScale s' <> 0.1%float.
Proof.
  split; [vm_compute; reflexivity|].
  eexists. eexists.
  split; [vm_compute; reflexivity|].
  split; [reflexivity|]. split; [reflexivity|].
  split; [vm_compute; reflexivity|].
  split; [reflexivity|]. split; [reflexivity|]. split; [reflexivity|].
  cbn [Binary64.Calibration.baselineScale]. intros E.
  apply (f_equal (fun v => PrimFloat.eqb v 0.1%float)) in E.
  vm_compute in E. discriminate.
Qed.

(** *** Runs of the calibration cycle *)

Lemma processFrame_holdStarted (s s' : Calibration.State) (lms : Landmarks) (now : R) :
  wfPose lms -> holdStarted s ->
  Calibration.processFrame s (Some lms) now = Ok s' -> holdStarted s'.
Proof.
  intros Hwf Hinv Hrun.
  destruct (processFrame_step s lms now Hwf)
    as [s2 [sw [nose [lw [rw [_ [_ [_ [_ [Hrun' [_ H]]]]]]]]]]].
  rewrite Hrun in Hrun'. injection Hrun' as <-. cbv zeta in H.
  set (buf := Calibration.stabilityBuffer s') in *.
  set (el := now - match Calibration.holdStartTime s with Some t => t | None => 0 end) in *.
  assert (Dlen : (10 <= length buf)%nat \/ ~ (10 <= length buf)%nat) by lia.
  assert (Dvar : Calibration.bufferVariance buf < Calibration.STABILITY_THRESHOLD
                 \/ Calibration.STABILITY_THRESHOLD <= Calibration.bufferVariance buf) by lra.
  assert (Del : Calibration.HOLD_DURATION <= el \/ el < Calibration.HOLD_DURATION) by lra.
  unfold holdStarted in *. intros Hh.
  destruct (Calibration.step s) eqn:Es.
  - destruct H as [H1 H2].
    destruct Dlen as [Hl | Hl]; destruct Dvar as [Hv | Hv];
      try (destruct (H1 (conj Hl Hv)) as [_ E]; eauto);
      rewrite H2 in Hh by (intros [? ?]; (lia || lra)); discriminate.
  - destruct (Hinv eq_refl) as [t0 Ht0].
    destruct H as [Hc [Hk [Hd Hn]]].
    destruct Dlen as [Hl | Hl].
    + destruct Dvar as [Hv | Hv].
      * destruct Del as [He | He].
        -- destruct (Hc (conj Hl Hv) He) as [E _]. congruence.
        -- destruct (Hk (conj Hl Hv) He) as [_ [E _]]. rewrite E. eauto.
      * destruct (Hd (conj Hl Hv)) as [E _]. congruence.
    + destruct Hn as [_ E]; [intros [? ?]; lia | intros [? ?]; lia |].
      rewrite E. eauto.
  - congruence.
Qed.

(** Along any run from the initial state, a holding state remembers the
    clock reading of the tick on which holding began. *)
Lemma run_holdStarted (ticks : list (option Landmarks * R)) :
  Forall wfTick ticks ->
  forall s s', holdStarted s -> Calibration.run s ticks = Ok s' -> holdStarted s'.
Proof.
  induction 1 as [|[detected now] ticks Hw _ IH]; intros s s' Hinv Hrun.
  - simpl in Hrun. injection Hrun as <-. exact Hinv.
  - cbn [Calibration.run] in Hrun. apply bind_ok in Hrun.
    destruct Hrun as [s1 [H1 Hrest]].
    apply (IH s1 s'); [|exact Hrest].
    destruct detected as [lms|].
    + exact (processFrame_holdStarted s s1 lms now Hw Hinv H1).
    + simpl in H1. injection H1 as <-. exact Hinv.
Qed.

Lemma initialState_holdStarted (c : option CalibrationData) :
  holdStarted (Calibration.initialState c).
Proof. unfold holdStarted. simpl. discriminate. Qed.

(** *** Distances and angles *)

Lemma sum_squares_zero (u v : R) : u ^ 2 + v ^ 2 = 0 -> u = 0 /\ v = 0.
Proof. intros H. split; nra. Qed.

(** [X1] [calculateDistance] is a distance on the image plane: it is symmetric,
    never negative, and zero exactly when the two points have the same [x]
    and [y] (depth and visibility play no part). *)
Theorem calculateDistance_metric (a b : NormalizedLandmark) :
  Metrics.calculateDistance a b = Metrics.calculateDistance b a
  /\ 0 <= Metrics.calculateDistance a b
  /\ (Metrics.calculateDistance a b = 0 <-> x a = x b /\ y a = y b).
Proof.
  unfold Metrics.calculateDistance, Js.pow2. split; [|split].
  - f_equal. ring.
  - apply sqrt_pos.
  - split.
    + intros H.
      assert (Hs : 0 <= (x b - x a) ^ 2 + (y b - y a) ^ 2)
        by (apply Rplus_le_le_0_compat; apply pow2_ge_0).
      pose proof (sqrt_eq_0 _ Hs H) as H0.
      apply sum_squares_zero in H0. lra.
    + intros [-> ->].
      replace ((x b - x b) ^ 2 + (y b - y b) ^ 2) with 0 by ring. apply sqrt_0.
Qed.

Lemma calculateDistance_metric_witness : Metrics.calculateDistance originLm originLm = 0.
Proof.
  apply (proj2 (proj2 (calculateDistance_metric originLm originLm))).
  split; reflexivity.
Defined.

Lemma atan2_scale (k yy xx : R) : 0 < k -> Js.atan2 (k * yy) (k * xx) = Js.atan2 yy xx.
Proof.
  intros Hk. unfold Js.atan2.
  destruct (Rlt_dec 0 xx) as [Hx | Hx].
  - destruct (Rlt_dec 0 (k * xx)); [|nra].
    f_equal. field. lra.
  - destruct (Rlt_dec 0 (k * xx)); [nra|].
    destruct (Rlt_dec xx 0) as [Hx' | Hx'].
    + destruct (Rlt_dec (k * xx) 0); [|nra].
      replace (k * yy / (k * xx)) with (yy / xx) by (field; lra).
      destruct (Rle_dec 0 yy); destruct (Rle_dec 0 (k * yy)); try nra; reflexivity.
    + destruct (Rlt_dec (k * xx) 0); [nra|].
      destruct (Rlt_dec 0 yy); destruct (Rlt_dec 0 (k * yy)); try nra; try reflexivity.
      destruct (Rlt_dec yy 0); destruct (Rlt_dec (k * yy) 0); try nra; reflexivity.
Qed.

Lemma calculateAngle_similar (k tx ty : R) (a b c : NormalizedLandmark) :
  0 < k ->
  Metrics.calculateAngle (moveLandmark k tx ty a) (moveLandmark k tx ty b)
    (moveLandmark k tx ty c)
  = Metrics.calculateAngle a b c.
Proof.
  intros Hk. unfold Metrics.calculateAngle, moveLandmark. cbn [x y].
  replace (k * y c + ty - (k * y b + ty)) with (k * (y c - y b)) by ring.
  replace (k * x c + tx - (k * x b + tx)) with (k * (x c - x b)) by ring.
  replace (k * y a + ty - (k * y b + ty)) with (k * (y a - y b)) by ring.
  replace (k * x a + tx - (k * x b + tx)) with (k * (x a - x b)) by ring.
  rewrite !atan2_scale by assumption. reflexivity.
Qed.

Lemma atan2_opposite (yy xx : R) :
  xx <> 0 \/ yy <> 0 ->
  Rabs (Js.atan2 (- yy) (- xx) - Js.atan2 yy xx) = PI.
Proof.
  intros Hnz. pose proof PI_RGT_0 as HPI. unfold Js.atan2.
  destruct (Rlt_dec 0 xx) as [Hx | Hx].
  - destruct (Rlt_dec 0 (- xx)); [lra|].
    destruct (Rlt_dec (- xx) 0); [|lra].
    replace (- yy / - xx) with (yy / xx) by (field; lra).
    destruct (Rle_dec 0 (- yy)).
    + replace (atan (yy / xx) + PI - atan (yy / xx)) with PI by ring.
      apply Rabs_right. lra.
    + replace (atan (yy / xx) - PI - atan (yy / xx)) with (- PI) by ring.
      rewrite Rabs_Ropp. apply Rabs_right. lra.
  - destruct (Rlt_dec xx 0) as [Hx' | Hx'].
    + destruct (Rlt_dec 0 (- xx)); [|lra].
      replace (- yy / - xx) with (yy / xx) by (field; lra).
      destruct (Rle_dec 0 yy).
      * replace (atan (yy / xx) - (atan (yy / xx) + PI)) with (- PI) by ring.
        rewrite Rabs_Ropp. apply Rabs_right. lra.
      * replace (atan (yy / xx) - (atan (yy / xx) - PI)) with PI by ring.
        apply Rabs_right. lra.
    + destruct (Rlt_dec 0 (- xx)); [lra|].
      destruct (Rlt_dec (- xx) 0); [lra|].
      assert (xx = 0) by lra. assert (yy <> 0) by (destruct Hnz; [lra | assumption]).
      destruct (Rlt_dec 0 yy).
      * destruct (Rlt_dec 0 (- yy)); [lra|].
        destruct (Rlt_dec (- yy) 0); [|lra].
        replace (- (PI / 2) - PI / 2) with (- PI) by field.
        rewrite Rabs_Ropp. apply Rabs_right. lra.
      * destruct (Rlt_dec yy 0); [|lra].
        destruct (Rlt_dec 0 (- yy)); [|lra].
        replace (PI / 2 - - (PI / 2)) with PI by field.
        apply Rabs_right. lra.
Qed.

Lemma angle_of_difference (d : R) :
  Rabs d = PI ->
  (if Js.gtb (Rabs (d * 180 / PI)) 180 then 360 - Rabs (d * 180 / PI)
   else Rabs (d * 180 / PI)) = 180.
Proof.
  intros Hd. pose proof PI_RGT_0 as HPI.
  assert (E : Rabs (d * 180 / PI) = 180).
  { unfold Rdiv. rewrite !Rabs_mult, Hd.
    rewrite (Rabs_right 180) by lra.
    rewrite Rabs_inv, (Rabs_right PI) by lra. field. lra. }
  rewrite E. unfold Js.gtb, Js.ltb. destruct (Rlt_dec 180 180); lra.
Qed.

Lemma calculateAngle_collinear (a b c : NormalizedLandmark) (l : R) :
  0 < l -> x a <> x b \/ y a <> y b ->
  (x c - x b = - l * (x a - x b) -> y c - y b = - l * (y a - y b) ->
   Metrics.calculateAngle a b c = 180)
  /\ (x c - x b = l * (x a - x b) -> y c - y b = l * (y a - y b) ->
      Metrics.calculateAngle a b c = 0).
Proof.
  intros Hl Hne. split; intros Hx Hy; unfold Metrics.calculateAngle; rewrite Hx, Hy.
  - replace (- l * (y a - y b)) with (l * - (y a - y b)) by ring.
    replace (- l * (x a - x b)) with (l * - (x a - x b)) by ring.
    rewrite atan2_scale by assumption.
    apply angle_of_difference. apply atan2_opposite.
    destruct Hne; [left | right]; lra.
  - rewrite atan2_scale by assumption.
    replace (Js.atan2 (y a - y b) (x a - x b) - Js.atan2 (y a - y b) (x a - x b))
      with 0 by ring.
    replace (0 * 180 / PI) with 0 by (unfold Rdiv; ring).
    rewrite Rabs_R0. unfold Js.gtb, Js.ltb. destruct (Rlt_dec 180 0); lra.
Qed.

(** [X2] [calculateAngle] is a geometric quantity: it does not change when the
    three points are scaled by a positive factor and shifted together; it is
    180 when the vertex lies on the segment between the two other points
    (a stretched limb) and 0 when both other points lie on the same ray from
    the vertex (a folded limb). *)
Theorem calculateAngle_geometry (a b c : NormalizedLandmark) :
  (forall k tx ty,
      0 < k ->
      Metrics.calculateAngle (moveLandmark k tx ty a) (moveLandmark k tx ty b)
        (moveLandmark k tx ty c)
      = Metrics.calculateAngle a b c)
  /\ (forall l,
        0 < l -> x a <> x b \/ y a <> y b ->
        (x c - x b = - l * (x a - x b) -> y c - y b = - l * (y a - y b) ->
         Metrics.calculateAngle a b c = 180)
        /\ (x c - x b = l * (x a - x b) -> y c - y b = l * (y a - y b) ->
            Metrics.calculateAngle a b c = 0)).
Proof.
  split.
  - intros k tx ty Hk. now apply calculateAngle_similar.
  - intros l Hl Hne. now apply calculateAngle_collinear.
Qed.

Lemma calculateAngle_geometry_witness :
  Metrics.calculateAngle (mkLandmark 0 0 0 None) (mkLandmark (1 / 10) (1 / 10) 0 None)
    (mkLandmark (3 / 10) (3 / 10) 0 None) = 180.
Proof.
  refine (proj1 (proj2 (calculateAngle_geometry (mkLandmark 0 0 0 None)
                          (mkLandmark (1 / 10) (1 / 10) 0 None)
                          (mkLandmark (3 / 10) (3 / 10) 0 None)) 2 _ _) _ _);
    cbn [x y]; lra.
Defined.

(** *** Detectors on single frames *)

(** [X3] When the elbow of a side lies on the line between its shoulder and its
    wrist, [detectPunchExtension] reports the arm as extended with an elbow
    angle of 180; when the wrist is folded back onto the ray from the elbow to
    the shoulder it reports angle 0 and no extension. *)
Theorem detectPunchExtension_straight_arm (ls : Landmarks) (s : Side)
    (sh el wr : NormalizedLandmark) (l : R)
    (Hsh : at_ ls (shoulderIdx s) = Ok sh)
    (Hel : at_ ls (elbowIdx s) = Ok el)
    (Hwr : at_ ls (wristIdx s) = Ok wr)
    (Hl : 0 < l) (Hne : x sh <> x el \/ y sh <> y el) :
  (x wr - x el = - l * (x sh - x el) -> y wr - y el = - l * (y sh - y el) ->
   Metrics.detectPunchExtension ls s = Ok (true, 180))
  /\ (x wr - x el = l * (x sh - x el) -> y wr - y el = l * (y sh - y el) ->
      Metrics.detectPunchExtension ls s = Ok (false, 0)).
Proof.
  destruct (calculateAngle_collinear sh el wr l Hl Hne) as [Hs Hf].
  assert (Hang : Metrics.getElbowAngle ls s = Ok (Metrics.calculateAngle sh el wr)).
  { unfold Metrics.getElbowAngle. destruct s; cbn [shoulderIdx elbowIdx wristIdx] in *;
      cbv zeta; rewrite Hsh, Hel, Hwr; reflexivity. }
  unfold Metrics.detectPunchExtension. rewrite Hang. cbn [bind].
  split; intros Hx Hy.
  - rewrite (Hs Hx Hy). f_equal. f_equal.
    unfold Js.geb, Js.leb. destruct (Rle_dec 155 180); [reflexivity | lra].
  - rewrite (Hf Hx Hy). f_equal. f_equal.
    unfold Js.geb, Js.leb. destruct (Rle_dec 155 0); [lra | reflexivity].
Qed.

Lemma detectPunchExtension_straight_arm_witness :
  Metrics.detectPunchExtension straightArmPose left = Ok (true, 180).
Proof.
  refine (proj1 (detectPunchExtension_straight_arm straightArmPose left
                   (mkLandmark 0 0 0 None) (mkLandmark (1 / 10) (1 / 10) 0 None)
                   (mkLandmark (3 / 10) (3 / 10) 0 None) 2
                   eq_refl eq_refl eq_refl _ _) _ _); cbn [x y]; lra.
Defined.

Lemma ltb_weaken (d t t' : R) : t <= t' -> Js.ltb d t = true -> Js.ltb d t' = true.
Proof.
  unfold Js.ltb. intros Ht. destruct (Rlt_dec d t); [|discriminate].
  destruct (Rlt_dec d t'); [reflexivity | lra].
Qed.

(** [X4] The per-frame guard score of [isGuardUp] is one of 0, 50, 60 and 100; it
    is 100 exactly when both hands are up and 0 exactly when neither is. *)
Theorem isGuardUp_score_values (ls : Landmarks) (cal : option CalibrationData)
    (r : Metrics.GuardResult) (Hrun : Metrics.isGuardUp ls cal = Ok r) :
  (Metrics.score r = 0 \/ Metrics.score r = 50 \/ Metrics.score r = 60
   \/ Metrics.score r = 100)
  /\ (Metrics.score r = 100 <-> Metrics.leftUp r = true /\ Metrics.rightUp r = true)
  /\ (Metrics.score r = 0 <-> Metrics.leftUp r = false /\ Metrics.rightUp r = false).
Proof.
  unfold Metrics.isGuardUp in Hrun.
  repeat (apply bind_ok in Hrun; destruct Hrun as [? [_ Hrun]]).
  cbv zeta in Hrun. injection Hrun as <-.
  cbn [Metrics.score Metrics.leftUp Metrics.rightUp].
  repeat match goal with
         | |- context [Js.ltb ?a ?b] => destruct (Js.ltb a b)
         end;
    cbn [andb]; unfold Rmin;
    repeat match goal with
           | |- context [Rle_dec ?a ?b] => destruct (Rle_dec a b); try lra
           end;
    (split; [lra|]); split; split;
    try (intros [? ?]; try discriminate; lra); intros; try lra; try (split; reflexivity).
Qed.

Lemma isGuardUp_score_values_witness :
  Metrics.score (Metrics.mkGuard 50 true false) = 50
  /\ (Metrics.score (Metrics.mkGuard 50 true false) = 100
      <-> Metrics.leftUp (Metrics.mkGuard 50 true false) = true
          /\ Metrics.rightUp (Metrics.mkGuard 50 true false) = true).
Proof.
  split; [reflexivity|].
  exact (proj1 (proj2 (isGuardUp_score_values shiftedPose None _ isGuardUp_shiftedPose))).
Defined.

(** [X5] Wearing gloves only widens the tolerance of the guard detector: on the
    same frame the two hand flags are the same with and without gloves, and
    the score with gloves is at least the score without. *)
Theorem isGuardUp_gloves_monotone (ls : Landmarks) (cal cal' : option CalibrationData)
    (r r' : Metrics.GuardResult)
    (Hbare : glovesOn cal = false) (Hgloves : glovesOn cal' = true)
    (Hrun : Metrics.isGuardUp ls cal = Ok r)
    (Hrun' : Metrics.isGuardUp ls cal' = Ok r') :
  Metrics.leftUp r' = Metrics.leftUp r
  /\ Metrics.rightUp r' = Metrics.rightUp r
  /\ Metrics.score r <= Metrics.score r'.
Proof.
  unfold Metrics.isGuardUp in Hrun, Hrun'.
  apply bind_ok in Hrun. destruct Hrun as [nose [Hn Hrun]]. rewrite Hn in Hrun'.
  apply bind_ok in Hrun. destruct Hrun as [lw [Hlw Hrun]]. rewrite Hlw in Hrun'.
  apply bind_ok in Hrun. destruct Hrun as [rw [Hrw Hrun]]. rewrite Hrw in Hrun'.
  apply bind_ok in Hrun. destruct Hrun as [lsh [Hls Hrun]]. rewrite Hls in Hrun'.
  apply bind_ok in Hrun. destruct Hrun as [rsh [Hrs Hrun]]. rewrite Hrs in Hrun'.
  cbn [bind] in Hrun'. cbv zeta in Hrun, Hrun'.
  assert (Ht : match cal with
               | Some c => if wearingGloves c then 15 / 100 else 1 / 10
               | None => 1 / 10
               end = 1 / 10).
  { destruct cal as [c|]; [|reflexivity]. simpl in Hbare. now rewrite Hbare. }
  assert (Ht' : match cal' with
                | Some c => if wearingGloves c then 15 / 100 else 1 / 10
                | None => 1 / 10
                end = 15 / 100).
  { destruct cal' as [c|]; [|discriminate]. simpl in Hgloves. now rewrite Hgloves. }
  rewrite Ht in Hrun. rewrite Ht' in Hrun'.
  injection Hrun as <-. injection Hrun' as <-.
  cbn [Metrics.score Metrics.leftUp Metrics.rightUp].
  split; [reflexivity|]. split; [reflexivity|].
  pose proof (ltb_weaken (Rabs (y lw - (y nose - 5 / 100))) (1 / 10) (15 / 100)
                ltac:(lra)) as Wl.
  pose proof (ltb_weaken (Rabs (y rw - (y nose - 5 / 100))) (1 / 10) (15 / 100)
                ltac:(lra)) as Wr.
  destruct (Js.ltb (Rabs (y lw - (y nose - 5 / 100))) (1 / 10));
    [rewrite (Wl eq_refl) | destruct (Js.ltb (Rabs (y lw - (y nose - 5 / 100))) (15 / 100))];
    (destruct (Js.ltb (Rabs (y rw - (y nose - 5 / 100))) (1 / 10));
     [rewrite (Wr eq_refl) | destruct (Js.ltb (Rabs (y rw - (y nose - 5 / 100))) (15 / 100))]);
    repeat match goal with
           | |- context [Js.ltb ?a ?b] => destruct (Js.ltb a b)
           end;
    cbn [andb]; unfold Rmin;
    repeat match goal with
           | |- context [Rle_dec ?a ?b] => destruct (Rle_dec a b); try lra
           end.
Qed.

Lemma isGuardUp_nearChinPose :
  Metrics.isGuardUp nearChinPose None = Ok (Metrics.mkGuard 50 true false)
  /\ Metrics.isGuardUp nearChinPose (Some glovesCalibration)
     = Ok (Metrics.mkGuard 60 true false).
Proof.
  unfold Metrics.isGuardUp.
  change (at_ nearChinPose LANDMARK_INDICES.NOSE) with (Ok originLm).
  change (at_ nearChinPose LANDMARK_INDICES.LEFT_WRIST)
    with (Ok (mkLandmark 0 (- (17 / 100)) 0 None)).
  change (at_ nearChinPose LANDMARK_INDICES.RIGHT_WRIST) with (Ok originLm).
  change (at_ nearChinPose LANDMARK_INDICES.LEFT_SHOULDER) with (Ok originLm).
  change (at_ nearChinPose LANDMARK_INDICES.RIGHT_SHOULDER) with (Ok originLm).
  cbn [bind x y originLm wearingGloves glovesCalibration].
  assert (E1 : Js.ltb (- (17 / 100)) ((0 + 0) / 2) = true) by (js_cmp; reflexivity).
  assert (E2 : Js.ltb (- (17 / 100)) (0 + 1 / 10) = true) by (js_cmp; reflexivity).
  assert (E3 : Js.ltb (Rabs (0 - 0)) (3 / 10) = true) by (js_cmp; reflexivity).
  assert (E4 : Js.ltb 0 ((0 + 0) / 2) = false) by (js_cmp; reflexivity).
  assert (E5 : Js.ltb (Rabs (- (17 / 100) - (0 - 5 / 100))) (1 / 10) = false)
    by (js_cmp; reflexivity).
  assert (E6 : Js.ltb (Rabs (- (17 / 100) - (0 - 5 / 100))) (15 / 100) = true)
    by (js_cmp; reflexivity).
  rewrite E1, E2, E3, E4, E5, E6. cbn [andb].
  split; f_equal; f_equal; rewrite Rmin_right by lra; lra.
Qed.

Lemma isGuardUp_gloves_monotone_witness :
  Metrics.leftUp (Metrics.mkGuard 60 true false) = Metrics.leftUp (Metrics.mkGuard 50 true false)
  /\ Metrics.rightUp (Metrics.mkGuard 60 true false)
     = Metrics.rightUp (Metrics.mkGuard 50 true false)
  /\ Metrics.score (Metrics.mkGuard 50 true false)
     <= Metrics.score (Metrics.mkGuard 60 true false).
Proof.
  exact (isGuardUp_gloves_monotone nearChinPose None (Some glovesCalibration) _ _
           eq_refl eq_refl (proj1 isGuardUp_nearChinPose) (proj2 isGuardUp_nearChinPose)).
Defined.

Lemma gtb_visible (lm : NormalizedLandmark) :
  Js.gtb (Js.optOrZero (visibility lm)) (3 / 10) = true <-> visibleLm lm.
Proof.
  unfold visibleLm, Js.gtb, Js.ltb, Js.optOrZero, Js.orZero.
  destruct (visibility lm) as [v|].
  - destruct (Req_dec_T v 0) as [-> | Hv].
    + destruct (Rlt_dec (3 / 10) 0); [lra|]. split; [discriminate|].
      intros [v' [E Hv']]. injection E as <-. lra.
    + destruct (Rlt_dec (3 / 10) v); split; intros; try discriminate; eauto.
      destruct H as [v' [E Hv']]. injection E as <-. lra.
  - destruct (Rlt_dec (3 / 10) 0); [lra|]. split; [discriminate|].
    intros [v' [E _]]. discriminate.
Qed.

Lemma checkFramingQuality_flags (ls : Landmarks) (f : FramingQuality)
    (head lh rh la ra : NormalizedLandmark)
    (Hhead : at_ ls LANDMARK_INDICES.NOSE = Ok head)
    (Hlh : at_ ls LANDMARK_INDICES.LEFT_HIP = Ok lh)
    (Hrh : at_ ls LANDMARK_INDICES.RIGHT_HIP = Ok rh)
    (Hla : at_ ls LANDMARK_INDICES.LEFT_ANKLE = Ok la)
    (Hra : at_ ls LANDMARK_INDICES.RIGHT_ANKLE = Ok ra)
    (Hrun : Metrics.checkFramingQuality ls = Ok f) :
  (headVisible f = true <-> visibleLm head)
  /\ (hipsVisible f = true <-> visibleLm lh /\ visibleLm rh)
  /\ (anklesVisible f = true <-> visibleLm la /\ visibleLm ra)
  /\ overallScore f
     = (if headVisible f then 40 else 0) + (if hipsVisible f then 40 else 0)
       + (if anklesVisible f then 20 else 0)
  /\ (overallScore f < 60
      <-> (headVisible f = false /\ hipsVisible f = false)
          \/ (headVisible f = false /\ anklesVisible f = false)
          \/ (hipsVisible f = false /\ anklesVisible f = false))
  /\ (overallScore f = 100
      <-> headVisible f = true /\ hipsVisible f = true /\ anklesVisible f = true).
Proof.
  assert (Hrun' : f = mkFraming
            (Js.gtb (Js.optOrZero (visibility head)) (3 / 10))
            (Js.gtb (Js.optOrZero (visibility lh)) (3 / 10)
             && Js.gtb (Js.optOrZero (visibility rh)) (3 / 10))
            (Js.gtb (Js.optOrZero (visibility la)) (3 / 10)
             && Js.gtb (Js.optOrZero (visibility ra)) (3 / 10))
            (let s1 := if Js.gtb (Js.optOrZero (visibility head)) (3 / 10)
                       then 0 + 40 else 0 in
             let s2 := if Js.gtb (Js.optOrZero (visibility lh)) (3 / 10)
                          && Js.gtb (Js.optOrZero (visibility rh)) (3 / 10)
                       then s1 + 40 else s1 in
             if Js.gtb (Js.optOrZero (visibility la)) (3 / 10)
                && Js.gtb (Js.optOrZero (visibility ra)) (3 / 10)
             then s2 + 20 else s2)).
  { unfold Metrics.checkFramingQuality in Hrun. cbv zeta in Hrun.
    rewrite Hhead, Hlh, Hla in Hrun. cbn [bind] in Hrun.
    destruct (Js.gtb (Js.optOrZero (visibility lh)) (3 / 10));
      destruct (Js.gtb (Js.optOrZero (visibility la)) (3 / 10));
      rewrite ?Hrh, ?Hra in Hrun; cbn [bind andb] in Hrun;
      injection Hrun as <-; reflexivity. }
  clear Hrun. subst f. cbv zeta.
  cbn [headVisible hipsVisible anklesVisible overallScore].
  split; [apply gtb_visible|].
  split; [rewrite andb_true_iff, !gtb_visible; tauto|].
  split; [rewrite andb_true_iff, !gtb_visible; tauto|].
  destruct (Js.gtb (Js.optOrZero (visibility head)) (3 / 10));
    destruct (Js.gtb (Js.optOrZero (visibility lh)) (3 / 10)
              && Js.gtb (Js.optOrZero (visibility rh)) (3 / 10));
    destruct (Js.gtb (Js.optOrZero (visibility la)) (3 / 10)
              && Js.gtb (Js.optOrZero (visibility ra)) (3 / 10));
    (split; [lra|]); split; split; intros;
    try lra; intuition (try reflexivity; try discriminate; try lra).
Qed.

Lemma checkFramingQuality_upperBodyPose :
  Metrics.checkFramingQuality upperBodyPose = Ok (mkFraming true true false (0 + 40 + 40)).
Proof.
  unfold Metrics.checkFramingQuality. cbv zeta.
  change (at_ upperBodyPose LANDMARK_INDICES.NOSE) with (Ok (mkLandmark 0 0 0 (Some (9 / 10)))).
  change (at_ upperBodyPose LANDMARK_INDICES.LEFT_HIP) with (Ok (mkLandmark 0 0 0 (Some (9 / 10)))).
  change (at_ upperBodyPose LANDMARK_INDICES.RIGHT_HIP) with (Ok (mkLandmark 0 0 0 (Some (8 / 10)))).
  change (at_ upperBodyPose LANDMARK_INDICES.LEFT_ANKLE) with (Ok originLm).
  cbn [bind visibility originLm].
  assert (E1 : Js.gtb (Js.optOrZero (Some (9 / 10))) (3 / 10) = true).
  { apply (gtb_visible (mkLandmark 0 0 0 (Some (9 / 10)))). eexists. split; [reflexivity | lra]. }
  assert (E2 : Js.gtb (Js.optOrZero (Some (8 / 10))) (3 / 10) = true).
  { apply (gtb_visible (mkLandmark 0 0 0 (Some (8 / 10)))). eexists. split; [reflexivity | lra]. }
  assert (E3 : Js.gtb (Js.optOrZero None) (3 / 10) = false).
  { destruct (Js.gtb (Js.optOrZero None) (3 / 10)) eqn:E; [|reflexivity].
    apply (gtb_visible originLm) in E. destruct E as [v [E _]]. discriminate. }
  rewrite E1. cbn [bind visibility]. rewrite E2, E3. reflexivity.
Qed.

Lemma at_nth (ls : Landmarks) (i : nat) :
  wfPose ls -> (i < 33)%nat -> at_ ls i = Ok (nth i ls originLm).
Proof.
  intros Hwf Hi. unfold at_.
  rewrite (nth_error_nth' ls originLm) by (unfold wfPose in Hwf; lia). reflexivity.
Qed.

(** [X6] On a 33-point frame [checkFramingQuality] returns; the head flag says
    that the nose has a visibility above 0.3, the hips and ankles flags that
    both points of the pair have; the overall score is 40 for the head plus 40
    for the hips plus 20 for the ankles, so it is below 60 exactly when at
    most one region is visible and 100 exactly when all three are.  A missing
    visibility counts as not visible. *)
Theorem checkFramingQuality_regions (ls : Landmarks) (Hwf : wfPose ls) :
  let vis i := visibleLm (nth i ls originLm) in
  exists f,
    Metrics.checkFramingQuality ls = Ok f
    /\ (headVisible f = true <-> vis 0%nat)
    /\ (hipsVisible f = true <-> vis 23%nat /\ vis 24%nat)
    /\ (anklesVisible f = true <-> vis 27%nat /\ vis 28%nat)
    /\ overallScore f
       = (if headVisible f then 40 else 0) + (if hipsVisible f then 40 else 0)
         + (if anklesVisible f then 20 else 0)
    /\ (overallScore f < 60
        <-> (headVisible f = false /\ hipsVisible f = false)
            \/ (headVisible f = false /\ anklesVisible f = false)
            \/ (hipsVisible f = false /\ anklesVisible f = false))
    /\ (overallScore f = 100
        <-> headVisible f = true /\ hipsVisible f = true /\ anklesVisible f = true).
Proof.
  intros vis. destruct (checkFramingQuality_total ls Hwf) as [f Hf].
  exists f. split; [exact Hf|].
  exact (checkFramingQuality_flags ls f _ _ _ _ _
           (at_nth _ 0 Hwf ltac:(lia)) (at_nth _ 23 Hwf ltac:(lia))
           (at_nth _ 24 Hwf ltac:(lia)) (at_nth _ 27 Hwf ltac:(lia))
           (at_nth _ 28 Hwf ltac:(lia)) Hf).
Qed.

Lemma wf_upperBodyPose : wfPose upperBodyPose.
Proof. reflexivity. Qed.

Lemma checkFramingQuality_regions_witness :
  exists f,
    Metrics.checkFramingQuality upperBodyPose = Ok f
    /\ overallScore f = 0 + 40 + 40 /\ ~ overallScore f < 60.
Proof.
  destruct (checkFramingQuality_regions upperBodyPose wf_upperBodyPose)
    as [f [Hf [_ [_ [_ [_ [Hlow _]]]]]]].
  exists f. split; [exact Hf|].
  rewrite checkFramingQuality_upperBodyPose in Hf. injection Hf as <-.
  split; [reflexivity|].
  intros Hlt. apply Hlow in Hlt. cbn [headVisible hipsVisible anklesVisible] in Hlt.
  destruct Hlt as [[? ?] | [[? ?] | [? ?]]]; discriminate.
Defined.







(** *** Stability and execution *)








Lemma calculateStability_same_hips (fs : list Landmarks) (hips : list (R * R))
    (p : R * R) :
  Metrics.mapM Metrics.hipCenter fs = Ok hips -> Forall (eq p) hips ->
  Metrics.calculateStability fs = Ok 100
  /\ ((5 <= length fs)%nat -> Scoring.calculateStabilityScore fs = Ok 20).
Proof.
  intros Hh Hc.
  assert (Hv : positionalVariance hips = 0).
  { unfold positionalVariance.
    rewrite (popVariance_const (fst p) (map fst hips)),
      (popVariance_const (snd p) (map snd hips)).
    - lra.
    - apply Forall_map. eapply Forall_impl; [|exact Hc]. now intros a <-.
    - apply Forall_map. eapply Forall_impl; [|exact Hc]. now intros a <-. }
  assert (Hs : Metrics.calculateStability fs = Ok 100).
  { rewrite (calculateStability_formula fs hips Hh), Hv. f_equal. apply clamp_full. }
  split; [exact Hs|]. intros Hlen. unfold Scoring.calculateStabilityScore.
  replace (length fs <? 5)%nat with false by (symmetry; apply Nat.ltb_ge; lia).
  rewrite Hs. cbn [bind]. f_equal. field.
Qed.




Lemma countDetections_count (detect : Landmarks -> Side -> Outcome (bool * R))
    (arr : list Landmarks) :
  forall count n,
    Scoring.countDetections detect arr count = Ok n ->
    n = (count + length (filter (firesOn detect) arr))%nat.
Proof.
  induction arr as [|ls arr IH]; intros count n H; simpl in H.
  - injection H as <-. simpl. lia.
  - apply bind_ok in H. destruct H as [l [Hl H]].
    apply bind_ok in H. destruct H as [r [Hr H]].
    apply IH in H. cbn [filter]. unfold firesOn at 1. rewrite Hl, Hr.
    destruct (fst l || fst r); cbn [length] in *; lia.
Qed.

Lemma credit_values (r : R) :
  (punchCredit r = 0 \/ punchCredit r = 10 \/ punchCredit r = 20)
  /\ (kneeCredit r = 0 \/ kneeCredit r = 10 \/ kneeCredit r = 20).
Proof. unfold punchCredit, kneeCredit. split; case_ifs; auto. Qed.

Ltac pick_value := first [ lra | left; lra | right; pick_value ].

Lemma calculateExecutionScore_formula (arr : list Landmarks) (mt : list string) (e : R) :
  Scoring.calculateExecutionScore arr mt = Ok e ->
  ((length arr < 5)%nat -> e = 20)
  /\ ((5 <= length arr)%nat ->
      e = match Scoring.includes mt "punch",
                Scoring.includes mt "kick" || Scoring.includes mt "knee" with
          | true, true =>
              punchCredit (firingRatio Metrics.detectPunchExtension arr)
              + kneeCredit (firingRatio Metrics.detectKneeLift arr)
          | true, false => 2 * punchCredit (firingRatio Metrics.detectPunchExtension arr)
          | false, true => 2 * kneeCredit (firingRatio Metrics.detectKneeLift arr)
          | false, false => 25
          end).
Proof.
  intros Hrun.
  unfold Scoring.calculateExecutionScore in Hrun.
    destruct (length arr <? 5)%nat eqn:E;
      [apply Nat.ltb_lt in E | apply Nat.ltb_ge in E].
    { injection Hrun as <-. split; [reflexivity | lia]. }
    split; [lia|]. intros _. cbv zeta in Hrun.
    pose proof (credit_values (firingRatio Metrics.detectPunchExtension arr)) as [Vp _].
    pose proof (credit_values (firingRatio Metrics.detectKneeLift arr)) as [_ Vk].
    destruct (Scoring.includes mt "punch").
    - apply bind_ok in Hrun. destruct Hrun as [[s1 c1] [H1 Hrun]].
      apply bind_ok in H1. destruct H1 as [n [Hn H1]].
      apply countDetections_count in Hn. simpl in Hn. subst n.
      fold (firingRatio Metrics.detectPunchExtension arr) in H1.
      fold (punchCredit (firingRatio Metrics.detectPunchExtension arr)) in Vp.
      assert (Hs1 : s1 = punchCredit (firingRatio Metrics.detectPunchExtension arr) /\ c1 = 1%nat).
      { unfold punchCredit. revert H1. case_ifs; intros H1; injection H1 as <- <-;
          split; try reflexivity; lra. }
      destruct Hs1 as [-> ->]. cbn [fst snd] in Hrun.
      destruct (Scoring.includes mt "kick" || Scoring.includes mt "knee").
      + apply bind_ok in Hrun. destruct Hrun as [[s2 c2] [H2 Hrun]].
        apply bind_ok in H2. destruct H2 as [m [Hm H2]].
        apply countDetections_count in Hm. simpl in Hm. subst m.
        fold (firingRatio Metrics.detectKneeLift arr) in H2.
        assert (Hs2 : s2 = punchCredit (firingRatio Metrics.detectPunchExtension arr)
                           + kneeCredit (firingRatio Metrics.detectKneeLift arr) /\ c2 = 2%nat).
        { unfold kneeCredit. revert H2. case_ifs; intros H2; injection H2 as <- <-;
            split; try reflexivity; lra. }
        destruct Hs2 as [-> ->]. cbn [fst snd Nat.eqb] in Hrun. injection Hrun as <-.
        replace (INR 2) with 2 by (simpl; lra).
        rewrite Rmin_right; [field|].
        destruct Vp as [-> | [-> | ->]]; destruct Vk as [-> | [-> | ->]]; lra.
      + cbn [bind fst snd Nat.eqb] in Hrun. injection Hrun as <-.
        replace (INR 1) with 1 by (simpl; lra).
        rewrite Rmin_right; [field|].
        destruct Vp as [-> | [-> | ->]]; lra.
    - cbn [bind fst snd] in Hrun.
      destruct (Scoring.includes mt "kick" || Scoring.includes mt "knee").
      + apply bind_ok in Hrun. destruct Hrun as [[s2 c2] [H2 Hrun]].
        apply bind_ok in H2. destruct H2 as [m [Hm H2]].
        apply countDetections_count in Hm. simpl in Hm. subst m.
        fold (firingRatio Metrics.detectKneeLift arr) in H2.
        assert (Hs2 : s2 = kneeCredit (firingRatio Metrics.detectKneeLift arr) /\ c2 = 1%nat).
        { unfold kneeCredit. revert H2. case_ifs; intros H2; injection H2 as <- <-;
            split; try reflexivity; lra. }
        destruct Hs2 as [-> ->]. cbn [fst snd Nat.eqb] in Hrun. injection Hrun as <-.
        replace (INR 1) with 1 by (simpl; lra).
        rewrite Rmin_right; [field|].
        destruct Vk as [-> | [-> | ->]]; lra.
      + cbn [bind fst snd Nat.eqb] in Hrun. injection Hrun as <-. reflexivity.
Qed.

Lemma calculateExecutionScore_values (arr : list Landmarks) (mt : list string) (e : R) :
  Scoring.calculateExecutionScore arr mt = Ok e ->
  e = 0 \/ e = 10 \/ e = 20 \/ e = 25 \/ e = 30 \/ e = 40.
Proof.
  intros Hrun. destruct (calculateExecutionScore_formula arr mt e Hrun) as [Hlt Hge].
  destruct (Nat.lt_ge_cases (length arr) 5) as [H | H].
  - rewrite (Hlt H). auto.
  - rewrite (Hge H).
    pose proof (credit_values (firingRatio Metrics.detectPunchExtension arr)) as [Vp _].
    pose proof (credit_values (firingRatio Metrics.detectKneeLift arr)) as [_ Vk].
    destruct (Scoring.includes mt "punch");
      destruct (Scoring.includes mt "kick" || Scoring.includes mt "knee");
      destruct Vp as [Ep | [Ep | Ep]]; destruct Vk as [Ek | [Ek | Ek]];
      pick_value.
Qed.

(** [X9] The execution subscore is 20 below five frames.  From five frames on
    it is determined by the move types and by the fraction of frames on which
    the punch and the knee-lift detectors fire: the sum of the two credits
    when the combo has punches and kicks or knees, twice the one credit when
    it has only one kind, and 25 when it has neither.  It is always one of
    0, 10, 20, 25, 30 and 40. *)
Theorem calculateExecutionScore_cases (arr : list Landmarks) (mt : list string) (e : R)
    (Hrun : Scoring.calculateExecutionScore arr mt = Ok e) :
  ((length arr < 5)%nat -> e = 20)
  /\ ((5 <= length arr)%nat ->
      let cp := punchCredit (firingRatio Metrics.detectPunchExtension arr) in
      let ck := kneeCredit (firingRatio Metrics.detectKneeLift arr) in
      e = match Scoring.includes mt "punch",
                Scoring.includes mt "kick" || Scoring.includes mt "knee" with
          | true, true => cp + ck
          | true, false => 2 * cp
          | false, true => 2 * ck
          | false, false => 25
          end)
  /\ (e = 0 \/ e = 10 \/ e = 20 \/ e = 25 \/ e = 30 \/ e = 40).
Proof.
  destruct (calculateExecutionScore_formula arr mt e Hrun) as [Hlt Hge].
  split; [exact Hlt|]. split; [exact Hge|].
  exact (calculateExecutionScore_values arr mt e Hrun).
Qed.

Lemma calculateExecutionScore_cases_witness :
  exists e,
    Scoring.calculateExecutionScore (map landmarks frames5) ["punch"; "kick"]%string = Ok e
    /\ (e = 0 \/ e = 10 \/ e = 20 \/ e = 25 \/ e = 30 \/ e = 40).
Proof.
  destruct (calculateExecutionScore_total (map landmarks frames5) ["punch"; "kick"]%string
              (Forall_wf_map _ wf_frames5)) as [e He].
  exists e. split; [exact He|].
  exact (proj2 (proj2 (calculateExecutionScore_cases _ _ e He))).
Defined.

Lemma still_term (p : NormalizedLandmark) :
  sqrt ((x p - x p) * (x p - x p) + (y p - y p) * (y p - y p)) = 0.
Proof.
  replace ((x p - x p) * (x p - x p) + (y p - y p) * (y p - y p)) with 0 by ring.
  apply sqrt_0.
Qed.

Lemma skipn_succ_tl {A : Type} (j : nat) :
  forall l : list A, skipn (S j) l = tl (skipn j l).
Proof.
  induction j as [|j IH]; intros [|a l]; try reflexivity.
  exact (IH l).
Qed.

Lemma movementLoop_still (prev : Landmarks) :
  forall cur j acc,
    cur = skipn j prev -> Scoring.movementLoop cur prev j acc = Ok acc.
Proof.
  induction cur as [|c cur IH]; intros j acc Hcur; simpl; [reflexivity|].
  assert (Hj : nth_error prev j = Some c).
  { rewrite <- (firstn_skipn j prev) at 1. rewrite <- Hcur.
    assert (Hlen : (j <= length prev)%nat).
    { destruct (Nat.le_gt_cases j (length prev)) as [H | H]; [exact H|].
      rewrite skipn_all2 in Hcur by lia. discriminate. }
    rewrite nth_error_app2 by (rewrite length_firstn; lia).
    rewrite length_firstn, Nat.min_l by lia. rewrite Nat.sub_diag. reflexivity. }
  unfold at_. rewrite Hj. cbn [bind]. rewrite still_term, Rplus_0_r.
  apply IH.
  rewrite skipn_succ_tl, <- Hcur. reflexivity.
Qed.

Lemma movementsLoop_still (ls : Landmarks) (m : nat) :
  forall acc,
    Scoring.movementsLoop ls (repeat ls m) acc = Ok (acc ++ repeat 0 m).
Proof.
  induction m as [|m IH]; intros acc; simpl.
  - now rewrite app_nil_r.
  - rewrite (movementLoop_still ls ls 0 0 eq_refl). cbn [bind].
    rewrite IH, <- app_assoc. reflexivity.
Qed.

Lemma sum_zeros (m : nat) : Js.sum (repeat 0 m) = 0.
Proof.
  rewrite Js_sum_sumR, (sumR_const 0).
  - ring.
  - apply Forall_forall. intros v Hv. apply repeat_spec in Hv. now subst.
Qed.

Lemma same_landmarks_repeat (fs : list PoseFrame) (ls : Landmarks) :
  Forall (fun f => landmarks f = ls) fs -> map landmarks fs = repeat ls (length fs).
Proof.
  induction 1 as [|f fs Hf _ IH]; [reflexivity|].
  cbn [map length repeat]. now rewrite Hf, IH.
Qed.

Lemma calculateTimingScore_still (fs : list PoseFrame) (ls : Landmarks)
    (Hsame : Forall (fun f => landmarks f = ls) fs) (Hlen : (5 <= length fs)%nat) :
  Scoring.calculateTimingScore (map landmarks fs) fs = Ok 5.
Proof.
  rewrite (same_landmarks_repeat fs ls Hsame).
  unfold Scoring.calculateTimingScore.
  replace (length fs <? 5)%nat with false by (symmetry; apply Nat.ltb_ge; lia).
  destruct (length fs) as [|m] eqn:E; [lia|].
  cbn [repeat]. rewrite movementsLoop_still. cbn [bind app]. cbv zeta.
  rewrite sum_zeros.
  assert (Hm : INR (length (repeat 0 m)) <> 0).
  { rewrite repeat_length. apply not_0_INR. lia. }
  replace (0 / INR (length (repeat 0 m))) with 0 by (field; exact Hm).
  assert (E1 : Js.gtb 0 (1 / 100) = false) by (js_cmp; reflexivity).
  assert (E2 : Js.gtb 0 (5 / 1000) = false) by (js_cmp; reflexivity).
  rewrite E1, E2. reflexivity.
Qed.

(** [X30] The timing subscore is 8 below five frames and one of 5, 10 and 15
    from five frames on; it is the lowest value 5 when every frame holds the
    same pose. *)
Theorem calculateTimingScore_cases (fs : list PoseFrame) (t : R)
    (Hrun : Scoring.calculateTimingScore (map landmarks fs) fs = Ok t) :
  ((length fs < 5)%nat -> t = 8)
  /\ ((5 <= length fs)%nat -> t = 5 \/ t = 10 \/ t = 15)
  /\ (forall ls,
        (5 <= length fs)%nat -> Forall (fun f => landmarks f = ls) fs -> t = 5).
Proof.
  split; [|split].
  - intros Hlen. unfold Scoring.calculateTimingScore in Hrun.
    replace (length fs <? 5)%nat with true in Hrun by (symmetry; apply Nat.ltb_lt; lia).
    now injection Hrun as <-.
  - intros Hlen. unfold Scoring.calculateTimingScore in Hrun.
    replace (length fs <? 5)%nat with false in Hrun by (symmetry; apply Nat.ltb_ge; lia).
    apply bind_ok in Hrun. destruct Hrun as [ms [_ Hrun]]. cbv zeta in Hrun.
    revert Hrun. case_ifs; intros Hrun; injection Hrun as <-; auto.
  - intros ls Hlen Hsame.
    rewrite (calculateTimingScore_still fs ls Hsame Hlen) in Hrun. now injection Hrun as <-.
Qed.

Lemma calculateTimingScore_cases_witness :
  Scoring.calculateTimingScore (map landmarks (repeat (mkFrame 0 restPose) 6))
    (repeat (mkFrame 0 restPose) 6) = Ok 5.
Proof.
  destruct (calculateTimingScore_total (map landmarks (repeat (mkFrame 0 restPose) 6))
              (repeat (mkFrame 0 restPose) 6) ltac:(repeat constructor)) as [t Ht].
  rewrite Ht. f_equal.
  apply (proj2 (proj2 (calculateTimingScore_cases _ t Ht)) restPose).
  - simpl. lia.
  - repeat constructor.
Defined.

(** *** The feedback rules *)




Lemma ltb_iff (v c : R) : Js.ltb v c = true <-> v < c.
Proof.
  unfold Js.ltb. destruct (Rlt_dec v c); split; intros; try discriminate; tauto.
Qed.







Lemma generateFeedback_warnings (scores : Scoring.Scores) (fs : list PoseFrame)
    (f : PoseFrame) (ctx : Scoring.ScoringContext) (fb : Scoring.Feedback)
    (fr : FramingQuality) :
  Metrics.checkFramingQuality (landmarks f) = Ok fr ->
  Scoring.generateFeedback scores (fs ++ [f]) ctx = Ok fb ->
  Scoring.warnings fb
  = (if (length (fs ++ [f]) <? 50)%nat
     then ["feedback.warnings.lowFrameCount"%string] else [])
    ++ (if Js.ltb (overallScore fr) 60
        then ["feedback.warnings.poorFraming"%string] else [])
    ++ (match Scoring.calibration ctx with
        | Some c =>
            match viewAngle c with
            | side => ["feedback.warnings.sidewaysView"%string]
            | _ => []
            end
        | None => []
        end).
Proof.
  intros Hfr Hrun. unfold Scoring.generateFeedback in Hrun. cbv zeta in Hrun.
  replace (0 <? length (fs ++ [f]))%nat with true in Hrun
    by (symmetry; apply Nat.ltb_lt; rewrite length_app; simpl; lia).
  rewrite at_snoc in Hrun. cbn [bind] in Hrun. rewrite Hfr in Hrun. cbn [bind] in Hrun.
  destruct (length (fs ++ [f]) <? 50)%nat; destruct (Js.ltb (overallScore fr) 60);
    cbn [bind] in Hrun; injection Hrun as <-; cbn [Scoring.warnings];
    unfold Scoring.slice3;
    (destruct (Scoring.calibration ctx) as [c|]; [destruct (viewAngle c)|]); reflexivity.
Qed.

Lemma flag_false (b : bool) (P : Prop) : (b = true <-> P) -> (b = false <-> ~ P).
Proof. intros H. destruct b; split; intros; try discriminate; intuition (try discriminate). Qed.

Lemma side_calibration_iff (cal : option CalibrationData) :
  (exists c, cal = Some c /\ viewAngle c = side)
  <-> match cal with
      | Some c => match viewAngle c with side => True | _ => False end
      | None => False
      end.
Proof.
  destruct cal as [c|].
  - destruct (viewAngle c) eqn:Ec.
    + split; [intros [c' [E Hs]]; injection E as <-; congruence | contradiction].
    + split; [intros [c' [E Hs]]; injection E as <-; congruence | contradiction].
    + split; [trivial | intros _; exists c; auto].
  - split; [intros [c [E _]]; discriminate | contradiction].
Qed.

(** [X12] Which warnings [generateFeedback] reports for a non-empty frame list
    whose last frame has 33 points: low frame count exactly below 50 frames;
    poor framing exactly when at most one of head, hips and ankles is visible
    in the last frame; sideways view exactly when the calibration says the
    view angle is side. *)
Theorem feedback_warning_rules (scores : Scoring.Scores) (fs : list PoseFrame)
    (f : PoseFrame) (ctx : Scoring.ScoringContext) (fb : Scoring.Feedback)
    (Hwf : wfPose (landmarks f))
    (Hrun : Scoring.generateFeedback scores (fs ++ [f]) ctx = Ok fb) :
  let vis i := visibleLm (nth i (landmarks f) originLm) in
  let head := vis 0%nat in
  let hips := vis 23%nat /\ vis 24%nat in
  let ankles := vis 27%nat /\ vis 28%nat in
  (In "feedback.warnings.lowFrameCount"%string (Scoring.warnings fb)
   <-> (length (fs ++ [f]) < 50)%nat)
  /\ (In "feedback.warnings.poorFraming"%string (Scoring.warnings fb)
      <-> (~ head /\ ~ hips) \/ (~ head /\ ~ ankles) \/ (~ hips /\ ~ ankles))
  /\ (In "feedback.warnings.sidewaysView"%string (Scoring.warnings fb)
      <-> exists c, Scoring.calibration ctx = Some c /\ viewAngle c = side).
Proof.
  intros vis head hips ankles.
  destruct (checkFramingQuality_total _ Hwf) as [fr Hfr].
  destruct (checkFramingQuality_flags (landmarks f) fr _ _ _ _ _
              (at_nth _ 0 Hwf ltac:(lia)) (at_nth _ 23 Hwf ltac:(lia))
              (at_nth _ 24 Hwf ltac:(lia)) (at_nth _ 27 Hwf ltac:(lia))
              (at_nth _ 28 Hwf ltac:(lia)) Hfr)
    as [Vh [Vp [Va [_ [Hlow _]]]]].
  apply flag_false in Vh, Vp, Va.
  assert (HP : Js.ltb (overallScore fr) 60 = true
               <-> (~ head /\ ~ hips) \/ (~ head /\ ~ ankles) \/ (~ hips /\ ~ ankles)).
  { rewrite ltb_iff, Hlow, Vh, Vp, Va. reflexivity. }
  pose proof (side_calibration_iff (Scoring.calibration ctx)) as HS.
  rewrite (generateFeedback_warnings scores fs f ctx fb fr Hfr Hrun), HS.
  clear - HP. revert HP.
  generalize ((~ head /\ ~ hips) \/ (~ head /\ ~ ankles) \/ (~ hips /\ ~ ankles)).
  clear. intros poor HP.
  destruct (Nat.ltb_spec (length (fs ++ [f])) 50) as [Hl | Hl];
    destruct (Js.ltb (overallScore fr) 60);
    (destruct (Scoring.calibration ctx) as [c|]; [destruct (viewAngle c)|]);
    cbn [app In];
    (split; [split; intros; try lia; intuition discriminate|]);
    (split; [rewrite <- HP; split; intros; intuition discriminate|]);
    split; intros; intuition discriminate.
Qed.

(** *** The reported scores *)

Lemma feedback_warning_rules_witness :
  exists fb,
    Scoring.generateFeedback (Scoring.mkScores 25 20 40 15)
      ([] ++ [mkFrame 0 upperBodyPose]) noContext = Ok fb
    /\ In "feedback.warnings.lowFrameCount"%string (Scoring.warnings fb)
    /\ ~ In "feedback.warnings.sidewaysView"%string (Scoring.warnings fb).
Proof.
  destruct (generateFeedback_total (Scoring.mkScores 25 20 40 15)
              ([] ++ [mkFrame 0 upperBodyPose]) noContext
              ltac:(repeat constructor)) as [fb Hfb].
  exists fb. split; [exact Hfb|].
  destruct (feedback_warning_rules _ [] (mkFrame 0 upperBodyPose) noContext fb
              wf_upperBodyPose Hfb) as [Hl [_ Hs]].
  split.
  - apply Hl. simpl. lia.
  - intros Hin. apply Hs in Hin. destruct Hin as [c [E _]]. discriminate.
Defined.

Lemma round_bounds (v : R) : Js.round v - / 2 <= v < Js.round v + / 2.
Proof.
  unfold Js.round. pose proof (Zfloor_bound (v + / 2)). lra.
Qed.

Lemma round_add_int (v : R) (k : Z) : Js.round (v + IZR k) = Js.round v + IZR k.
Proof.
  pose proof (round_bounds v) as Hb. unfold Js.round in *.
  rewrite <- plus_IZR. apply round_eq. rewrite plus_IZR. lra.
Qed.

Lemma round_between (v : R) (lo hi : Z) :
  IZR lo <= v <= IZR hi -> exists k, Js.round v = IZR k /\ (lo <= k <= hi)%Z.
Proof.
  intros Hv. exists (Zfloor (v + / 2)). split; [reflexivity|].
  pose proof (Zfloor_bound (v + / 2)) as Hb.
  split.
  - apply Zfloor_lub. lra.
  - assert (H : (Zfloor (v + / 2) < hi + 1)%Z); [|lia].
    apply lt_IZR. rewrite plus_IZR. lra.
Qed.

Lemma round_sum_close (a b : R) :
  -1 <= Js.round (a + b) - (Js.round a + Js.round b) <= 1.
Proof.
  pose proof (round_bounds a) as Ha. pose proof (round_bounds b) as Hb.
  pose proof (round_bounds (a + b)) as Hab.
  unfold Js.round in *.
  set (ka := Zfloor (a + / 2)) in *. set (kb := Zfloor (b + / 2)) in *.
  set (kab := Zfloor (a + b + / 2)) in *.
  assert (H1 : (kab - (ka + kb) < 2)%Z).
  { apply lt_IZR. rewrite minus_IZR, plus_IZR. lra. }
  assert (H2 : (-2 < kab - (ka + kb))%Z).
  { apply lt_IZR. rewrite minus_IZR, plus_IZR. lra. }
  rewrite <- plus_IZR, <- minus_IZR.
  split; [replace (-1) with (IZR (-1)) by reflexivity | replace 1 with (IZR 1) by reflexivity];
    apply IZR_le; lia.
Qed.

(** [X13] For every list of 33-point frames [generateScore] returns a result that
    keeps the frames and their number, and whose reported scores are whole
    numbers: guard in 0..25, stability in 0..20, execution one of 0, 10, 20,
    25, 30, 40, timing one of 5, 8, 10, 15, and overall in 5..100.  The cap at
    100 never cuts, and overall differs from the sum of the four reported
    subscores by at most 1. *)
Theorem generateScore_reported_scores (fs : list PoseFrame) (ctx : Scoring.ScoringContext)
    (Hwf : Forall wfFrame fs) :
  exists r kg ks ko,
    Scoring.generateScore fs ctx = Ok r
    /\ frameCount r = length fs /\ frames r = fs
    /\ guard (score r) = IZR kg /\ (0 <= kg <= 25)%Z
    /\ stability (score r) = IZR ks /\ (0 <= ks <= 20)%Z
    /\ In (execution (score r)) [0; 10; 20; 25; 30; 40]
    /\ In (timing (score r)) [5; 8; 10; 15]
    /\ overall (score r) = IZR ko /\ (5 <= ko <= 100)%Z
    /\ -1 <= overall (score r)
             - (guard (score r) + stability (score r)
                + execution (score r) + timing (score r)) <= 1.
Proof.
  destruct (generateScore_total fs ctx Hwf) as [g [s [e [t [fb [Hg [Hs [He [Ht [_ Hr]]]]]]]]]].
  pose proof (Forall_wf_map fs Hwf) as Hwf'.
  destruct (calculateGuardScore_range _ (Scoring.calibration ctx) Hwf') as [g' [Hg' Rg]].
  rewrite Hg in Hg'. injection Hg' as <-.
  destruct (calculateStabilityScore_spec _ Hwf') as [st [s' [_ [Hs' [Rs _]]]]].
  rewrite Hs in Hs'. injection Hs' as <-.
  pose proof (calculateExecutionScore_values _ _ _ He) as Ve.
  pose proof (calculateTimingScore_values _ _ _ Ht) as Vt.
  destruct (round_between g 0 25 ltac:(simpl; lra)) as [kg [Ekg Rkg]].
  destruct (round_between s 0 20 ltac:(simpl; lra)) as [ks [Eks Rks]].
  destruct (round_between (g + s) 0 45 ltac:(simpl; lra)) as [kgs [Ekgs Rkgs]].
  assert (Ie : exists ke, e = IZR ke /\ (0 <= ke <= 40)%Z).
  { destruct Ve as [-> | [-> | [-> | [-> | [-> | ->]]]]];
      [exists 0%Z | exists 10%Z | exists 20%Z | exists 25%Z | exists 30%Z | exists 40%Z];
      split; (reflexivity || lia). }
  assert (It : exists kt, t = IZR kt /\ (5 <= kt <= 15)%Z).
  { destruct Vt as [-> | [-> | [-> | ->]]];
      [exists 5%Z | exists 8%Z | exists 10%Z | exists 15%Z];
      split; (reflexivity || lia). }
  destruct Ie as [ke [Eke Rke]]. destruct It as [kt [Ekt Rkt]].
  assert (Eo : Js.round (g + s + e + t) = IZR (kgs + ke + kt)).
  { rewrite Ekt, Eke, !round_add_int, Ekgs, !plus_IZR. reflexivity. }
  assert (Em : Rmin 100 (Js.round (g + s + e + t)) = IZR (kgs + ke + kt)).
  { rewrite Eo. apply Rmin_right.
    replace 100 with (IZR 100) by reflexivity. apply IZR_le. lia. }
  pose proof (round_sum_close g s) as Hc.
  eexists. exists kg, ks, (kgs + ke + kt)%Z.
  split; [exact Hr|].
  cbn [frameCount frames score guard stability execution timing overall].
  rewrite Em.
  assert (Ere : Js.round e = e) by (rewrite Eke; apply round_int).
  assert (Ert : Js.round t = t) by (rewrite Ekt; apply round_int).
  rewrite Ere, Ert.
  repeat (split; [first [reflexivity | assumption | lia]|]).
  split.
  { cbn [In]. destruct Ve as [-> | [-> | [-> | [-> | [-> | ->]]]]]; auto 10. }
  split.
  { cbn [In]. destruct Vt as [-> | [-> | [-> | ->]]]; auto 10. }
  split; [reflexivity|]. split; [lia|].
  rewrite !plus_IZR, <- Ekgs, <- Eke, <- Ekt. lra.
Qed.

Lemma generateScore_reported_scores_witness :
  exists r, Scoring.generateScore frames5 noContext = Ok r
            /\ 5 <= overall (score r) <= 100.
Proof.
  destruct (generateScore_reported_scores frames5 noContext wf_frames5)
    as [r [kg [ks [ko [Hr [_ [_ [_ [_ [_ [_ [_ [_ [Ho [Rko _]]]]]]]]]]]]]]].
  exists r. split; [exact Hr|]. rewrite Ho.
  split; [replace 5 with (IZR 5) by reflexivity | replace 100 with (IZR 100) by reflexivity];
    apply IZR_le; lia.
Defined.

(** [X14] An attempt of fewer than five frames is scored by default: stability
    10, execution 20 and timing 8 whatever the frames show, and overall is
    the reported guard score plus 38, between 38 and 63. *)
Theorem generateScore_short_attempt (fs : list PoseFrame) (ctx : Scoring.ScoringContext)
    (Hwf : Forall wfFrame fs) (Hlen : (length fs < 5)%nat) :
  exists r,
    Scoring.generateScore fs ctx = Ok r
    /\ stability (score r) = 10 /\ execution (score r) = 20 /\ timing (score r) = 8
    /\ overall (score r) = guard (score r) + 38
    /\ 38 <= overall (score r) <= 63.
Proof.
  destruct (generateScore_total fs ctx Hwf) as [g [s [e [t [fb [Hg [Hs [He [Ht [_ Hr]]]]]]]]]].
  pose proof (Forall_wf_map fs Hwf) as Hwf'.
  destruct (calculateGuardScore_range _ (Scoring.calibration ctx) Hwf') as [g' [Hg' Rg]].
  rewrite Hg in Hg'. injection Hg' as <-.
  assert (Hl : (length (map landmarks fs) <? 5)%nat = true)
    by (apply Nat.ltb_lt; rewrite length_map; lia).
  assert (Hl' : (length fs <? 5)%nat = true) by (apply Nat.ltb_lt; lia).
  unfold Scoring.calculateStabilityScore in Hs. rewrite Hl in Hs. injection Hs as <-.
  unfold Scoring.calculateExecutionScore in He. rewrite Hl in He. injection He as <-.
  unfold Scoring.calculateTimingScore in Ht. rewrite Hl' in Ht. injection Ht as <-.
  destruct (round_between g 0 25 ltac:(simpl; lra)) as [kg [Ekg Rkg]].
  assert (Eo : Js.round (g + 10 + 20 + 8) = Js.round g + 38).
  { replace (g + 10 + 20 + 8) with (g + IZR 38) by (simpl; lra).
    rewrite round_add_int. reflexivity. }
  assert (Bg : 0 <= IZR kg <= 25).
  { split; [replace 0 with (IZR 0) by reflexivity | replace 25 with (IZR 25) by reflexivity];
      apply IZR_le; lia. }
  eexists. split; [exact Hr|].
  cbn [score guard stability execution timing overall].
  rewrite Eo, Ekg.
  replace 10 with (IZR 10) by reflexivity. replace 20 with (IZR 20) by reflexivity.
  replace 8 with (IZR 8) by reflexivity. rewrite !round_int.
  rewrite Rmin_right by lra.
  repeat split; lra.
Qed.

Lemma generateScore_short_attempt_witness :
  exists r, Scoring.generateScore [mkFrame 7 restPose] noContext = Ok r
            /\ stability (score r) = 10 /\ execution (score r) = 20
            /\ timing (score r) = 8.
Proof.
  destruct (generateScore_short_attempt [mkFrame 7 restPose] noContext
              ltac:(repeat constructor) ltac:(simpl; lia))
    as [r [Hr [Hs [He [Ht _]]]]].
  exists r. repeat split; assumption.
Defined.

Lemma filter_repeat {A : Type} (p : A -> bool) (a : A) (n : nat) :
  filter p (repeat a n) = if p a then repeat a n else [].
Proof.
  induction n as [|n IH]; [now destruct (p a)|].
  cbn [repeat filter]. rewrite IH. now destruct (p a).
Qed.

Lemma firingRatio_repeat (detect : Landmarks -> Side -> Outcome (bool * R))
    (ls : Landmarks) (n : nat) :
  (0 < n)%nat ->
  firingRatio detect (repeat ls n) = if firesOn detect ls then 1 else 0.
Proof.
  intros Hn. unfold firingRatio. rewrite filter_repeat.
  assert (Hp : 0 < INR n) by (apply lt_0_INR; lia).
  destruct (firesOn detect ls); rewrite ?repeat_length; cbn [length INR].
  - field. lra.
  - unfold Rdiv. ring.
Qed.

Lemma credit_all_or_none (b : bool) :
  (punchCredit (if b then 1 else 0) = 0 \/ punchCredit (if b then 1 else 0) = 10)
  /\ (kneeCredit (if b then 1 else 0) = 0 \/ kneeCredit (if b then 1 else 0) = 10).
Proof.
  unfold punchCredit, kneeCredit.
  destruct b; split; js_cmp; cbn [andb]; auto.
Qed.

Lemma mapM_repeat {A B : Type} (f : A -> Outcome B) (a : A) (b : B) (n : nat) :
  f a = Ok b -> Metrics.mapM f (repeat a n) = Ok (repeat b n).
Proof.
  intros Hf. induction n as [|n IH]; [reflexivity|].
  cbn [repeat Metrics.mapM]. rewrite Hf, IH. reflexivity.
Qed.

Lemma execution_motionless (ls : Landmarks) (n : nat) (mt : list string) (e : R) :
  (5 <= n)%nat ->
  Scoring.calculateExecutionScore (repeat ls n) mt = Ok e ->
  e = 0 \/ e = 10 \/ e = 20 \/ e = 25.
Proof.
  intros Hn He.
  destruct (calculateExecutionScore_formula _ _ _ He) as [_ Hf].
  rewrite repeat_length in Hf. specialize (Hf Hn). cbv zeta in Hf.
  rewrite !firingRatio_repeat in Hf by lia.
  destruct (credit_all_or_none (firesOn Metrics.detectPunchExtension ls)) as [Vp _].
  destruct (credit_all_or_none (firesOn Metrics.detectKneeLift ls)) as [_ Vk].
  destruct (Scoring.includes mt "punch");
    destruct (Scoring.includes mt "kick" || Scoring.includes mt "knee");
    pick_value.
Qed.

(** [X15] An attempt of at least five frames in which the pose never changes
    gets the full stability 20, the lowest timing 5 and an execution of at
    most 25, so its overall score is at most 75. *)
Theorem generateScore_motionless (fs : list PoseFrame) (ls : Landmarks)
    (ctx : Scoring.ScoringContext)
    (Hwf : wfPose ls) (Hsame : Forall (fun f => landmarks f = ls) fs)
    (Hlen : (5 <= length fs)%nat) :
  exists r,
    Scoring.generateScore fs ctx = Ok r
    /\ stability (score r) = 20 /\ timing (score r) = 5
    /\ In (execution (score r)) [0; 10; 20; 25]
    /\ overall (score r) <= 75.
Proof.
  assert (Hwfs : Forall wfFrame fs).
  { eapply Forall_impl; [|exact Hsame]. intros f <-. exact Hwf. }
  destruct (generateScore_total fs ctx Hwfs) as [g [s [e [t [fb [Hg [Hs [He [Ht [_ Hr]]]]]]]]]].
  pose proof (Forall_wf_map fs Hwfs) as Hwf'.
  destruct (calculateGuardScore_range _ (Scoring.calibration ctx) Hwf') as [g' [Hg' Rg]].
  rewrite Hg in Hg'. injection Hg' as <-.
  rewrite (calculateTimingScore_still fs ls Hsame Hlen) in Ht. injection Ht as <-.
  pose proof (same_landmarks_repeat fs ls Hsame) as Hrep.
  destruct (hipCenter_total ls Hwf) as [p Hp].
  destruct (calculateStability_same_hips (map landmarks fs)
              (repeat p (length fs)) p) as [_ Hst].
  { rewrite Hrep. now apply mapM_repeat. }
  { apply Forall_forall. intros q Hq. apply repeat_spec in Hq. now subst q. }
  rewrite Hst in Hs by (rewrite length_map; exact Hlen). injection Hs as <-.
  rewrite Hrep in He. pose proof (execution_motionless ls _ _ e Hlen He) as Ve.
  assert (Ie : exists ke, e = IZR ke /\ (0 <= ke <= 25)%Z).
  { destruct Ve as [-> | [-> | [-> | ->]]];
      [exists 0%Z | exists 10%Z | exists 20%Z | exists 25%Z];
      split; (reflexivity || lia). }
  destruct Ie as [ke [Eke Rke]].
  assert (Be : 0 <= e <= 25).
  { destruct Ve as [-> | [-> | [-> | ->]]]; lra. }
  destruct (round_between (g + 20 + e + 5) 0 75 ltac:(simpl; lra)) as [ko [Eko Rko]].
  eexists. split; [exact Hr|].
  cbn [score stability execution timing overall].
  replace 20 with (IZR 20) by reflexivity. replace 5 with (IZR 5) by reflexivity.
  rewrite !round_int.
  assert (Ere : Js.round e = e) by (rewrite Eke; apply round_int).
  rewrite Ere.
  split; [reflexivity|]. split; [reflexivity|].
  split.
  { cbn [In]. destruct Ve as [-> | [-> | [-> | ->]]]; auto 10. }
  eapply Rle_trans; [apply Rmin_r|].
  change (IZR 20) with 20. change (IZR 5) with 5. rewrite Eko.
  replace 75 with (IZR 75) by reflexivity. apply IZR_le. lia.
Qed.

Lemma generateScore_motionless_witness :
  exists r, Scoring.generateScore (repeat (mkFrame 0 restPose) 6) noContext = Ok r
            /\ stability (score r) = 20 /\ timing (score r) = 5
            /\ overall (score r) <= 75.
Proof.
  destruct (generateScore_motionless (repeat (mkFrame 0 restPose) 6) restPose noContext
              wf_restPose ltac:(repeat constructor) ltac:(simpl; lia))
    as [r [Hr [Hs [Ht [_ Ho]]]]].
  exists r. repeat split; assumption.
Defined.

(** *** Runs of calibration ticks *)



Ltac open_tick H :=
  unfold Calibration.processFrame in H;
  repeat match type of H with
         | bind _ _ = Ok _ =>
             let a := fresh "a" in
             let E := fresh "E" in
             apply bind_ok in H; destruct H as [a [E H]]
         end;
  cbv zeta in H.

Lemma processFrame_frame (s s' : Calibration.State) (d : option Landmarks) (now : R) :
  Calibration.processFrame s d now = Ok s' ->
  Calibration.stance s' = Calibration.stance s
  /\ Calibration.wearingGloves s' = Calibration.wearingGloves s
  /\ (Calibration.step s = Calibration.confirm -> Calibration.step s' = Calibration.confirm)
  /\ (Calibration.step s' <> Calibration.confirm \/ Calibration.step s = Calibration.confirm ->
      selection s' = selection s).
Proof.
  intros H. destruct d as [lms|]; [|injection H as <-; tauto].
  open_tick H. unfold selection.
  destruct (10 <=? _)%nat; [|injection H as <-; cbn; tauto].
  destruct (Js.ltb _ _); destruct (Calibration.step s) eqn:Es;
    try (injection H as <-; cbn; rewrite ?Es;
         repeat split; try reflexivity; try discriminate; intros [C | C]; congruence).
  destruct (Js.geb _ _).
  - apply bind_ok in H. destruct H as [nose [_ H]].
    apply bind_ok in H. destruct H as [lw [_ H]].
    apply bind_ok in H. destruct H as [rw [_ H]].
    injection H as <-. cbn.
    repeat split; try reflexivity; try discriminate; intros [C | C]; congruence.
  - injection H as <-; cbn.
    repeat split; try reflexivity; try discriminate; intros [C | C]; congruence.
Qed.

(** [X16] Along any run of calibration ticks the stance and the gloves selection
    never change and a confirmed calibration stays confirmed; as long as the
    run has not reached the confirm step, the baselines and the selected view
    angle are those of the start, and ticks that arrive after the confirmation
    leave them as captured. *)
Theorem run_keeps_selection (ticks : list (option Landmarks * R))
    (s s' : Calibration.State) (Hrun : Calibration.run s ticks = Ok s') :
  Calibration.stance s' = Calibration.stance s
  /\ Calibration.wearingGloves s' = Calibration.wearingGloves s
  /\ (Calibration.step s = Calibration.confirm -> Calibration.step s' = Calibration.confirm)
  /\ (Calibration.step s' <> Calibration.confirm \/ Calibration.step s = Calibration.confirm ->
      selection s' = selection s).
Proof.
  revert s Hrun. induction ticks as [|[d now] ticks IH]; intros s Hrun.
  - injection Hrun as <-. tauto.
  - cbn [Calibration.run] in Hrun. apply bind_ok in Hrun.
    destruct Hrun as [s1 [H1 Hrest]].
    destruct (processFrame_frame s s1 d now H1) as [A1 [B1 [C1 D1]]].
    destruct (IH s1 Hrest) as [A2 [B2 [C2 D2]]].
    clear H1 Hrest IH.
    split; [congruence|]. split; [congruence|]. split; [tauto|].
    intros Hc.
    assert (Dec : Calibration.step s1 = Calibration.confirm
                  \/ Calibration.step s1 <> Calibration.confirm)
      by (destruct (Calibration.step s1); [right | right | left]; congruence).
    destruct Hc as [Hc | Hc].
    + destruct Dec as [Dc | Dc]; [elim Hc; tauto|].
      rewrite D2 by tauto. apply D1. tauto.
    + rewrite D2 by tauto. apply D1. tauto.
Qed.

Lemma run_keeps_selection_witness :
  exists s',
    Calibration.run holdingState [(None, 0); (Some steadyPose, 4000); (None, 4001)] = Ok s'
    /\ Calibration.stance s' = orthodox /\ Calibration.wearingGloves s' = false.
Proof.
  destruct holding_confirms_example as [s' [Hrun _]].
  assert (Hr : Calibration.run holdingState
                 [(None, 0); (Some steadyPose, 4000); (None, 4001)] = Ok s').
  { cbn [Calibration.run]. change (Calibration.processFrame holdingState None 0)
      with (Ok holdingState). cbn [bind]. rewrite Hrun. reflexivity. }
  exists s'. split; [exact Hr|].
  destruct (run_keeps_selection _ _ _ Hr) as [Hs [Hg _]].
  split; [exact Hs | exact Hg].
Defined.

Lemma processFrame_filling (s s' : Calibration.State) (lms : Landmarks) (now : R) :
  Calibration.processFrame s (Some lms) now = Ok s' ->
  (length (Calibration.stabilityBuffer s) < 9)%nat ->
  Calibration.step s' = Calibration.step s
  /\ Calibration.holdProgress s' = Calibration.holdProgress s
  /\ Calibration.holdStartTime s' = Calibration.holdStartTime s
  /\ length (Calibration.stabilityBuffer s') = S (length (Calibration.stabilityBuffer s)).
Proof.
  intros H Hlen. open_tick H.
  assert (Hl : length (Calibration.pushSample (Calibration.stabilityBuffer s) a1)
               = S (length (Calibration.stabilityBuffer s))).
  { rewrite pushSample_length by lia. lia. }
  replace (10 <=? _)%nat with false in H by (symmetry; apply Nat.leb_gt; lia).
  injection H as <-. cbn. auto.
Qed.

(** [X17] While the rolling buffer has not reached ten samples nothing happens
    but sampling: a run whose detected poses, added to the samples already in
    the buffer, stay below ten leaves the step, the hold progress, the hold
    start, the baselines and the view angle untouched, each detected pose
    adding one sample.  In particular a recalibration needs ten detected
    frames before the hold can start. *)
Theorem run_needs_ten_frames (ticks : list (option Landmarks * R))
    (s s' : Calibration.State) (Hrun : Calibration.run s ticks = Ok s')
    (Hfew : (length (Calibration.stabilityBuffer s) + detectedTicks ticks < 10)%nat) :
  Calibration.step s' = Calibration.step s
  /\ Calibration.holdProgress s' = Calibration.holdProgress s
  /\ Calibration.holdStartTime s' = Calibration.holdStartTime s
  /\ selection s' = selection s
  /\ length (Calibration.stabilityBuffer s')
     = (length (Calibration.stabilityBuffer s) + detectedTicks ticks)%nat.
Proof.
  revert s Hrun Hfew. induction ticks as [|[d now] ticks IH]; intros s Hrun Hfew.
  - injection Hrun as <-. unfold detectedTicks. cbn. repeat split; lia.
  - cbn [Calibration.run] in Hrun. apply bind_ok in Hrun.
    destruct Hrun as [s1 [H1 Hrest]].
    destruct d as [lms|].
    + assert (Hd : detectedTicks ((Some lms, now) :: ticks) = S (detectedTicks ticks))
        by reflexivity.
      rewrite Hd in *.
      destruct (processFrame_filling s s1 lms now H1 ltac:(lia)) as [A [B [C D]]].
      destruct (IH s1 Hrest ltac:(lia)) as [A' [B' [C' [S' D']]]].
      destruct (processFrame_frame s s1 _ now H1) as [_ [_ [_ Hsel]]].
      assert (Hs1 : selection s1 = selection s).
      { apply Hsel. destruct (Calibration.step s1) eqn:E1;
          [left; discriminate | left; discriminate | right; congruence]. }
      repeat split; try congruence. lia.
    + injection H1 as <-.
      assert (Hd : detectedTicks ((None, now) :: ticks) = detectedTicks ticks) by reflexivity.
      rewrite Hd in *. apply IH; assumption.
Qed.

Lemma run_needs_ten_frames_witness :
  exists s',
    Calibration.run (Calibration.handleRecalibrate holdingState)
      [(None, 0); (Some steadyPose, 1)] = Ok s'
    /\ Calibration.step s' = Calibration.detecting
    /\ length (Calibration.stabilityBuffer s') = 1%nat.
Proof.
  destruct (processFrame_step (Calibration.handleRecalibrate holdingState) steadyPose 1 eq_refl)
    as [s' [sw [_ [_ [_ [_ [_ [_ [_ [Hrun _]]]]]]]]]].
  assert (Hr : Calibration.run (Calibration.handleRecalibrate holdingState)
                 [(None, 0); (Some steadyPose, 1)] = Ok s').
  { cbn [Calibration.run].
    change (Calibration.processFrame (Calibration.handleRecalibrate holdingState) None 0)
      with (Ok (Calibration.handleRecalibrate holdingState)).
    cbn [bind]. rewrite Hrun. reflexivity. }
  exists s'. split; [exact Hr|].
  destruct (run_needs_ten_frames _ _ _ Hr ltac:(cbv; lia)) as [Hs [_ [_ [_ Hl]]]].
  split; [exact Hs | exact Hl].
Defined.

(** [X18] On the tick that confirms a calibration the hold progress is exactly
    100, and the record [handleConfirm] then builds has version 1, the view
    angle estimated on that very frame (the earlier selection is overwritten),
    the stance and gloves selection of before, the captured baselines, and the
    framing quality of that frame: the built-in default framing is not used. *)
Theorem confirming_tick_record (s s' : Calibration.State) (lms : Landmarks) (now : R)
    (Hrun : Calibration.processFrame s (Some lms) now = Ok s')
    (Hpre : Calibration.step s <> Calibration.confirm)
    (Hpost : Calibration.step s' = Calibration.confirm) :
  exists fr angle,
    Metrics.checkFramingQuality lms = Ok fr
    /\ Metrics.estimateViewAngle lms = Ok angle
    /\ Calibration.holdProgress s' = 100
    /\ Calibration.detectedViewAngle s' = angle
    /\ forall dateNow,
         Calibration.handleConfirm s' dateNow
         = mkCalibration 1 dateNow angle (Calibration.stance s) (Calibration.wearingGloves s)
             (Calibration.baselineScale s') (Calibration.baselineGuardHeight s') fr.
Proof.
  open_tick Hrun. exists a, a0. split; [exact E|]. split; [exact E0|].
  destruct (10 <=? _)%nat; [|injection Hrun as <-; cbn in Hpost; congruence].
  destruct (Js.ltb _ _); destruct (Calibration.step s) eqn:Es;
    try (injection Hrun as <-; cbn in Hpost; congruence).
  destruct (Js.geb _ _) eqn:Eg; [|injection Hrun as <-; cbn in Hpost; congruence].
  apply geb_true_iff in Eg.
  apply bind_ok in Hrun. destruct Hrun as [nose [_ Hrun]].
  apply bind_ok in Hrun. destruct Hrun as [lw [_ Hrun]].
  apply bind_ok in Hrun. destruct Hrun as [rw [_ Hrun]].
  injection Hrun as <-. cbn. unfold Calibration.handleConfirm. cbn.
  repeat split; try reflexivity.
  apply Rmin_left. unfold Calibration.HOLD_DURATION in *.
  set (el := now - _) in *. lra.
Qed.

Lemma confirming_tick_record_witness :
  exists s' fr,
    Calibration.processFrame holdingState (Some steadyPose) 4000 = Ok s'
    /\ Calibration.holdProgress s' = 100
    /\ framingQuality (Calibration.handleConfirm s' 0) = fr
    /\ Metrics.checkFramingQuality steadyPose = Ok fr.
Proof.
  destruct holding_confirms_example as [s' [Hrun [Hc _]]].
  destruct (confirming_tick_record holdingState s' steadyPose 4000 Hrun
              ltac:(discriminate) Hc) as [fr [angle [Hf [_ [Hp [_ Hrec]]]]]].
  exists s', fr. split; [exact Hrun|]. split; [exact Hp|].
  split; [|exact Hf]. rewrite Hrec. reflexivity.
Defined.

(** *** Move types and the combo table *)

Lemma includes_In (arr : list string) (s : string) :
  Scoring.includes arr s = true <-> In s arr.
Proof.
  unfold Scoring.includes. rewrite existsb_exists. split.
  - intros [t [Hin Heq]]. apply String.eqb_eq in Heq. now subst.
  - intros Hin. exists s. split; [assumption | apply String.eqb_refl].
Qed.

Lemma sameValueZero_eq (a b : option string) :
  Scoring.sameValueZero a b = true <-> a = b.
Proof.
  destruct a as [s|], b as [t|]; cbn [Scoring.sameValueZero].
  - rewrite String.eqb_eq. split; congruence.
  - split; discriminate.
  - split; discriminate.
  - split; reflexivity.
Qed.

Lemma setAdd_spec (types : list (option string)) (t : option string) :
  NoDup types ->
  NoDup (Scoring.setAdd types t)
  /\ (forall u, In u (Scoring.setAdd types t) <-> In u types \/ u = t)
  /\ (In t types -> Scoring.setAdd types t = types).
Proof.
  intros Hnd. unfold Scoring.setAdd.
  assert (Hin : existsb (Scoring.sameValueZero t) types = true <-> In t types).
  { rewrite existsb_exists. split.
    - intros [u [Hu Heq]]. apply sameValueZero_eq in Heq. now subst.
    - intros H. exists t. split; [exact H | now apply sameValueZero_eq]. }
  destruct (existsb (Scoring.sameValueZero t) types).
  - assert (E : In t types) by (apply Hin; reflexivity). repeat split; auto.
    + intros [H | ->]; assumption.
  - assert (Hn : ~ In t types) by (intros H; apply Hin in H; discriminate).
    repeat split.
    + apply NoDup_app; [assumption | repeat constructor; auto |].
      intros u Hu [<- | []]. contradiction.
    + intros H. apply in_app_or in H. destruct H as [H | [<- | []]]; auto.
    + intros [H | ->]; apply in_or_app; [left | right; left]; auto.
    + contradiction.
Qed.

Lemma moveTypes_fold (moves : string -> Scoring.MoveLookup) (moveIds : list string) :
  forall acc,
    NoDup acc ->
    let res := fold_left
                 (fun types id =>
                    if Scoring.truthy (moves id)
                    then Scoring.setAdd types (Scoring.typeOf (moves id))
                    else types) moveIds acc in
    NoDup res
    /\ (forall t, In t res
                  <-> In t acc
                      \/ exists id, In id moveIds /\ Scoring.truthy (moves id) = true
                                    /\ Scoring.typeOf (moves id) = t)
    /\ ((forall id, In id moveIds -> Scoring.truthy (moves id) = true ->
                    In (Scoring.typeOf (moves id)) acc) -> res = acc).
Proof.
  induction moveIds as [|id0 ids IH]; intros acc Hnd; cbn [fold_left].
  - repeat split; auto.
    + intros [H | [id [[] _]]]. exact H.
  - cbv zeta.
    set (acc1 := if Scoring.truthy (moves id0)
                 then Scoring.setAdd acc (Scoring.typeOf (moves id0))
                 else acc).
    assert (H1 : NoDup acc1
                 /\ (forall u, In u acc1
                               <-> In u acc \/ (Scoring.truthy (moves id0) = true
                                                /\ Scoring.typeOf (moves id0) = u))
                 /\ ((Scoring.truthy (moves id0) = true ->
                      In (Scoring.typeOf (moves id0)) acc) -> acc1 = acc)).
    { subst acc1. destruct (Scoring.truthy (moves id0)).
      - destruct (setAdd_spec acc (Scoring.typeOf (moves id0)) Hnd) as [A [B C]].
        repeat split; auto.
        + intros H. apply B in H. destruct H as [H | ->]; auto.
        + intros [H | [_ H]]; apply B; [left | right]; congruence.
      - repeat split; auto.
        + intros [H | [H _]]; [assumption | discriminate]. }
    destruct H1 as [Hnd1 [Hin1 Hsame1]].
    destruct (IH acc1 Hnd1) as [A [B C]]. cbv zeta in A, B, C.
    split; [exact A|]. split.
    + intros t. rewrite B, Hin1. split.
      * intros [[H | [H1 H2]] | [id [Hid Hm]]]; auto.
        -- right. exists id0. split; [left; reflexivity | auto].
        -- right. exists id. split; [right; assumption | assumption].
      * intros [H | [id [[<- | Hid] [Hm1 Hm2]]]]; auto.
        right. exists id. auto.
    + intros Hall.
      assert (E1 : acc1 = acc).
      { apply Hsame1. intros Ht. apply (Hall id0); [left; reflexivity | assumption]. }
      rewrite C; [exact E1|].
      intros id Hid Hm. rewrite E1. apply (Hall id); [right; assumption | assumption].
Qed.

Lemma getMoveTypesFromCombo_members (moveIds : list string)
    (moves : string -> Scoring.MoveLookup) (t : option string) :
  In t (Scoring.getMoveTypesFromCombo moveIds moves)
  <-> exists id, In id moveIds /\ Scoring.truthy (moves id) = true
                 /\ Scoring.typeOf (moves id) = t.
Proof.
  unfold Scoring.getMoveTypesFromCombo.
  destruct (moveTypes_fold moves moveIds [] (NoDup_nil _)) as [_ [B _]].
  cbv zeta in B. rewrite B. split; [intros [[] | H]; exact H | auto].
Qed.

Lemma definedTypes_In (types : list (option string)) (t : string) :
  In t (definedTypes types) <-> In (Some t) types.
Proof.
  unfold definedTypes. rewrite in_flat_map. split.
  - intros [[u|] [Hin Hu]]; [|contradiction]. destruct Hu as [-> | []]. exact Hin.
  - intros H. exists (Some t). split; [exact H | left; reflexivity].
Qed.

(** [X19] [getMoveTypesFromCombo] returns each member once.  A string is in the
    result exactly when some listed id is an own key whose entry has that
    type; ids that are no key are skipped; [undefined] is in the result
    exactly when some listed id is a key inherited from [Object.prototype];
    appending ids that add nothing new does not change the result.  On the
    move table, [['jab', 'toString']] gives [['punch', undefined]]. *)
Theorem getMoveTypesFromCombo_spec (moveIds : list string)
    (moves : string -> Scoring.MoveLookup) :
  NoDup (Scoring.getMoveTypesFromCombo moveIds moves)
  /\ (forall t,
        In (Some t) (Scoring.getMoveTypesFromCombo moveIds moves)
        <-> exists id, In id moveIds /\ moves id = Scoring.ownEntry t)
  /\ (In None (Scoring.getMoveTypesFromCombo moveIds moves)
      <-> exists id, In id moveIds /\ moves id = Scoring.inheritedMember)
  /\ (forall t,
        Scoring.includes
          (definedTypes (Scoring.getMoveTypesFromCombo moveIds moves)) t = true
        <-> exists id, In id moveIds /\ moves id = Scoring.ownEntry t)
  /\ (forall more,
        (forall id, In id more -> moves id <> Scoring.noEntry ->
                    exists id', In id' moveIds /\ moves id' = moves id) ->
        Scoring.getMoveTypesFromCombo (moveIds ++ more) moves
        = Scoring.getMoveTypesFromCombo moveIds moves)
  /\ Scoring.getMoveTypesFromCombo ["jab"%string; "toString"%string] Combos.MOVES_lookup
     = [Some "punch"%string; None].
Proof.
  assert (Hown : forall t,
             In (Some t) (Scoring.getMoveTypesFromCombo moveIds moves)
             <-> exists id, In id moveIds /\ moves id = Scoring.ownEntry t).
  { intros t. rewrite getMoveTypesFromCombo_members. split.
    - intros [id [Hid [Ht Hty]]]. exists id. split; [exact Hid|].
      destruct (moves id); try discriminate. cbn [Scoring.typeOf] in Hty. congruence.
    - intros [id [Hid Hm]]. exists id. rewrite Hm. auto. }
  split.
  { unfold Scoring.getMoveTypesFromCombo.
    apply (moveTypes_fold moves moveIds [] (NoDup_nil _)). }
  split; [exact Hown|]. split.
  { rewrite getMoveTypesFromCombo_members. split.
    - intros [id [Hid [Ht Hty]]]. exists id. split; [exact Hid|].
      destruct (moves id); try discriminate. reflexivity.
    - intros [id [Hid Hm]]. exists id. rewrite Hm. auto. }
  split.
  { intros t. rewrite includes_In, definedTypes_In. apply Hown. }
  split; [|reflexivity].
  intros more Hmore. unfold Scoring.getMoveTypesFromCombo. rewrite fold_left_app.
  destruct (moveTypes_fold moves moveIds [] (NoDup_nil _)) as [A _]. cbv zeta in A.
  destruct (moveTypes_fold moves more _ A) as [_ [_ C2]]. cbv zeta in C2.
  apply C2. intros id Hid Hm.
  destruct (Hmore id Hid) as [id' [Hid' Heq]].
  { intros E. rewrite E in Hm. discriminate. }
  apply (getMoveTypesFromCombo_members moveIds moves). exists id'.
  rewrite Heq. auto.
Qed.

Lemma getMoveTypesFromCombo_spec_witness :
  Scoring.getMoveTypesFromCombo (["jab"%string; "teep"%string] ++ ["cross"%string])
    Combos.MOVES_lookup
  = Scoring.getMoveTypesFromCombo ["jab"%string; "teep"%string] Combos.MOVES_lookup.
Proof.
  apply (proj1 (proj2 (proj2 (proj2 (proj2
           (getMoveTypesFromCombo_spec ["jab"%string; "teep"%string]
              Combos.MOVES_lookup)))))).
  intros id [<- | []] _. exists "jab"%string. split; [left; reflexivity | reflexivity].
Defined.

Lemma combos_table :
  Forall (fun c =>
            Combos.getComboById (Combos.comboId c) = Some c
            /\ map Combos.id (Combos.getComboMoves c) = Combos.moveIds c
            /\ ((1 <=? Combos.level c) && (Combos.level c <=? 3))%nat = true
            /\ Scoring.includes (comboMoveTypes c) "punch"
               || (Scoring.includes (comboMoveTypes c) "kick"
                   || Scoring.includes (comboMoveTypes c) "knee") = true)
    Combos.COMBOS.
Proof.
  unfold Combos.COMBOS. repeat (apply Forall_cons || apply Forall_nil);
    (split; [reflexivity|]); (split; [reflexivity|]); (split; reflexivity).
Qed.

Lemma moves_table :
  Forall (fun entry => Combos.id (snd entry) = fst entry
                       /\ Combos.MOVES (fst entry) = Some (snd entry))
    Combos.MOVES_entries.
Proof.
  unfold Combos.MOVES_entries. repeat (apply Forall_cons || apply Forall_nil);
    (split; reflexivity).
Qed.

(** [X20] The combo table is consistent with the move table: every combo is found
    by [getComboById] under its own id, has level 1, 2 or 3 and is listed by
    [getCombosByLevel] for it, and each of its move ids names a move, so
    [getComboMoves] returns exactly the listed moves in order, each of which
    [getMoveById] finds under its own id. *)
Theorem combos_resolve (c : Combos.Combo) (Hc : In c Combos.COMBOS) :
  Combos.getComboById (Combos.comboId c) = Some c
  /\ map Combos.id (Combos.getComboMoves c) = Combos.moveIds c
  /\ length (Combos.getComboMoves c) = length (Combos.moveIds c)
  /\ In c (Combos.getCombosByLevel (Combos.level c))
  /\ (Combos.level c = 1 \/ Combos.level c = 2 \/ Combos.level c = 3)%nat
  /\ (forall m, In m (Combos.getComboMoves c) ->
                Combos.getMoveById (Combos.id m) = Some m).
Proof.
  pose proof (proj1 (Forall_forall _ _) combos_table c Hc) as [H1 [H2 [H3 _]]].
  split; [exact H1|]. split; [exact H2|].
  split; [rewrite <- H2; now rewrite length_map|].
  split.
  { unfold Combos.getCombosByLevel. apply filter_In. split; [exact Hc|].
    apply Nat.eqb_refl. }
  split.
  { apply andb_true_iff in H3. destruct H3 as [Ha Hb].
    apply Nat.leb_le in Ha, Hb. lia. }
  intros m Hm. unfold Combos.getComboMoves, Combos.filterBoolean in Hm.
  apply in_flat_map in Hm. destruct Hm as [o [Ho Hm]].
  apply in_map_iff in Ho. destruct Ho as [key [Hk _]].
  destruct o as [m'|]; [|contradiction]. destruct Hm as [-> | []].
  unfold Combos.getMoveById. unfold Combos.MOVES in Hk.
  destruct (find _ Combos.MOVES_entries) as [entry|] eqn:E; [|discriminate].
  injection Hk as <-. apply find_some in E. destruct E as [Hin _].
  pose proof (proj1 (Forall_forall _ _) moves_table entry Hin) as [Hid Hl].
  rewrite Hid. exact Hl.
Qed.

Lemma combos_resolve_witness :
  let c := Combos.mkCombo "l1-jab-cross" 1 "combos.jabCross"
             ["jab"%string; "cross"%string]
             ["tips.keepGuard"%string; "tips.breathe"%string] in
  Combos.getComboById "l1-jab-cross" = Some c
  /\ length (Combos.getComboMoves c) = 2%nat.
Proof.
  intros c.
  destruct (combos_resolve c ltac:(left; reflexivity)) as [H1 [_ [H3 _]]].
  split; [exact H1 | exact H3].
Defined.

(** [X21] Every combo of the table contains a punch, a kick or a knee.  Hence,
    with the move types the practice and review phases pass to the engine,
    the execution subscore of an attempt of at least five frames is never the
    neutral 25 of a combo without checks: it is one of 0, 10, 20, 30 and 40. *)
Theorem builtin_combo_execution (c : Combos.Combo) (arr : list Landmarks) (e : R)
    (Hc : In c Combos.COMBOS) (Hlen : (5 <= length arr)%nat)
    (Hrun : Scoring.calculateExecutionScore arr (comboMoveTypes c) = Ok e) :
  (exists key, In key (Combos.moveIds c)
               /\ exists m, Combos.MOVES key = Some m
                            /\ (Combos.type m = "punch" \/ Combos.type m = "kick"
                                \/ Combos.type m = "knee")%string)
  /\ e <> 25
  /\ In e [0; 10; 20; 30; 40].
Proof.
  pose proof (proj1 (Forall_forall _ _) combos_table c Hc) as [_ [_ [_ H4]]].
  split.
  { assert (Hex : exists t, (t = "punch" \/ t = "kick" \/ t = "knee")%string
                            /\ Scoring.includes (comboMoveTypes c) t = true).
    { apply orb_true_iff in H4. destruct H4 as [H | H]; [eauto|].
      apply orb_true_iff in H. destruct H as [H | H]; eauto 6. }
    destruct Hex as [t [Ht Hin]]. unfold comboMoveTypes in Hin.
    apply includes_In, definedTypes_In, getMoveTypesFromCombo_members in Hin.
    destruct Hin as [key [Hk [_ Hm]]]. exists key. split; [exact Hk|].
    unfold Combos.MOVES_lookup in Hm.
    destruct (Combos.MOVES key) as [m|].
    - exists m. split; [reflexivity|]. cbn [Scoring.typeOf] in Hm.
      injection Hm as <-. exact Ht.
    - destruct (existsb (String.eqb key) Combos.objectPrototypeKeys); discriminate. }
  destruct (calculateExecutionScore_formula _ _ _ Hrun) as [_ Hf].
  specialize (Hf Hlen).
  destruct (credit_values (firingRatio Metrics.detectPunchExtension arr)) as [Vp _].
  destruct (credit_values (firingRatio Metrics.detectKneeLift arr)) as [_ Vk].
  assert (He : e = 0 \/ e = 10 \/ e = 20 \/ e = 30 \/ e = 40).
  { destruct (Scoring.includes (comboMoveTypes c) "punch");
      destruct (Scoring.includes (comboMoveTypes c) "kick"
                || Scoring.includes (comboMoveTypes c) "knee");
      try discriminate; pick_value. }
  split; [lra|]. cbn [In]. intuition.
Qed.

(** *** Avatar keyframes *)

Lemma builtin_combo_execution_witness :
  let c := Combos.mkCombo "l1-jab-cross" 1 "combos.jabCross"
             ["jab"%string; "cross"%string]
             ["tips.keepGuard"%string; "tips.breathe"%string] in
  exists e, Scoring.calculateExecutionScore (repeat restPose 5) (comboMoveTypes c) = Ok e
            /\ e <> 25.
Proof.
  intros c.
  destruct (calculateExecutionScore_total (repeat restPose 5) (comboMoveTypes c)
              ltac:(repeat constructor)) as [e He].
  exists e. split; [exact He|].
  exact (proj1 (proj2 (builtin_combo_execution c (repeat restPose 5) e
                         ltac:(left; reflexivity) ltac:(simpl; lia) He))).
Defined.

Lemma lerpPoint_zero (a b : Point2D) : Avatar.lerpPoint a b 0 = a.
Proof.
  destruct a as [ax ay], b as [bx by_]. unfold Avatar.lerpPoint. cbn [px py].
  f_equal; ring.
Qed.

Lemma lerpPoint_one (a b : Point2D) : Avatar.lerpPoint a b 1 = b.
Proof.
  destruct a as [ax ay], b as [bx by_]. unfold Avatar.lerpPoint. cbn [px py].
  f_equal; ring.
Qed.

Lemma lerpPose_ends (a b : AvatarPose) :
  Avatar.lerpPose a b 0 = a /\ Avatar.lerpPose a b 1 = b.
Proof.
  unfold Avatar.lerpPose. rewrite !lerpPoint_zero, !lerpPoint_one.
  destruct a, b. split; reflexivity.
Qed.

Lemma mirrorPoint_lerp (a b : Point2D) (t : R) :
  mkPoint (- px (Avatar.lerpPoint a b t)) (py (Avatar.lerpPoint a b t))
  = Avatar.lerpPoint (mkPoint (- px a) (py a)) (mkPoint (- px b) (py b)) t.
Proof. unfold Avatar.lerpPoint. cbn [px py]. f_equal. ring. Qed.

(** [X22] Mirroring twice is the identity, for [mirrorKeyframes] (which also keeps
    the times) and for [mirrorPose]; and [mirrorPose] commutes with the
    interpolation [lerpPose]. *)
Theorem avatar_pose_maps :
  (forall keyframes,
      Combos.mirrorKeyframes (Combos.mirrorKeyframes keyframes) = keyframes
      /\ map time (Combos.mirrorKeyframes keyframes) = map time keyframes)
  /\ (forall p, Avatar.mirrorPose (Avatar.mirrorPose p) = p)
  /\ (forall a b t,
        Avatar.mirrorPose (Avatar.lerpPose a b t)
        = Avatar.lerpPose (Avatar.mirrorPose a) (Avatar.mirrorPose b) t).
Proof.
  split; [|split].
  - induction keyframes as [|[t p] ks [IH1 IH2]]; [split; reflexivity|].
    unfold Combos.mirrorKeyframes in *. cbn [map time pose].
    rewrite IH1, IH2. destruct p. split; reflexivity.
  - intros p. destruct p as [[] [] [] [] [] [] [] [] [] [] [] [] []].
    unfold Avatar.mirrorPose. cbn. rewrite !Ropp_involutive. reflexivity.
  - intros a b t. unfold Avatar.mirrorPose, Avatar.lerpPose.
    cbn -[Avatar.lerpPoint]. rewrite !mirrorPoint_lerp. reflexivity.
Qed.

Lemma cube_mono (a b : R) : a <= b -> a ^ 3 <= b ^ 3.
Proof.
  intros H.
  assert (E : b ^ 3 - a ^ 3 = (b - a) * ((a + b / 2) ^ 2 + 3 / 4 * b ^ 2)) by field.
  assert (0 <= (a + b / 2) ^ 2) by apply pow2_ge_0.
  assert (0 <= b ^ 2) by apply pow2_ge_0.
  assert (0 <= (b - a) * ((a + b / 2) ^ 2 + 3 / 4 * b ^ 2)).
  { apply Rmult_le_pos; lra. }
  lra.
Qed.

Lemma ease_low (t : R) : t < 5 / 10 -> Avatar.easeInOutCubic t = 4 * t ^ 3.
Proof.
  intros H. unfold Avatar.easeInOutCubic.
  replace (Js.ltb t (5 / 10)) with true by (symmetry; apply ltb_true_iff; lra). ring.
Qed.

Lemma ease_high (t : R) : 5 / 10 <= t -> Avatar.easeInOutCubic t = 1 - 4 * (1 - t) ^ 3.
Proof.
  intros H. unfold Avatar.easeInOutCubic.
  replace (Js.ltb t (5 / 10)) with false by (symmetry; apply ltb_false_iff; lra). field.
Qed.

Lemma ease_mono (t u : R) : t <= u -> Avatar.easeInOutCubic t <= Avatar.easeInOutCubic u.
Proof.
  intros H.
  destruct (Rlt_le_dec t (5 / 10)) as [Ht | Ht]; destruct (Rlt_le_dec u (5 / 10)) as [Hu | Hu].
  - rewrite !ease_low by assumption. pose proof (cube_mono t u H). lra.
  - rewrite ease_low, ease_high by assumption.
    pose proof (cube_mono t (1 / 2) ltac:(lra)).
    pose proof (cube_mono (1 - u) (1 / 2) ltac:(lra)).
    replace ((1 / 2) ^ 3) with (1 / 8) in * by field. lra.
  - lra.
  - rewrite !ease_high by assumption.
    pose proof (cube_mono (1 - u) (1 - t) ltac:(lra)). lra.
Qed.

Lemma ease_values :
  Avatar.easeInOutCubic 0 = 0 /\ Avatar.easeInOutCubic (1 / 2) = 1 / 2
  /\ Avatar.easeInOutCubic 1 = 1.
Proof.
  rewrite (ease_low 0) by lra. rewrite (ease_high (1 / 2)), (ease_high 1) by lra.
  repeat split; field.
Qed.

(** [X23] [easeInOutCubic] maps 0, 1/2 and 1 to themselves, is non-decreasing,
    keeps the unit interval, and is point-symmetric about (1/2, 1/2). *)
Theorem easeInOutCubic_shape :
  Avatar.easeInOutCubic 0 = 0 /\ Avatar.easeInOutCubic (1 / 2) = 1 / 2
  /\ Avatar.easeInOutCubic 1 = 1
  /\ (forall t u, t <= u -> Avatar.easeInOutCubic t <= Avatar.easeInOutCubic u)
  /\ (forall t, 0 <= t <= 1 -> 0 <= Avatar.easeInOutCubic t <= 1)
  /\ (forall t, Avatar.easeInOutCubic (1 - t) = 1 - Avatar.easeInOutCubic t).
Proof.
  destruct ease_values as [E0 [Eh E1]].
  repeat (split; [assumption|]).
  split; [exact ease_mono|]. split.
  - intros t [H0 H1].
    pose proof (ease_mono 0 t H0) as L. pose proof (ease_mono t 1 H1) as U.
    rewrite E0 in L. rewrite E1 in U. split; assumption.
  - intros t.
    destruct (Rlt_le_dec t (5 / 10)) as [Ht | Ht].
    + rewrite (ease_low t), (ease_high (1 - t)) by lra. ring.
    + destruct (Req_dec t (5 / 10)) as [-> | Hne].
      * rewrite !(ease_high (5 / 10)) by lra.
        replace (1 - 5 / 10) with (5 / 10) by field.
        rewrite (ease_high (5 / 10)) by lra. field.
      * rewrite (ease_high t), (ease_low (1 - t)) by lra. ring.
Qed.

Lemma easeInOutCubic_shape_witness :
  0 <= Avatar.easeInOutCubic (1 / 4)
  /\ Avatar.easeInOutCubic (1 / 4) <= Avatar.easeInOutCubic (3 / 4)
  /\ Avatar.easeInOutCubic (3 / 4) <= 1.
Proof.
  destruct easeInOutCubic_shape as [_ [_ [_ [Hm [Hr _]]]]].
  split; [apply (Hr (1 / 4)); lra|].
  split; [apply Hm; lra | apply (Hr (3 / 4)); lra].
Defined.



Lemma findSegment_some (keyframes : list AvatarKeyframe) (t : R) (a b : AvatarKeyframe) :
  Avatar.findSegment keyframes t = Some (a, b) ->
  neighbours keyframes a b /\ time a <= t <= time b.
Proof.
  induction keyframes as [|k0 rest IH]; [discriminate|].
  cbn [Avatar.findSegment]. destruct rest as [|k1 rest']; [discriminate|].
  destruct (Js.leb (time k0) t && Js.geb (time k1) t) eqn:E.
  - intros H. injection H as <- <-. apply andb_true_iff in E. destruct E as [E1 E2].
    apply geb_true_iff in E2.
    assert (E1' : time k0 <= t).
    { unfold Js.leb in E1. destruct (Rle_dec (time k0) t); [assumption | discriminate]. }
    split; [exists [], rest'; reflexivity | lra].
  - intros H. destruct (IH H) as [[before [after Hn]] Hb].
    split; [|exact Hb]. exists (k0 :: before), after. rewrite Hn. reflexivity.
Qed.

Lemma last_step {A : Type} (a b : A) (l : list A) :
  last (a :: b :: l) a = last (b :: l) b.
Proof.
  revert a b. induction l as [|c l IH]; intros a b; [reflexivity|].
  change (last (a :: b :: c :: l) a) with (last (b :: c :: l) a).
  change (last (b :: c :: l) a) with (last (c :: l) a).
  change (last (b :: c :: l) b) with (last (c :: l) b).
  destruct l as [|d l]; [reflexivity|].
  pose proof (IH a c) as H1. pose proof (IH b c) as H2.
  change (last (a :: c :: d :: l) a) with (last (c :: d :: l) a) in H1.
  change (last (b :: c :: d :: l) b) with (last (c :: d :: l) b) in H2.
  congruence.
Qed.

Lemma findSegment_covers (rest : list AvatarKeyframe) :
  forall k0 t,
    rest <> [] -> time k0 <= t <= time (last (k0 :: rest) k0) ->
    exists a b, Avatar.findSegment (k0 :: rest) t = Some (a, b).
Proof.
  induction rest as [|k1 rest' IH]; intros k0 t Hne Ht; [congruence|].
  cbn [Avatar.findSegment].
  destruct (Js.leb (time k0) t && Js.geb (time k1) t) eqn:E; [eauto|].
  assert (Hk1 : time k1 < t).
  { apply andb_false_iff in E. destruct E as [E | E].
    - unfold Js.leb in E. destruct (Rle_dec (time k0) t); [discriminate | lra].
    - now apply geb_false_iff in E. }
  pose proof (last_step k0 k1 rest') as Hl.
  rewrite Hl in Ht.
  destruct rest' as [|k2 r].
  - cbn [last] in Ht. lra.
  - apply IH; [discriminate | lra].
Qed.

Lemma clamp_unit (p : R) : 0 <= Rmax 0 (Rmin 1 p) <= 1.
Proof.
  split; [apply Rmax_l|]. apply Rmax_lub; [lra | apply Rmin_l].
Qed.

Lemma clamp_unit_id (p : R) : 0 <= p <= 1 -> Rmax 0 (Rmin 1 p) = p.
Proof. intros H. rewrite Rmin_right by lra. apply Rmax_right. lra. Qed.

Lemma sorted_split (before : list AvatarKeyframe) :
  forall a rest,
    increasingTimes (before ++ a :: rest) ->
    Forall (fun k => time k < time a) before /\ Forall (fun k => time a < time k) rest.
Proof.
  unfold increasingTimes.
  induction before as [|k before IH]; intros a rest H; cbn [app] in H.
  - split; [constructor|]. inversion H; assumption.
  - inversion H as [|? ? Hs Hall]; subst.
    destruct (IH a rest Hs) as [Hb Hr]. split; [|exact Hr].
    constructor; [|exact Hb].
    rewrite Forall_forall in Hall. apply Hall. apply in_or_app. right. left. reflexivity.
Qed.

Lemma sorted_ends (rest : list AvatarKeyframe) :
  forall k0 k,
    increasingTimes (k0 :: rest) -> In k (k0 :: rest) ->
    time k0 <= time k <= time (last (k0 :: rest) k0).
Proof.
  unfold increasingTimes.
  induction rest as [|k1 rest' IH]; intros k0 k Hs Hin.
  - destruct Hin as [<- | []]. cbn [last]. lra.
  - inversion Hs as [|? ? Hs' Hall]; subst.
    assert (H01 : time k0 < time k1) by (inversion Hall; assumption).
    pose proof (last_step k0 k1 rest') as Hl.
    rewrite Hl.
    pose proof (IH k1 k1 Hs' (or_introl eq_refl)) as Hk1.
    destruct Hin as [<- | Hin]; [lra|].
    pose proof (IH k1 k Hs' Hin). lra.
Qed.

Lemma getPoseAtProgress_long (k0 k1 : AvatarKeyframe) (rest : list AvatarKeyframe)
    (progress : R) (a b : AvatarKeyframe) :
  Avatar.findSegment (k0 :: k1 :: rest) (Rmax 0 (Rmin 1 progress)) = Some (a, b) ->
  Avatar.getPoseAtProgress (k0 :: k1 :: rest) progress
  = if Req_dec_T (time b - time a) 0 then pose a
    else Avatar.lerpPose (pose a) (pose b)
           (Avatar.easeInOutCubic ((Rmax 0 (Rmin 1 progress) - time a) / (time b - time a))).
Proof.
  intros H. unfold Avatar.getPoseAtProgress. cbv zeta. rewrite H. reflexivity.
Qed.

Lemma findSegment_at_keyframe (before : list AvatarKeyframe) (a b : AvatarKeyframe)
    (after : list AvatarKeyframe) :
  increasingTimes (before ++ a :: b :: after) ->
  Avatar.findSegment (before ++ a :: b :: after) (time b) = Some (a, b).
Proof.
  intros Hs. destruct (sorted_split before a (b :: after) Hs) as [Hbefore Hafter].
  assert (Hab : time a < time b) by (inversion Hafter; assumption).
  clear Hs Hafter.
  induction before as [|k before IH].
  - cbn [app Avatar.findSegment].
    replace (Js.leb (time a) (time b)) with true
      by (symmetry; apply (geb_true_iff (time b) (time a)); lra).
    replace (Js.geb (time b) (time b)) with true
      by (symmetry; apply geb_true_iff; lra).
    reflexivity.
  - inversion Hbefore as [|? ? Hk Hrest]; subst.
    assert (E : forall k1 l, time k1 < time b ->
                Avatar.findSegment (k :: k1 :: l) (time b)
                = Avatar.findSegment (k1 :: l) (time b)).
    { intros k1 l Hl. cbn [Avatar.findSegment].
      replace (Js.geb (time k1) (time b)) with false
        by (symmetry; apply geb_false_iff; exact Hl).
      rewrite andb_false_r. reflexivity. }
    cbn [app]. destruct before as [|k1 before'].
    + cbn [app] in *. rewrite E by exact Hab. apply IH. constructor.
    + cbn [app] in *. rewrite E by (pose proof (Forall_inv Hrest) as Hk1; cbv beta in Hk1; lra).
      apply IH. exact Hrest.
Qed.

(** [X24] For at least two keyframes [getPoseAtProgress] clamps the progress to
    the unit interval.  When the keyframes start at or before 0 and end at or
    after 1, the result is an interpolation between two neighbouring keyframes
    with a weight within the unit interval.  When the times are strictly
    increasing, the pose at the time of the first keyframe is the
    interpolation of weight 0 from it to the second one, and the pose at the
    time of a later keyframe is the interpolation of weight 1 from its
    predecessor to it. *)
Theorem getPoseAtProgress_interpolates (k0 k1 : AvatarKeyframe)
    (rest : list AvatarKeyframe) (progress : R) :
  let keyframes := k0 :: k1 :: rest in
  Avatar.getPoseAtProgress keyframes progress
  = Avatar.getPoseAtProgress keyframes (Rmax 0 (Rmin 1 progress))
  /\ (time k0 <= 0 -> 1 <= time (last keyframes k0) ->
      exists a b lam,
        neighbours keyframes a b /\ 0 <= lam <= 1
        /\ Avatar.getPoseAtProgress keyframes progress
           = Avatar.lerpPose (pose a) (pose b) lam)
  /\ (increasingTimes keyframes ->
      (0 <= time k0 <= 1 ->
       Avatar.getPoseAtProgress keyframes (time k0)
       = Avatar.lerpPose (pose k0) (pose k1) 0)
      /\ (forall a b, neighbours keyframes a b -> 0 <= time b <= 1 ->
            Avatar.getPoseAtProgress keyframes (time b)
            = Avatar.lerpPose (pose a) (pose b) 1)).
Proof.
  intros keyframes. split; [|split].
  - unfold Avatar.getPoseAtProgress, keyframes. cbv zeta.
    rewrite (clamp_unit_id (Rmax 0 (Rmin 1 progress))) by apply clamp_unit.
    reflexivity.
  - intros Hfirst Hlast.
    pose proof (clamp_unit progress) as Ht.
    destruct (findSegment_covers (k1 :: rest) k0 (Rmax 0 (Rmin 1 progress))
                ltac:(discriminate) ltac:(fold keyframes; lra)) as [a [b Hseg]].
    destruct (findSegment_some _ _ _ _ Hseg) as [Hn Hb].
    unfold keyframes. rewrite (getPoseAtProgress_long _ _ _ _ _ _ Hseg).
    exists a, b. destruct (Req_dec_T (time b - time a) 0) as [Hz | Hz].
    + exists 0. split; [exact Hn|]. split; [lra|].
      symmetry. apply lerpPose_ends.
    + eexists. split; [exact Hn|]. split; [|reflexivity].
      assert (Hd : 0 < time b - time a) by lra.
      set (t := Rmax 0 (Rmin 1 progress)) in *.
      assert (Hl : 0 <= (t - time a) / (time b - time a) <= 1).
      { split.
        - apply Rmult_le_pos; [lra|]. left. now apply Rinv_0_lt_compat.
        - apply (Rmult_le_reg_r (time b - time a)); [exact Hd|].
          unfold Rdiv. rewrite Rmult_assoc, Rinv_l by lra. lra. }
      destruct ease_values as [E0 [_ E1]].
      pose proof (ease_mono _ _ (proj1 Hl)) as L. pose proof (ease_mono _ _ (proj2 Hl)) as U.
      rewrite E0 in L. rewrite E1 in U. split; assumption.
  - intros Hs. split.
    + intros Hk.
      assert (H01 : time k0 < time k1).
      { destruct (sorted_split [] k0 (k1 :: rest) Hs) as [_ Hafter].
        inversion Hafter; assumption. }
      assert (Hseg : Avatar.findSegment (k0 :: k1 :: rest) (time k0) = Some (k0, k1)).
      { cbn [Avatar.findSegment].
        replace (Js.leb (time k0) (time k0)) with true
          by (symmetry; apply (geb_true_iff (time k0) (time k0)); lra).
        replace (Js.geb (time k1) (time k0)) with true
          by (symmetry; apply geb_true_iff; lra).
        reflexivity. }
      unfold keyframes.
      rewrite (getPoseAtProgress_long k0 k1 rest (time k0) k0 k1)
        by (rewrite clamp_unit_id by exact Hk; exact Hseg).
      rewrite clamp_unit_id by exact Hk.
      destruct (Req_dec_T (time k1 - time k0) 0) as [Hz | Hz]; [lra|].
      replace ((time k0 - time k0) / (time k1 - time k0)) with 0 by (field; lra).
      rewrite (proj1 ease_values). reflexivity.
    + intros a b [before [after Hn]] Hb.
      fold keyframes in Hn.
      assert (Hsa : increasingTimes (before ++ a :: b :: after)) by (rewrite <- Hn; exact Hs).
      pose proof (findSegment_at_keyframe before a b after Hsa) as Hseg.
      rewrite <- Hn in Hseg.
      destruct (sorted_split before a (b :: after) Hsa) as [_ Hafter].
      assert (Hab : time a < time b) by (inversion Hafter; assumption).
      unfold keyframes in *.
      rewrite (getPoseAtProgress_long k0 k1 rest (time b) a b)
        by (rewrite clamp_unit_id by exact Hb; exact Hseg).
      rewrite clamp_unit_id by exact Hb.
      destruct (Req_dec_T (time b - time a) 0) as [Hz | Hz]; [lra|].
      replace ((time b - time a) / (time b - time a)) with 1 by (field; lra).
      rewrite (proj2 (proj2 ease_values)). reflexivity.
Qed.

Lemma getPoseAtProgress_interpolates_witness :
  Avatar.getPoseAtProgress
    [mkKeyframe 0 Combos.GUARD_POSE; mkKeyframe 1 (Avatar.mirrorPose Combos.GUARD_POSE)] 1
  = Avatar.lerpPose Combos.GUARD_POSE (Avatar.mirrorPose Combos.GUARD_POSE) 1.
Proof.
  refine (proj2 (proj2 (proj2 (getPoseAtProgress_interpolates
                                 (mkKeyframe 0 Combos.GUARD_POSE)
                                 (mkKeyframe 1 (Avatar.mirrorPose Combos.GUARD_POSE)) [] 0))
                   _)
            (mkKeyframe 0 Combos.GUARD_POSE)
            (mkKeyframe 1 (Avatar.mirrorPose Combos.GUARD_POSE)) _ _).
  - repeat constructor. cbn [time]. lra.
  - exists [], []. reflexivity.
  - cbn [time]. lra.
Defined.

(** *** The session history *)

Lemma findIndex_split {A : Type} (p : A -> bool) (arr : list A) :
  match History.findIndex p arr with
  | Some index =>
      exists before a after,
        arr = before ++ a :: after /\ length before = index
        /\ p a = true /\ Forall (fun b => p b = false) before
  | None => Forall (fun b => p b = false) arr
  end.
Proof.
  induction arr as [|a rest IH]; cbn [History.findIndex]; [constructor|].
  destruct (p a) eqn:Ea.
  - exists [], a, rest. repeat split; auto.
  - destruct (History.findIndex p rest) as [i|]; cbn [option_map].
    + destruct IH as [before [b [after [-> [Hl [Hb Hall]]]]]].
      exists (a :: before), b, after. cbn [app length]. repeat split; auto.
    + constructor; assumption.
Qed.

Lemma setAt_middle {A : Type} (before : list A) (a v : A) (after : list A) :
  History.setAt (length before) v (before ++ a :: after) = before ++ v :: after.
Proof.
  induction before as [|b before IH]; cbn [app length History.setAt]; [reflexivity|].
  now rewrite IH.
Qed.

Lemma nth_error_middle {A : Type} (before : list A) (a : A) (after : list A) :
  nth_error (before ++ a :: after) (length before) = Some a.
Proof. induction before as [|b before IH]; [reflexivity | exact IH]. Qed.

Lemma updateSession_found (sessionId : string) (updates : History.SessionUpdates)
    (before : list History.SessionData) (s : History.SessionData)
    (after : list History.SessionData) :
  Forall (fun b => History.id b <> sessionId) before ->
  History.id s = sessionId ->
  History.updateSession sessionId updates (Some (before ++ s :: after))
  = Some (before ++ History.spread s updates :: after).
Proof.
  intros Hb Hs. unfold History.updateSession. cbv zeta. cbn [History.getHistory].
  pose proof (findIndex_split (fun x => String.eqb (History.id x) sessionId)
                (before ++ s :: after)) as H.
  destruct (History.findIndex _ (before ++ s :: after)) as [index|].
  - destruct H as [before' [a [after' [E [Hl [Ha Hall]]]]]].
    assert (Hlen : length before' = length before).
    { destruct (Nat.lt_trichotomy (length before') (length before)) as [Hlt | [He | Hgt]];
        [|exact He|]; exfalso.
      - assert (Hin : In a before).
        { assert (Hn : nth_error (before ++ s :: after) (length before') = Some a)
            by (rewrite E; apply nth_error_middle).
          rewrite nth_error_app1 in Hn by exact Hlt. eapply nth_error_In; eauto. }
        rewrite Forall_forall in Hb. apply (Hb a Hin). now apply String.eqb_eq.
      - assert (Hin : In s before').
        { assert (Hn : nth_error (before' ++ a :: after') (length before) = Some s)
            by (rewrite <- E; apply nth_error_middle).
          rewrite nth_error_app1 in Hn by exact Hgt. eapply nth_error_In; eauto. }
        rewrite Forall_forall in Hall. specialize (Hall s Hin). cbv beta in Hall.
        apply String.eqb_neq in Hall. contradiction. }
    subst index. rewrite Hlen, nth_error_middle, setAt_middle. reflexivity.
  - exfalso. rewrite Forall_forall in H.
    specialize (H s ltac:(apply in_or_app; right; left; reflexivity)). cbv beta in H.
    apply String.eqb_neq in H. contradiction.
Qed.

Lemma firstn_In {A : Type} (n : nat) (l : list A) (a : A) :
  In a (firstn n l) -> In a l.
Proof.
  intros H. rewrite <- (firstn_skipn n l). apply in_or_app. left. exact H.
Qed.

(** [X27] [addToHistory] puts the new session first and keeps the 49 most recent
    earlier ones, so the history has [min(50, old + 1)] entries.  An
    [updateSession] for the new session's id right afterwards changes exactly
    that first entry, and deleting it again gives back the earlier sessions
    (when none of them has the same id). *)
Theorem addToHistory_newest_first (session : History.SessionData) (store : History.Store) :
  let store' := History.addToHistory session store in
  History.getHistory store' = session :: firstn 49 (History.getHistory store)
  /\ length (History.getHistory store')
     = Nat.min 50 (S (length (History.getHistory store)))
  /\ (forall updates,
        History.getHistory (History.updateSession (History.id session) updates store')
        = History.spread session updates :: firstn 49 (History.getHistory store))
  /\ (Forall (fun s => History.id s <> History.id session) (History.getHistory store) ->
      History.getHistory (History.deleteSession (History.id session) store')
      = firstn 49 (History.getHistory store)).
Proof.
  intros store'.
  assert (E : store' = Some (session :: firstn 49 (History.getHistory store))) by reflexivity.
  rewrite E. cbn [History.getHistory].
  split; [reflexivity|]. split.
  { cbn [length]. rewrite length_firstn. lia. }
  split.
  { intros updates.
    pose proof (updateSession_found (History.id session) updates [] session
                  (firstn 49 (History.getHistory store)) (Forall_nil _) eq_refl) as H.
    cbn [app] in H. rewrite H. reflexivity. }
  intros Hfresh. unfold History.deleteSession. cbv zeta. cbn [History.getHistory filter].
  rewrite String.eqb_refl. cbn [negb].
  assert (Hf : Forall (fun s => History.id s <> History.id session)
                 (firstn 49 (History.getHistory store))).
  { apply Forall_forall. intros s Hs. rewrite Forall_forall in Hfresh.
    apply Hfresh. eapply firstn_In; eauto. }
  revert Hf. generalize (firstn 49 (History.getHistory store)).
  induction l as [|a l IH]; intros Hf; [reflexivity|].
  inversion Hf as [|? ? Ha Hl]; subst. cbn [filter].
  replace (String.eqb (History.id a) (History.id session)) with false
    by (symmetry; now apply String.eqb_neq).
  cbn [negb]. now rewrite IH.
Qed.

Lemma addToHistory_newest_first_witness :
  let s := History.mkSession "a" "l1-jab-cross" 0 None None None None None None in
  History.getHistory (History.deleteSession "a" (History.addToHistory s None)) = [].
Proof.
  intros s.
  exact (proj2 (proj2 (proj2 (addToHistory_newest_first s None))) (Forall_nil _)).
Defined.

Lemma setAt_length {A : Type} (v : A) (arr : list A) :
  forall index, length (History.setAt index v arr) = length arr.
Proof.
  induction arr as [|a rest IH]; intros [|i]; cbn [History.setAt length]; auto.
Qed.

Lemma updateSession_missing (sessionId : string) (updates : History.SessionUpdates)
    (store : History.Store) :
  Forall (fun s => History.id s <> sessionId) (History.getHistory store) ->
  History.updateSession sessionId updates store = store.
Proof.
  intros Hall. unfold History.updateSession. cbv zeta.
  pose proof (findIndex_split (fun x => String.eqb (History.id x) sessionId)
                (History.getHistory store)) as H.
  destruct (History.findIndex _ (History.getHistory store)) as [index|]; [|reflexivity].
  destruct H as [before [a [after [E [_ [Ha _]]]]]].
  rewrite Forall_forall in Hall. apply String.eqb_eq in Ha.
  elim (Hall a); [|exact Ha]. rewrite E. apply in_or_app. right. left. reflexivity.
Qed.

Lemma updateSession_length (sessionId : string) (updates : History.SessionUpdates)
    (store : History.Store) :
  length (History.getHistory (History.updateSession sessionId updates store))
  = length (History.getHistory store).
Proof.
  unfold History.updateSession. cbv zeta.
  destruct (History.findIndex _ (History.getHistory store)) as [index|]; [|reflexivity].
  destruct (nth_error (History.getHistory store) index); [|reflexivity].
  cbn [History.getHistory]. apply setAt_length.
Qed.

Lemma first_match_split (sessionId : string) (history : list History.SessionData) :
  Forall (fun s => History.id s <> sessionId) history
  \/ exists before s after,
       history = before ++ s :: after
       /\ Forall (fun b => History.id b <> sessionId) before
       /\ History.id s = sessionId.
Proof.
  pose proof (findIndex_split (fun x => String.eqb (History.id x) sessionId) history) as H.
  destruct (History.findIndex _ history) as [index|].
  - right. destruct H as [before [a [after [E [_ [Ha Hall]]]]]].
    exists before, a, after. split; [exact E|]. split; [|now apply String.eqb_eq].
    eapply Forall_impl; [|exact Hall]. intros b Hb. now apply String.eqb_neq.
  - left. eapply Forall_impl; [|exact H]. intros b Hb. now apply String.eqb_neq.
Qed.

(** [X28] [updateSession] keeps the length of the history, leaves the store
    untouched when no session has the id, and otherwise replaces only the
    first session with that id by its merge with the updates; when the updates
    carry no id, the ids of the history are unchanged. *)
Theorem updateSession_first_match (sessionId : string) (updates : History.SessionUpdates)
    (store : History.Store) :
  let history := History.getHistory store in
  let history' := History.getHistory (History.updateSession sessionId updates store) in
  length history' = length history
  /\ (Forall (fun s => History.id s <> sessionId) history ->
      History.updateSession sessionId updates store = store)
  /\ (forall before s after,
        history = before ++ s :: after ->
        Forall (fun b => History.id b <> sessionId) before ->
        History.id s = sessionId ->
        history' = before ++ History.spread s updates :: after)
  /\ (History.newId updates = None -> map History.id history' = map History.id history).
Proof.
  intros history history'.
  split; [apply updateSession_length|].
  split; [apply updateSession_missing|].
  assert (Hfound : forall before s after,
             history = before ++ s :: after ->
             Forall (fun b => History.id b <> sessionId) before ->
             History.id s = sessionId ->
             history' = before ++ History.spread s updates :: after).
  { intros before s after E Hb Hs. subst history history'.
    destruct store as [h|]; cbn [History.getHistory] in E.
    - subst h. now rewrite updateSession_found.
    - destruct before; discriminate. }
  split; [exact Hfound|].
  intros Hid.
  destruct (first_match_split sessionId history) as [Hall | [before [s [after [E [Hb Hs]]]]]].
  - subst history'. now rewrite updateSession_missing.
  - rewrite (Hfound before s after E Hb Hs), E, !map_app. cbn [map].
    unfold History.spread at 1. cbn [History.id]. rewrite Hid. reflexivity.
Qed.

Lemma updateSession_first_match_witness :
  let s := History.mkSession "a" "l1-jab-cross" 0 None None None None None None in
  let u := History.mkUpdates None None None None None None None (Some false) (Some 100) in
  History.getHistory (History.updateSession "a" u (Some [s; s]))
  = [History.spread s u; s].
Proof.
  intros s u.
  exact (proj1 (proj2 (proj2 (updateSession_first_match "a" u (Some [s; s]))))
           [] s [s] eq_refl (Forall_nil _) eq_refl).
Defined.

Lemma filter_length_le {A : Type} (p : A -> bool) (l : list A) :
  (length (filter p l) <= length l)%nat.
Proof.
  induction l as [|a l IH]; [apply Nat.le_refl|].
  cbn [filter]. destruct (p a); cbn [length]; lia.
Qed.

Lemma perform_bounded (store : History.Store) (call : HistoryCall) :
  (length (History.getHistory store) <= 50)%nat ->
  (length (History.getHistory (perform store call)) <= 50)%nat.
Proof.
  intros H. destruct call as [session | sessionId | sessionId updates |]; cbn [perform].
  - unfold History.addToHistory. cbv zeta. cbn [History.getHistory].
    rewrite length_firstn. lia.
  - unfold History.deleteSession. cbv zeta. cbn [History.getHistory].
    eapply Nat.le_trans; [apply filter_length_le | exact H].
  - now rewrite updateSession_length.
  - cbn. lia.
Qed.

(** [X29] Whatever sequence of [addToHistory], [deleteSession], [updateSession]
    and [clearHistory] calls is made, a history of at most 50 sessions stays
    at most 50 sessions long; and after [deleteSession] no session with the
    deleted id is left. *)
Theorem history_bounded (calls : list HistoryCall) (store : History.Store)
    (Hstore : (length (History.getHistory store) <= 50)%nat) :
  (length (History.getHistory (fold_left perform calls store)) <= 50)%nat
  /\ forall sessionId,
       Forall (fun s => History.id s <> sessionId)
         (History.getHistory
            (History.deleteSession sessionId (fold_left perform calls store))).
Proof.
  split.
  - revert store Hstore. induction calls as [|call calls IH]; intros store Hstore;
      cbn [fold_left]; [exact Hstore|].
    apply IH. now apply perform_bounded.
  - intros sessionId. unfold History.deleteSession. cbv zeta. cbn [History.getHistory].
    apply Forall_forall. intros s Hs. apply filter_In in Hs. destruct Hs as [_ Hs].
    apply negb_true_iff in Hs. now apply String.eqb_neq.
Qed.

Lemma history_bounded_witness :
  (length (History.getHistory
             (fold_left perform
                [CallAdd (History.mkSession "a" "l1-jab-cross" 0 None None None None None None);
                 CallClear] None)) <= 50)%nat.
Proof.
  exact (proj1 (history_bounded _ None ltac:(simpl; lia))).
Defined.
